(** * pipevec: the tensor engine of [pipevec/pipevec-tensor.c]

    A shallow embedding of the C translation unit.  The embedding follows
    the source statement by statement:

    - [size_t] is a [Z] in [0, 2^64) with wrap-around written out, [guint]
      and [int] are 32 bits wide, [float] is IEEE binary32 (LP64,
      little-endian, as on x86-64);
    - a [GArray] of [size_t] is a list of 64-bit words living in a store,
      because the tensor keeps the caller's shape array by reference
      ([g_array_ref]); [g_array_index (a, float, k)] on such an array is the
      32-bit half-word [k] of its data, read or written as a [float];
    - [priv->array] is a pointer that may be [NULL]: [option];
    - a dereference of [NULL], an access outside an allocation, an integer
      division by zero, an out-of-range float-to-integer conversion and the
      use of a released object end the run in [Crash]. *)

From Stdlib Require Import ZArith List String Ascii Bool Lia DecimalString.
From Stdlib Require Import SpecFloat.
Import ListNotations.
Local Open Scope Z_scope.

(** ** Machine integers *)

Definition SIZE_MOD : Z := 2 ^ 64.
Definition UINT_MOD : Z := 2 ^ 32.

Definition size_wrap (x : Z) : Z := x mod SIZE_MOD.
Definition size_add (a b : Z) : Z := size_wrap (a + b).
Definition size_sub (a b : Z) : Z := size_wrap (a - b).
Definition size_mul (a b : Z) : Z := size_wrap (a * b).

(** [guint] arithmetic, as in [shape->len - 1]. *)
Definition guint_sub (a b : Z) : Z := (a - b) mod UINT_MOD.

(** Conversion of a 64-bit value to [int] (the low 32 bits, two's
    complement) and of an [int] to [size_t] (sign extension). *)
Definition int_of_size (x : Z) : Z :=
  let lo := x mod UINT_MOD in
  if lo <? 2 ^ 31 then lo else lo - UINT_MOD.
Definition size_of_int (x : Z) : Z := x mod SIZE_MOD.

(** Element [i] of a C array held as a list; [None] outside it. *)
Definition zlen {A} (l : list A) : Z := Z.of_nat (List.length l).

Definition zth {A} (l : list A) (i : Z) : option A :=
  if (i <? 0) || (zlen l <=? i) then None else nth_error l (Z.to_nat i).

Fixpoint upd_nat {A} (l : list A) (n : nat) (v : A) : option (list A) :=
  match l, n with
  | [], _ => None
  | _ :: tl, O => Some (v :: tl)
  | x :: tl, S n' =>
      match upd_nat tl n' v with
      | Some tl' => Some (x :: tl')
      | None => None
      end
  end.

Definition zupd {A} (l : list A) (i : Z) (v : A) : option (list A) :=
  if (i <? 0) || (zlen l <=? i) then None else upd_nat l (Z.to_nat i) v.

(** ** 32-bit floats *)

Module Float32.

Definition prec : Z := 24.
Definition emax : Z := 128.

Definition t := spec_float.

Definition zero : t := S754_zero false.
Definition add : t -> t -> t := SFadd prec emax.
Definition sub : t -> t -> t := SFsub prec emax.
Definition mul : t -> t -> t := SFmul prec emax.
Definition div : t -> t -> t := SFdiv prec emax.
Definition eqb : t -> t -> bool := SFeqb.

(** Integer to [float], round to nearest even. *)
Definition of_Z (n : Z) : t := binary_normalize prec emax n 0 false.

(** The value denoted by a 32-bit pattern. *)
Definition of_bits (b : Z) : t :=
  let s := Z.testbit b 31 in
  let e := Z.land (Z.shiftr b 23) 255 in
  let m := Z.land b (2 ^ 23 - 1) in
  if e =? 0 then
    match m with
    | Zpos p => S754_finite s p (-149)
    | _ => S754_zero s
    end
  else if e =? 255 then
    (if m =? 0 then S754_infinity s else S754_nan)
  else
    match m + 2 ^ 23 with
    | Zpos p => S754_finite s p (e - 150)
    | _ => S754_nan
    end.

(** The 32-bit pattern of a value (the quiet NaN for a NaN). *)
Definition to_bits (f : t) : Z :=
  let sign (s : bool) := if s then 2 ^ 31 else 0 in
  match f with
  | S754_zero s => sign s
  | S754_infinity s => sign s + 255 * 2 ^ 23
  | S754_nan => 255 * 2 ^ 23 + 2 ^ 22
  | S754_finite s m e =>
      if Zpos m <? 2 ^ 23 then sign s + Zpos m
      else sign s + (e + 150) * 2 ^ 23 + (Zpos m - 2 ^ 23)
  end.

(** [float] to [size_t]: the fractional part is discarded; the conversion
    is undefined when the integral part does not fit. *)
Definition to_size_t (f : t) : option Z :=
  match f with
  | S754_zero _ => Some 0
  | S754_finite s m e =>
      let v := Z.shiftl (Zpos m) e in
      if s then (if v =? 0 then Some 0 else None)
      else if v <? SIZE_MOD then Some v else None
  | _ => None
  end.

End Float32.

(** ** GArray of [size_t], and its [float]-typed view *)

(** Half-word [k] of the data of a [size_t] array: the low half of word
    [k / 2] when [k] is even, its high half when [k] is odd. *)
Definition half_get (a : list Z) (k : Z) : option Z :=
  match zth a (k / 2) with
  | Some w => Some (if Z.even k then w mod UINT_MOD else (w / UINT_MOD) mod UINT_MOD)
  | None => None
  end.

Definition half_set (a : list Z) (k : Z) (v : Z) : option (list Z) :=
  match zth a (k / 2) with
  | Some w =>
      let w' := if Z.even k
                then (w / UINT_MOD) * UINT_MOD + v mod UINT_MOD
                else (v mod UINT_MOD) * UINT_MOD + w mod UINT_MOD in
      zupd a (k / 2) w'
  | None => None
  end.

(** [g_array_index (a, float, k)] as an rvalue. *)
Definition float_index (a : list Z) (k : Z) : option Float32.t :=
  option_map Float32.of_bits (half_get a k).

(** ** Errors *)

Inductive PipevecError :=
| PIPEVEC_ERROR_INTERNAL
| PIPEVEC_ERROR_BAD_SHAPE
| PIPEVEC_ERROR_DIMENSION_MISMATCH.

Record GError := { code : PipevecError; message : string }.

(** ** The store and the run monad *)

Record PipevecTensorPrivate := {
  array : option (list Float32.t);
  shape : nat;
  padded_shape : nat
}.

(** [garrays]: the [size_t] arrays, addressed by position; reference counts
    are not tracked and an array is never reclaimed (the code drops no
    reference it still uses).  [tensors]: the tensor objects, [None] once
    finalized.  [mem_limit]: the largest request [posix_memalign] grants. *)
Record heap := {
  garrays : list (list Z);
  tensors : list (option PipevecTensorPrivate);
  mem_limit : Z
}.

Inductive fault :=
| NullDereference
| OutOfBounds
| DivisionByZero
| ConversionOutOfRange
| UseAfterFree.

Inductive outcome (A : Type) :=
| Done (a : A) (h : heap)
| Crash (f : fault).
Arguments Done {A} a h.
Arguments Crash {A} f.

Definition M (A : Type) : Type := heap -> outcome A.

Definition ret {A} (a : A) : M A := fun h => Done a h.
Definition bind {A B} (m : M A) (k : A -> M B) : M B :=
  fun h => match m h with
           | Done a h' => k a h'
           | Crash f => Crash f
           end.
Definition crash {A} (f : fault) : M A := fun _ => Crash f.

Notation "x <- m ;; k" := (bind m (fun x => k))
  (at level 61, m at next level, right associativity).
Notation "m ;;; k" := (bind m (fun _ => k))
  (at level 61, right associativity).

(** A value that must exist, else the run ends in [f]. *)
Definition need {A} (o : option A) (f : fault) : M A :=
  match o with Some a => ret a | None => crash f end.

(** [for (size_t i = from; i < from + n; ++i) body (i)]. *)
Fixpoint for_loop (n : nat) (i : Z) (body : Z -> M unit) : M unit :=
  match n with
  | O => ret tt
  | S n' => body i ;;; for_loop n' (i + 1) body
  end.

Definition for_range (lo hi : Z) (body : Z -> M unit) : M unit :=
  for_loop (Z.to_nat (hi - lo)) lo body.

(** Store access. *)
Definition garray_new (a : list Z) : M nat :=
  fun h => Done (List.length (garrays h))
                {| garrays := garrays h ++ [a];
                   tensors := tensors h;
                   mem_limit := mem_limit h |}.

Definition garray_read (p : nat) : M (list Z) :=
  fun h => match nth_error (garrays h) p with
           | Some a => Done a h
           | None => Crash OutOfBounds
           end.

Definition garray_write (p : nat) (a : list Z) : M unit :=
  fun h => match upd_nat (garrays h) p a with
           | Some g => Done tt {| garrays := g;
                                  tensors := tensors h;
                                  mem_limit := mem_limit h |}
           | None => Crash OutOfBounds
           end.

(** [g_array_copy]. *)
Definition g_array_copy (p : nat) : M nat :=
  a <- garray_read p ;; garray_new a.

(** [pipevec_tensor_get_instance_private]. *)
Definition get_priv (t : nat) : M PipevecTensorPrivate :=
  fun h => match nth_error (tensors h) t with
           | Some (Some p) => Done p h
           | Some None => Crash UseAfterFree
           | None => Crash OutOfBounds
           end.

Definition set_priv (t : nat) (p : PipevecTensorPrivate) : M unit :=
  fun h => match nth_error (tensors h) t with
           | Some (Some _) =>
               match upd_nat (tensors h) t (Some p) with
               | Some ts => Done tt {| garrays := garrays h;
                                       tensors := ts;
                                       mem_limit := mem_limit h |}
               | None => Crash OutOfBounds
               end
           | Some None => Crash UseAfterFree
           | None => Crash OutOfBounds
           end.

(** [posix_memalign]: [true] when the request is granted.  The block it
    returns is held by a local variable of the caller only. *)
Definition posix_memalign (size : Z) : M bool :=
  fun h => Done (size <=? mem_limit h) h.

(** A loop that carries a local value, as [get_data] fills its result. *)
Fixpoint for_fold {S : Type} (n : nat) (i : Z) (acc : S)
         (body : Z -> S -> M S) : M S :=
  match n with
  | O => ret acc
  | S n' => acc' <- body i acc ;; for_fold n' (i + 1) acc' body
  end.

(** ** Helpers of the translation unit *)

(** [array_size_t_product]: reads [data[0 .. len-1]]. *)
Definition array_size_t_product (data : list Z) (len : Z) : M Z :=
  if len <=? zlen data
  then ret (fold_left size_mul (firstn (Z.to_nat len) data) 1)
  else crash OutOfBounds.

(** [printf ("%zu")] and [printf ("%u")]. *)
Definition fmt_zu (n : Z) : string := NilZero.string_of_uint (N.to_uint (Z.to_N n)).

(** [g_strjoinv ("", strv)]: the strings up to the first [NULL]. *)
Fixpoint g_strjoinv (strv : list (option string)) : string :=
  match strv with
  | Some s :: tl => (s ++ g_strjoinv tl)%string
  | _ => EmptyString
  end.

(** [format_size_t_array]: [strv] has [len + 3] zeroed slots; slot [i + 1]
    receives the decimal text of [i]; then slots [len - 2] and [len - 1]
    are overwritten.  [None] when a slot written lies outside [strv]. *)
Definition format_size_t_array (data : list Z) (len : Z) : option string :=
  let strv0 := repeat (@None string) (Z.to_nat (len + 3)) in
  let fill (strv : option (list (option string))) (i : Z) :=
    match strv with
    | Some v =>
        zupd v (size_add i 1)
             (Some (if i =? size_sub len 1
                    then fmt_zu i
                    else (fmt_zu i ++ ", ")%string))
    | None => None
    end in
  match zupd strv0 0 (Some "["%string) with
  | Some v0 =>
      match fold_left fill (map Z.of_nat (seq 0 (Z.to_nat len))) (Some v0) with
      | Some v1 =>
          match zupd v1 (size_sub len 2) (Some "]"%string) with
          | Some v2 =>
              match zupd v2 (size_sub len 1) None with
              | Some v3 => Some (g_strjoinv v3)
              | None => None
              end
          | None => None
          end
      | None => None
      end
  | None => None
  end.

(** [apply_padding]; every call passes [vector_size = 8]. *)
Definition apply_padding (original vector_size : Z) : Z :=
  size_add original
           (size_sub vector_size (original mod vector_size) mod vector_size).

(** What a fallible entry point hands back: its value, or failure with
    the [GError] it stored (none when it was given no place to store one). *)
Inductive gresult (A : Type) :=
| Success (a : A)
| Failure (e : option GError).
Arguments Success {A} a.
Arguments Failure {A} e.

Definition SIZEOF_FLOAT8 : Z := 32.

(** [g_array_index (a, float, len - 1) = apply_padding (g_array_index (a,
    float, len - 1), 8)] on the array at [p]: the half-word is read as a
    [float], converted to [size_t], padded, converted back to [float] and
    stored into the same half-word. *)
Definition pad_last_as_float (p : nat) : M unit :=
  pdata <- garray_read p ;;
  let k := guint_sub (zlen pdata) 1 in
  f <- need (float_index pdata k) OutOfBounds ;;
  v <- need (Float32.to_size_t f) ConversionOutOfRange ;;
  let r := Float32.of_Z (apply_padding v 8) in
  pdata' <- need (half_set pdata k (Float32.to_bits r)) OutOfBounds ;;
  garray_write p pdata'.

(** [pipevec_tensor_alloc_shape].  The block obtained from
    [posix_memalign] is never stored: after the three [g_clear_pointer]
    calls [priv->array] is [NULL] and stays so. *)
Definition pipevec_tensor_alloc_shape (tensor shape_p : nat)
  : M (gresult unit) :=
  shape_data <- garray_read shape_p ;;
  shape_product <- array_size_t_product shape_data (zlen shape_data) ;;
  last <- need (zth shape_data (guint_sub (zlen shape_data) 1)) OutOfBounds ;;
  if last =? 0 then crash DivisionByZero else
  let padded := size_mul (shape_product / last) (apply_padding last 8) in
  ok <- posix_memalign (size_mul SIZEOF_FLOAT8 padded) ;;
  if negb ok then
    ret (Failure (Some {| code := PIPEVEC_ERROR_INTERNAL;
                          message := "Unable to allocate memory: Cannot allocate memory" |}))
  else
    _ <- get_priv tensor ;;
    ps <- g_array_copy shape_p ;;
    set_priv tensor {| array := None; shape := shape_p; padded_shape := ps |} ;;;
    pad_last_as_float ps ;;;
    ret (Success tt).

(** [priv->array[off] = v] and [priv->array[off]] as an rvalue. *)
Definition array_store (tensor : nat) (off : Z) (v : Float32.t) : M unit :=
  priv <- get_priv tensor ;;
  match array priv with
  | None => crash NullDereference
  | Some buf =>
      buf' <- need (zupd buf off v) OutOfBounds ;;
      set_priv tensor {| array := Some buf'; shape := shape priv;
                         padded_shape := padded_shape priv |}
  end.

Definition array_load (tensor : nat) (off : Z) : M Float32.t :=
  priv <- get_priv tensor ;;
  match array priv with
  | None => crash NullDereference
  | Some buf => need (zth buf off) OutOfBounds
  end.

(** [(size_t) g_array_index (a, float, len - 1)] for the array at [p]. *)
Definition last_as_float_size (p : nat) : M Z :=
  pdata <- garray_read p ;;
  f <- need (float_index pdata (guint_sub (zlen pdata) 1)) OutOfBounds ;;
  need (Float32.to_size_t f) ConversionOutOfRange.

(** [pipevec_tensor_set_data]. *)
Definition pipevec_tensor_set_data (tensor : nat) (contents : list Float32.t)
           (shape_p : nat) : M (gresult unit) :=
  shape_data <- garray_read shape_p ;;
  shape_product <- array_size_t_product shape_data (zlen shape_data) ;;
  if negb (shape_product =? zlen contents) then
    formatted_shape <- need (format_size_t_array shape_data (zlen shape_data))
                            OutOfBounds ;;
    ret (Failure (Some {| code := PIPEVEC_ERROR_BAD_SHAPE;
                          message := ("Shape " ++ formatted_shape
                                      ++ " has product " ++ fmt_zu shape_product
                                      ++ " which does not match array length "
                                      ++ fmt_zu (zlen shape_data) ++ "i")%string |}))
  else
    r <- pipevec_tensor_alloc_shape tensor shape_p ;;
    match r with
    | Failure e => ret (Failure e)
    | Success _ =>
        last <- need (zth shape_data (guint_sub (zlen shape_data) 1))
                     OutOfBounds ;;
        if last =? 0 then crash DivisionByZero else
        let leading_shape := shape_product / last in
        priv <- get_priv tensor ;;
        inner_shape_padding <- last_as_float_size (padded_shape priv) ;;
        let inner_shape_no_padding := last in
        for_range 0 leading_shape (fun i =>
          for_range 0 inner_shape_no_padding (fun j =>
            v <- need (zth contents
                           (size_add (size_mul i inner_shape_no_padding) j))
                      OutOfBounds ;;
            array_store tensor
                        (size_add (size_mul i inner_shape_padding) j) v) ;;;
          for_range inner_shape_no_padding inner_shape_padding (fun j =>
            array_store tensor
                        (size_add (size_mul i inner_shape_padding) j)
                        Float32.zero)) ;;;
        ret (Success tt)
    end.

(** [pipevec_tensor_get_data].  [g_array_sized_new] takes the number of
    cells to reserve as a [guint] and [GArray.len] is a [guint], so the
    result has [return_value_len mod 2^32] cells, while the loops keep
    the [size_t] count.  The array is created with [clear = FALSE]: a
    cell holds [None] until the loop writes it, and a store past the
    reserved cells is outside the array. *)
Definition pipevec_tensor_get_data (tensor : nat) : M (list (option Float32.t)) :=
  priv <- get_priv tensor ;;
  shape_data <- garray_read (shape priv) ;;
  return_value_len <- array_size_t_product shape_data (zlen shape_data) ;;
  let return_value :=
    repeat (@None Float32.t) (Z.to_nat (return_value_len mod UINT_MOD)) in
  last <- need (zth shape_data (guint_sub (zlen shape_data) 1)) OutOfBounds ;;
  if last =? 0 then crash DivisionByZero else
  let leading_shape := return_value_len / last in
  let inner_shape_no_padding := last in
  let inner_shape_padding := apply_padding last 8 in
  for_fold (Z.to_nat leading_shape) 0 return_value (fun i rv =>
    for_fold (Z.to_nat inner_shape_no_padding) 0 rv (fun j rv =>
      v <- array_load tensor (size_add (size_mul i inner_shape_padding) j) ;;
      need (zupd rv (size_add (size_mul i inner_shape_no_padding) j) (Some v))
           OutOfBounds)).

(** What reading the cells of such an array gives: the value written, and
    for a cell never written the value [unspecified k], [k] its index. *)
Fixpoint read_cells_from (unspecified : Z -> Float32.t) (k : Z)
         (cells : list (option Float32.t)) : list Float32.t :=
  match cells with
  | [] => []
  | c :: cs =>
      match c with Some v => v | None => unspecified k end
      :: read_cells_from unspecified (k + 1) cs
  end.

Definition read_cells (unspecified : Z -> Float32.t)
           (cells : list (option Float32.t)) : list Float32.t :=
  read_cells_from unspecified 0 cells.

(** [pipevec_tensor_reshape].  [pipevec_tensor_set_data] reads the cells
    of the array [pipevec_tensor_get_data] returned; what it reads in a
    cell that was never written is given by [unspecified]. *)
Definition pipevec_tensor_reshape (unspecified : Z -> Float32.t)
           (tensor shape_p : nat) : M (gresult unit) :=
  data <- pipevec_tensor_get_data tensor ;;
  pipevec_tensor_set_data tensor (read_cells unspecified data) shape_p.

(** ** Object life cycle *)

(** [g_object_new (PIPEVEC_TYPE_TENSOR, NULL)], running
    [pipevec_tensor_init]: two empty arrays and a [NULL] buffer. *)
Definition pipevec_tensor_init : M PipevecTensorPrivate :=
  s <- garray_new [] ;;
  ps <- garray_new [] ;;
  ret {| array := None; shape := s; padded_shape := ps |}.

Definition g_object_new : M nat :=
  priv <- pipevec_tensor_init ;;
  fun h => Done (List.length (tensors h))
                {| garrays := garrays h;
                   tensors := tensors h ++ [Some priv];
                   mem_limit := mem_limit h |}.

(** [g_object_unref] of the only reference: [pipevec_tensor_finalize] runs
    and the object is released. *)
Definition g_object_unref (t : nat) : M unit :=
  _ <- get_priv t ;;
  fun h => match upd_nat (tensors h) t None with
           | Some ts => Done tt {| garrays := garrays h;
                                   tensors := ts;
                                   mem_limit := mem_limit h |}
           | None => Crash OutOfBounds
           end.

(** ** Copy *)

(** [pipevec_tensor_set_data_aligned_padded]; [memcpy] of zero bytes
    touches nothing. *)
Definition pipevec_tensor_set_data_aligned_padded
           (tensor shape_p : nat) (padded_data : option (list Float32.t))
           (padded_data_length : Z) : M (gresult unit) :=
  r <- pipevec_tensor_alloc_shape tensor shape_p ;;
  match r with
  | Failure e => ret (Failure e)
  | Success _ =>
      let bytes := size_mul 4 padded_data_length in
      if bytes =? 0 then ret (Success tt) else
      priv <- get_priv tensor ;;
      match array priv, padded_data with
      | Some dst, Some src =>
          let n := Z.to_nat (bytes / 4) in
          if (bytes / 4 <=? zlen dst) && (bytes / 4 <=? zlen src) then
            set_priv tensor {| array := Some (firstn n src ++ skipn n dst);
                               shape := shape priv;
                               padded_shape := padded_shape priv |} ;;;
            ret (Success tt)
          else crash OutOfBounds
      | _, _ => crash NullDereference
      end
  end.

(** [pipevec_tensor_copy]. *)
Definition pipevec_tensor_copy (tensor : nat) : M (gresult nat) :=
  new_tensor <- g_object_new ;;
  priv <- get_priv tensor ;;
  pdata <- garray_read (padded_shape priv) ;;
  n <- array_size_t_product pdata (zlen pdata) ;;
  r <- pipevec_tensor_set_data_aligned_padded new_tensor (shape priv)
                                              (array priv) n ;;
  match r with
  | Failure e => g_object_unref new_tensor ;;; ret (Failure e)
  | Success _ => ret (Success new_tensor)
  end.

(** ** Coordinate map *)

(** The loop of [set_location], [j] running from [n - 1] down to [0];
    [product] is an [int]. *)
Fixpoint set_location_loop (n : nat) (shape_data location : list Z)
         (i product : Z) : M (list Z) :=
  match n with
  | O => ret location
  | S j =>
      d <- need (zth shape_data (Z.of_nat j)) OutOfBounds ;;
      if size_of_int product =? 0 then crash DivisionByZero else
      if d =? 0 then crash DivisionByZero else
      location' <- need (zupd location (Z.of_nat j)
                              ((i / size_of_int product) mod d))
                        OutOfBounds ;;
      set_location_loop j shape_data location' i
                        (int_of_size (size_mul (size_of_int product) d))
  end.

(** [set_location]. *)
Definition set_location (location shape_data : list Z) (i : Z) : M (list Z) :=
  set_location_loop (List.length shape_data) shape_data location i 1.

(** The callback: the element, the location cells, the user data closed
    over. *)
Definition PipevecTensorMapFunction := Float32.t -> list Z -> Float32.t.

(** [pipevec_tensor_map].  [location] reserves [len] four-byte cells and
    [set_location] stores [len] eight-byte cells into it; the cells are
    shown as a list of [len] words. *)
Definition pipevec_tensor_map (src : nat) (func : PipevecTensorMapFunction)
  : M (gresult nat) :=
  r <- pipevec_tensor_copy src ;;
  match r with
  | Failure e => ret (Failure e)
  | Success dst =>
      priv <- get_priv dst ;;
      shape_data_no_padding <- garray_read (shape priv) ;;
      shape_data_with_padding <- garray_read (padded_shape priv) ;;
      prod <- array_size_t_product shape_data_no_padding
                                   (zlen shape_data_no_padding) ;;
      last <- need (zth shape_data_no_padding
                        (guint_sub (zlen shape_data_no_padding) 1))
                   OutOfBounds ;;
      if last =? 0 then crash DivisionByZero else
      let leading_shape := prod / last in
      let inner_shape := last in
      inner_shape_padding <-
        need (zth shape_data_with_padding
                  (guint_sub (zlen shape_data_with_padding) 1))
             OutOfBounds ;;
      let location := repeat 0 (List.length shape_data_no_padding) in
      for_fold (Z.to_nat leading_shape) 0 location (fun i loc =>
        for_fold (Z.to_nat inner_shape) 0 loc (fun j loc =>
          loc' <- set_location loc shape_data_no_padding
                               (size_add (size_mul i inner_shape) j) ;;
          let off := size_add (size_mul i inner_shape_padding) j in
          v <- array_load dst off ;;
          array_store dst off (func v loc') ;;;
          ret loc')) ;;;
      ret (Success dst)
  end.

(** ** Shape checks *)

(** [shape_subset_equal]. *)
Definition shape_subset_equal (lhs rhs : list Z) (offset_from_end : Z) : bool :=
  if negb (zlen lhs =? zlen rhs) then false
  else if zlen lhs <? offset_from_end then false
  else
    let n := Z.to_nat (size_sub (zlen lhs) offset_from_end) in
    forallb (fun p => fst p =? snd p) (combine (firstn n lhs) (firstn n rhs)).

(** [shapes_equal]. *)
Definition shapes_equal (lhs rhs : list Z) : bool := shape_subset_equal lhs rhs 0.

Definition bad_shape {A} (msg : string) : M (gresult A) :=
  ret (Failure (Some {| code := PIPEVEC_ERROR_BAD_SHAPE; message := msg |})).

(** [check_shapes_elementwise]. *)
Definition check_shapes_elementwise (lhs rhs : list Z) : M (gresult unit) :=
  if negb (shapes_equal lhs rhs) then
    formatted_lhs_shape <- need (format_size_t_array lhs (zlen lhs)) OutOfBounds ;;
    formatted_rhs_shape <- need (format_size_t_array rhs (zlen rhs)) OutOfBounds ;;
    bad_shape ("Expected shapes " ++ formatted_lhs_shape ++ " and "
               ++ formatted_rhs_shape ++ " to be equal")%string
  else ret (Success tt).

(** ** Elementwise and scalar operations *)

Definition PipevecTensorElementwiseFunc := Float32.t -> Float32.t -> Float32.t.

(** [pipevec_tensor_do_elementwise_op]. *)
Definition pipevec_tensor_do_elementwise_op
           (lhs rhs : nat) (func : PipevecTensorElementwiseFunc)
  : M (gresult nat) :=
  lhs_priv <- get_priv lhs ;;
  rhs_priv <- get_priv rhs ;;
  lshape <- garray_read (shape lhs_priv) ;;
  rshape <- garray_read (shape rhs_priv) ;;
  c <- check_shapes_elementwise lshape rshape ;;
  match c with
  | Failure e => ret (Failure e)
  | Success _ =>
      r <- pipevec_tensor_copy lhs ;;
      match r with
      | Failure e => ret (Failure e)
      | Success dst =>
          shape_data_no_padding <- garray_read (shape lhs_priv) ;;
          shape_data_with_padding <- garray_read (padded_shape lhs_priv) ;;
          prod <- array_size_t_product shape_data_no_padding
                                       (zlen shape_data_no_padding) ;;
          last <- need (zth shape_data_no_padding
                            (guint_sub (zlen shape_data_no_padding) 1))
                       OutOfBounds ;;
          if last =? 0 then crash DivisionByZero else
          let leading_shape := prod / last in
          let inner_shape := last in
          inner_shape_padding <-
            need (zth shape_data_with_padding
                      (guint_sub (zlen shape_data_with_padding) 1))
                 OutOfBounds ;;
          for_range 0 leading_shape (fun i =>
            for_range 0 inner_shape (fun j =>
              let offset := size_add (size_mul i inner_shape_padding) j in
              a <- array_load lhs offset ;;
              b <- array_load rhs offset ;;
              array_store dst offset (func a b))) ;;;
          ret (Success dst)
      end
  end.

(** [pipevec_tensor_do_scalar_op]. *)
Definition pipevec_tensor_do_scalar_op
           (lhs : nat) (rhs : Float32.t) (func : PipevecTensorElementwiseFunc)
  : M (gresult nat) :=
  lhs_priv <- get_priv lhs ;;
  r <- pipevec_tensor_copy lhs ;;
  match r with
  | Failure e => ret (Failure e)
  | Success dst =>
      shape_data_no_padding <- garray_read (shape lhs_priv) ;;
      shape_data_with_padding <- garray_read (padded_shape lhs_priv) ;;
      prod <- array_size_t_product shape_data_no_padding
                                   (zlen shape_data_no_padding) ;;
      last <- need (zth shape_data_no_padding
                        (guint_sub (zlen shape_data_no_padding) 1))
                   OutOfBounds ;;
      if last =? 0 then crash DivisionByZero else
      let leading_shape := prod / last in
      let inner_shape := last in
      inner_shape_padding <-
        need (zth shape_data_with_padding
                  (guint_sub (zlen shape_data_with_padding) 1))
             OutOfBounds ;;
      for_range 0 leading_shape (fun i =>
        for_range 0 inner_shape (fun j =>
          let offset := size_add (size_mul i inner_shape_padding) j in
          a <- array_load lhs offset ;;
          array_store dst offset (func a rhs))) ;;;
      ret (Success dst)
  end.

(** The four element functions, as written in the source. *)
Definition add (lhs rhs : Float32.t) : Float32.t := Float32.add lhs rhs.
Definition sub (lhs rhs : Float32.t) : Float32.t := Float32.add lhs rhs.
Definition mul (lhs rhs : Float32.t) : Float32.t := Float32.mul lhs rhs.
Definition divide (lhs rhs : Float32.t) : Float32.t := Float32.div lhs rhs.

Definition pipevec_tensor_add_tensor (lhs rhs : nat) :=
  pipevec_tensor_do_elementwise_op lhs rhs add.
Definition pipevec_tensor_add_scalar (lhs : nat) (rhs : Float32.t) :=
  pipevec_tensor_do_scalar_op lhs rhs add.
Definition pipevec_tensor_sub_tensor (lhs rhs : nat) :=
  pipevec_tensor_do_elementwise_op lhs rhs sub.
Definition pipevec_tensor_sub_scalar (lhs : nat) (rhs : Float32.t) :=
  pipevec_tensor_do_scalar_op lhs rhs sub.
Definition pipevec_tensor_multiply_tensor (lhs rhs : nat) :=
  pipevec_tensor_do_elementwise_op lhs rhs mul.
Definition pipevec_tensor_multiply_scalar (lhs : nat) (rhs : Float32.t) :=
  pipevec_tensor_do_scalar_op lhs rhs mul.
Definition pipevec_tensor_divide_tensor (lhs rhs : nat) :=
  pipevec_tensor_do_elementwise_op lhs rhs divide.
Definition pipevec_tensor_divide_scalar (lhs : nat) (rhs : Float32.t) :=
  pipevec_tensor_do_scalar_op lhs rhs divide.

(** ** Batched inner product *)

(** [g_array_index (dst, float, kd) = g_array_index (src, float, ks)]: a
    [float] load and store moves the 32 bits of the half-word. *)
Definition float_index_copy (dst_p : nat) (kd : Z) (src_p : nat) (ks : Z)
  : M unit :=
  src <- garray_read src_p ;;
  bits <- need (half_get src ks) OutOfBounds ;;
  dst <- garray_read dst_p ;;
  dst' <- need (half_set dst kd bits) OutOfBounds ;;
  garray_write dst_p dst'.

(** [(size_t) g_array_index (a, float, k)] for the array at [p]. *)
Definition float_index_size (p : nat) (k : Z) : M Z :=
  a <- garray_read p ;;
  f <- need (float_index a k) OutOfBounds ;;
  need (Float32.to_size_t f) ConversionOutOfRange.

Definition garray_len (p : nat) : M Z :=
  a <- garray_read p ;; ret (zlen a).

(** [pipevec_tensor_inner_product_tensor]. *)
Definition pipevec_tensor_inner_product_tensor (lhs rhs : nat)
  : M (gresult nat) :=
  lhs_priv <- get_priv lhs ;;
  rhs_priv <- get_priv rhs ;;
  shape_lhs <- garray_read (shape lhs_priv) ;;
  shape_rhs <- garray_read (shape rhs_priv) ;;
  if negb (shape_subset_equal shape_lhs shape_rhs 2) then
    lhs_formatted_shape <- need (format_size_t_array shape_lhs (zlen shape_lhs))
                                OutOfBounds ;;
    rhs_formatted_shape <- need (format_size_t_array shape_rhs (zlen shape_rhs))
                                OutOfBounds ;;
    bad_shape (lhs_formatted_shape ++ " and " ++ rhs_formatted_shape
               ++ " must have the same leading shape")%string
  else
  l_last <- need (zth shape_lhs (guint_sub (zlen shape_lhs) 1)) OutOfBounds ;;
  r_prev <- need (zth shape_rhs (guint_sub (zlen shape_rhs) 2)) OutOfBounds ;;
  if negb (l_last =? r_prev) then
    lhs_formatted_shape <- need (format_size_t_array shape_lhs (zlen shape_lhs))
                                OutOfBounds ;;
    rhs_formatted_shape <- need (format_size_t_array shape_rhs (zlen shape_rhs))
                                OutOfBounds ;;
    bad_shape ("Arrays of shape " ++ lhs_formatted_shape ++ " and "
               ++ rhs_formatted_shape
               ++ " are not compatible for inner product, "
               ++ fmt_zu l_last ++ " != " ++ fmt_zu r_prev)%string
  else
  new_shape <- g_array_copy (shape lhs_priv) ;;
  float_index_copy new_shape (guint_sub (zlen shape_lhs) 2)
                   (shape lhs_priv) (guint_sub (zlen shape_lhs) 2) ;;;
  float_index_copy new_shape (guint_sub (zlen shape_lhs) 1)
                   (shape rhs_priv) (guint_sub (zlen shape_rhs) 1) ;;;
  new_tensor <- g_object_new ;;
  r <- pipevec_tensor_alloc_shape new_tensor new_shape ;;
  match r with
  | Failure _ => g_object_unref new_tensor ;;; ret (Failure None)
  | Success _ =>
      new_tensor_priv <- get_priv new_tensor ;;
      nshape <- garray_read (shape new_tensor_priv) ;;
      npadded <- garray_read (padded_shape new_tensor_priv) ;;
      leading_batch_component_shape <-
        array_size_t_product nshape (guint_sub (zlen nshape) 2) ;;
      padded_product <- array_size_t_product npadded (zlen npadded) ;;
      if leading_batch_component_shape =? 0 then crash DivisionByZero else
      let trailing_batch_component_padded :=
        padded_product / leading_batch_component_shape in
      rows <- float_index_size (shape new_tensor_priv)
                               (guint_sub (zlen nshape) 2) ;;
      columns <- float_index_size (shape new_tensor_priv)
                                  (guint_sub (zlen nshape) 1) ;;
      dot_product_vector_length <-
        float_index_size (shape lhs_priv) (guint_sub (zlen shape_lhs) 1) ;;
      row_length <- float_index_size (padded_shape new_tensor_priv)
                                     (guint_sub (zlen npadded) 1) ;;
      lhs_plen <- garray_len (padded_shape lhs_priv) ;;
      lhs_row_length <- float_index_size (padded_shape lhs_priv)
                                         (guint_sub lhs_plen 1) ;;
      rhs_plen <- garray_len (padded_shape rhs_priv) ;;
      rhs_row_length <- float_index_size (padded_shape rhs_priv)
                                         (guint_sub rhs_plen 1) ;;
      for_range 0 leading_batch_component_shape (fun batch_index =>
        let batch_offset :=
          size_mul batch_index trailing_batch_component_padded in
        for_range 0 rows (fun i =>
          for_range 0 columns (fun j =>
            let dst_offset :=
              size_add (size_add batch_offset (size_mul i row_length)) j in
            array_store new_tensor dst_offset Float32.zero ;;;
            for_range 0 dot_product_vector_length (fun k =>
              acc <- array_load new_tensor dst_offset ;;
              a <- array_load lhs
                     (size_add (size_add batch_offset
                                         (size_mul i lhs_row_length)) k) ;;
              b <- array_load rhs
                     (size_add (size_add batch_offset
                                         (size_mul k rhs_row_length)) j) ;;
              array_store new_tensor dst_offset
                          (Float32.add acc (Float32.mul a b)))))) ;;;
      ret (Success new_tensor)
  end.

(** ** Construction *)

(** [pipevec_tensor_new].  [tensor] is a [g_autoptr] local and is returned
    without [g_steal_pointer]: the scope exit releases the object whose
    address is returned. *)
Definition pipevec_tensor_new (shape_p : nat) (contents : list Float32.t)
  : M (gresult nat) :=
  tensor <- g_object_new ;;
  r <- pipevec_tensor_set_data tensor contents shape_p ;;
  match r with
  | Failure e => g_object_unref tensor ;;; ret (Failure e)
  | Success _ => g_object_unref tensor ;;; ret (Success tensor)
  end.

(** ** Observations and concrete stores *)

Definition value {A} (o : outcome A) : option A :=
  match o with Done a _ => Some a | Crash _ => None end.

Definition shape_of (t : nat) : M (list Z) :=
  priv <- get_priv t ;; garray_read (shape priv).
Definition padded_shape_of (t : nat) : M (list Z) :=
  priv <- get_priv t ;; garray_read (padded_shape priv).
Definition buffer_of (t : nat) : M (option (list Float32.t)) :=
  priv <- get_priv t ;; ret (array priv).

Definition f32s (l : list Z) : list Float32.t := map Float32.of_Z l.

(** A store holding only the shape arrays the caller built. *)
Definition caller_heap (arrs : list (list Z)) : heap :=
  {| garrays := arrs; tensors := []; mem_limit := 2 ^ 40 |}.

(** A row of logical values followed by zero padding up to eight cells. *)
Definition pad8 (row : list Z) : list Float32.t :=
  f32s (row ++ repeat 0 (8 - List.length row)).

(** A store in which two tensors already sit laid out as the data model
    describes them: shape (2,3) over rows of eight cells, and shape (3,2)
    over rows of eight cells. *)
Definition laid_out_heap (lrows rrows : list (list Z)) : heap :=
  {| garrays := [[2; 3]; [2; 8]; [3; 2]; [3; 8]];
     tensors :=
       [Some {| array := Some (List.concat (map pad8 lrows));
                shape := 0%nat; padded_shape := 1%nat |};
        Some {| array := Some (List.concat (map pad8 rrows));
                shape := 2%nat; padded_shape := 3%nat |}];
     mem_limit := 2 ^ 40 |}.

(** The same, both tensors of shape (2,3). *)
Definition laid_out_pair (arows brows : list (list Z)) : heap :=
  {| garrays := [[2; 3]; [2; 8]; [2; 3]; [2; 8]];
     tensors :=
       [Some {| array := Some (List.concat (map pad8 arows));
                shape := 0%nat; padded_shape := 1%nat |};
        Some {| array := Some (List.concat (map pad8 brows));
                shape := 2%nat; padded_shape := 3%nat |}];
     mem_limit := 2 ^ 40 |}.

(** [get_data (new (shape, contents))] as a caller writes it. *)
Definition new_then_get_data (shape_p : nat) (contents : list Float32.t)
  : M (gresult (list (option Float32.t))) :=
  r <- pipevec_tensor_new shape_p contents ;;
  match r with
  | Failure e => ret (Failure e)
  | Success t => v <- pipevec_tensor_get_data t ;; ret (Success v)
  end.

(** Run a producing operation and read the data of its result. *)
Definition data_of_result (m : M (gresult nat))
  : M (gresult (list (option Float32.t))) :=
  r <- m ;;
  match r with
  | Failure e => ret (Failure e)
  | Success t => v <- pipevec_tensor_get_data t ;; ret (Success v)
  end.

(** Populate a fresh tensor object with [set_data]. *)
Definition populate (shape_p : nat) (contents : list Float32.t)
  : M (nat * gresult unit) :=
  t <- g_object_new ;;
  r <- pipevec_tensor_set_data t contents shape_p ;;
  ret (t, r).

(** [c = copy (t); set_data (c, replacement, shape); get_data (t)] as a
    caller writes it. *)
Definition get_data_after_copy_set_data
           (t : nat) (replacement : list Float32.t) (shape_p : nat)
  : M (gresult (list (option Float32.t))) :=
  rc <- pipevec_tensor_copy t ;;
  match rc with
  | Failure e => ret (Failure e)
  | Success c =>
      r <- pipevec_tensor_set_data c replacement shape_p ;;
      v <- pipevec_tensor_get_data t ;;
      ret (Success v)
  end.

(** The same on a tensor made by [pipevec_tensor_new]. *)
Definition new_copy_set_data_get_data
           (shape_p : nat) (contents replacement : list Float32.t)
  : M (gresult (list (option Float32.t))) :=
  r <- pipevec_tensor_new shape_p contents ;;
  match r with
  | Failure e => ret (Failure e)
  | Success t => get_data_after_copy_set_data t replacement shape_p
  end.

(** The callback of the map example: [v + loc[0] * 10 + loc[1]]. *)
Definition coordinate_sum : PipevecTensorMapFunction :=
  fun v loc =>
    Float32.add v (Float32.of_Z (nth 0 loc 0 * 10 + nth 1 loc 0)).

(** ** Notions used by the statements *)

(** What a tensor object holds: its private record (the buffer and the
    two array pointers) and the words of its shape and padded-shape
    arrays. *)
Definition stored_state (t : nat) : M (PipevecTensorPrivate * list Z * list Z) :=
  priv <- get_priv t ;;
  s <- garray_read (shape priv) ;;
  ps <- garray_read (padded_shape priv) ;;
  ret (priv, s, ps).

Definition stored (t : nat) (h : heap)
  : option (PipevecTensorPrivate * list Z * list Z) :=
  value (stored_state t h).

(** [h'] still holds the first [T] tensor objects and the first [G] arrays
    of [h], untouched. *)
Record frame (T G : nat) (h h' : heap) : Prop := {
  frame_tensors : forall t, (t < T)%nat ->
                            nth_error (tensors h') t = nth_error (tensors h) t;
  frame_garrays : forall p, (p < G)%nat ->
                            nth_error (garrays h') p = nth_error (garrays h) p;
  frame_tlen : (List.length (tensors h) <= List.length (tensors h'))%nat;
  frame_glen : (List.length (garrays h) <= List.length (garrays h'))%nat
}.

(** A computation that, started with at least [T] tensors and [G] arrays,
    leaves those alone and returns a value satisfying [R]. *)
Definition keeps (T G : nat) {A} (m : M A) (R : A -> Prop) : Prop :=
  forall h a h',
    (T <= List.length (tensors h))%nat ->
    (G <= List.length (garrays h))%nat ->
    m h = Done a h' -> frame T G h h' /\ R a.

(** Two stores that show tensor [t] and every array of the first one
    alike. *)
Definition same_view (t : nat) (h h' : heap) : Prop :=
  nth_error (tensors h') t = nth_error (tensors h) t
  /\ forall p a, nth_error (garrays h) p = Some a ->
                 nth_error (garrays h') p = Some a.

(** A computation that only reads tensor [t] and arrays. *)
Definition reads_only (t : nat) {A} (m : M A) : Prop :=
  forall h h' a h1,
    same_view t h h' -> m h = Done a h1 -> h1 = h /\ m h' = Done a h'.

(** A computation that never hands back a [GError]. *)
Definition stores_no_error {A} (m : M (gresult A)) : Prop :=
  forall h e h', m h <> Done (Failure (Some e)) h'.

Definition crashes {A} (o : outcome A) : Prop := exists f, o = Crash f.

(** A tensor object as [pipevec_tensor_init] leaves it. *)
Definition never_populated (h : heap) (t : nat) : Prop :=
  exists priv,
    nth_error (tensors h) t = Some (Some priv)
    /\ array priv = None
    /\ nth_error (garrays h) (shape priv) = Some []
    /\ nth_error (garrays h) (padded_shape priv) = Some [].

(** The text [format_size_t_array] yields for a whole array. *)
Definition formatted (l : list Z) : string :=
  match format_size_t_array l (zlen l) with
  | Some s => s
  | None => EmptyString
  end.

(** The batch axes of a shape: all axes before the trailing two. *)
Definition batch_axes (l : list Z) : list Z := firstn (List.length l - 2) l.

(** A store made by one [g_object_new] and nothing else. *)
Definition fresh_heap : heap :=
  match g_object_new (caller_heap []) with
  | Done _ h => h
  | Crash _ => caller_heap []
  end.

(** A producing operation's result names a tensor made after the first
    [T] ones. *)
Definition made_after (T : nat) (r : gresult nat) : Prop :=
  match r with Success c => (T <= c)%nat | Failure _ => True end.

(** The store after running [m] from [h] ([h] itself if the run crashes). *)
Definition store_after {A} (m : M A) (h : heap) : heap :=
  match m h with Done _ h' => h' | Crash _ => h end.

(** Two tensors populated through [set_data] with no contents: shapes
    (0,2,3) and (5,0,3). *)
Definition empty_batches_heap : heap :=
  store_after (populate 0 [] ;;; populate 1 [])
              (caller_heap [[0; 2; 3]; [5; 0; 3]]).

(** One tensor populated with no contents and shape (0,3); the caller also
    holds the shape array (0,2). *)
Definition empty_rows_heap : heap :=
  store_after (populate 0 []) (caller_heap [[0; 3]; [0; 2]]).

(** One tensor populated through [set_data] with the two values 7 and 9
    and the shape (3, 6148914691236517206), whose product is 2^64 + 2 and
    so wraps to 2. *)
Definition wrapped_rows_heap : heap :=
  store_after (populate 0 (f32s [7; 9]))
              (caller_heap [[3; 6148914691236517206]]).

(** Two tensors populated through [set_data]: the first as in
    [wrapped_rows_heap], the second with no contents and shape (0,3). *)
Definition wrapped_pair_heap : heap :=
  store_after (populate 0 (f32s [7; 9]) ;;; populate 1 [])
              (caller_heap [[3; 6148914691236517206]; [0; 3]]).

(** Two tensors populated through [set_data], of shapes (0, 2^32+1) and
    (2^32+1, 2^64-2^32+1) (one value; the product wraps to 1), and their
    inner product, a third tensor of shape (2^32, 2^32+1); the caller also
    holds the shape array (0,3). *)
Definition wide_result_heap : heap :=
  store_after (populate 0 [] ;;; populate 1 (f32s [7]) ;;;
               pipevec_tensor_inner_product_tensor 0 1)
              (caller_heap [[0; 4294967297];
                            [4294967297; 18446744069414584321];
                            [0; 3]]).

Create HintDb keeps.

(** A store in which a rank-1 tensor of shape (3) and a rank-3 tensor of
    shape (2,3,2) sit laid out as the data model describes them. *)
Definition rank1_heap : heap :=
  {| garrays := [[3]; [8]; [2; 3; 2]; [2; 3; 8]];
     tensors :=
       [Some {| array := Some (pad8 [1; 2; 3]);
                shape := 0%nat; padded_shape := 1%nat |};
        Some {| array := Some (repeat Float32.zero 48);
                shape := 2%nat; padded_shape := 3%nat |}];
     mem_limit := 2 ^ 40 |}.

(** The row-major stride of axis [j]: the product of the later axes. *)
Definition stride (shape_data : list Z) (j : nat) : Z :=
  fold_left Z.mul (skipn (S j) shape_data) 1.

(** ** Notions used by the further properties *)

(** No tensor object of the store has a buffer. *)
Definition all_null (h : heap) : Prop :=
  forall t p, nth_error (tensors h) t = Some (Some p) -> array p = None.

(** [h'] shows every tensor object other than [t], and the first [G]
    arrays, as [h] does. *)
Record frame_but (t G : nat) (h h' : heap) : Prop := {
  fb_tensors : forall t', t' <> t ->
                          nth_error (tensors h') t' = nth_error (tensors h) t';
  fb_garrays : forall p, (p < G)%nat ->
                         nth_error (garrays h') p = nth_error (garrays h) p;
  fb_glen : (List.length (garrays h) <= List.length (garrays h'))%nat
}.

(** A computation that, started in a store satisfying [Pre], ends (when
    it ends) in a store related to the first by [Rel], with a value
    satisfying [R]. *)
Definition triple (Pre : heap -> Prop) (Rel : heap -> heap -> Prop)
           {A} (m : M A) (R : A -> Prop) : Prop :=
  forall h a h', Pre h -> m h = Done a h' -> Rel h h' /\ R a.

(** The relation "if no tensor had a buffer before, none has one after". *)
Definition null_kept (h h' : heap) : Prop := all_null h -> all_null h'.

(** The plain product of a list of dimensions. *)
Definition plain_product (l : list Z) : Z := fold_left Z.mul l 1.

(** The store holds at least [G] arrays. *)
Definition enough_arrays (G : nat) (h : heap) : Prop :=
  (G <= List.length (garrays h))%nat.

(** Tensor [t] is there and has no buffer. *)
Definition buffer_is_null (t : nat) (h : heap) : Prop :=
  exists priv, nth_error (tensors h) t = Some (Some priv) /\ array priv = None.

(** A store with one fresh tensor, the shape array (2,3), and room for
    100 bytes only. *)
Definition small_memory_heap : heap :=
  {| garrays := [[2; 3]; []; []];
     tensors := [Some {| array := None; shape := 1%nat; padded_shape := 2%nat |}];
     mem_limit := 100 |}.

Create HintDb triples.

(** * Properties *)

(** ** The padding function on its own *)

(** X1.  [apply_padding] with a vector size of 8 rounds up to the next multiple
    of 8: the result is a multiple of 8, at least the argument and less
    than 8 above it, as long as the sum does not wrap. *)
Lemma apply_padding_multiple (n : Z) :
  0 <= n -> n + 7 < SIZE_MOD ->
  apply_padding n 8 mod 8 = 0 /\ n <= apply_padding n 8 < n + 8.
Proof.
  intros Hn Hb.
  unfold apply_padding, size_add, size_sub, size_wrap in *.
  assert (HS : SIZE_MOD = 18446744073709551616) by reflexivity.
  rewrite HS in *.
  assert (H8 : 0 <= n mod 8 < 8) by (apply Z.mod_pos_bound; lia).
  rewrite (Z.mod_small (8 - n mod 8) 18446744073709551616) by lia.
  assert (Hk : 0 <= (8 - n mod 8) mod 8 < 8) by (apply Z.mod_pos_bound; lia).
  rewrite (Z.mod_small _ 18446744073709551616) by lia.
  pose proof (Z.div_mod n 8 ltac:(lia)) as Hd.
  destruct (Z.eq_dec (n mod 8) 0) as [E | E].
  - rewrite E in *. change ((8 - 0) mod 8) with 0.
    rewrite Z.add_0_r. split; [exact E | lia].
  - rewrite (Z.mod_small (8 - n mod 8) 8) by lia.
    split; [| lia].
    replace (n + (8 - n mod 8)) with ((n / 8 + 1) * 8) by lia.
    apply Z.mod_mul. lia.
Qed.

(** ** Runs on concrete inputs *)

(** C1.  Round trip: [get_data (new (shape, contents))] for shape (2,3)
    and contents 1..6 does not return the contents: [alloc_shape] leaves
    [priv->array] at [NULL] and the first store of [set_data] goes through
    it. *)
Theorem C1_round_trip_run :
  new_then_get_data 0 (f32s [1; 2; 3; 4; 5; 6]) (caller_heap [[2; 3]])
  = Crash NullDereference.
Proof. vm_compute. reflexivity. Qed.

(** C2.  The subtraction element function returns the sum of its
    arguments: [sub (5, 3)] is 8, not 2, and [sub] agrees with [add]
    everywhere. *)
Theorem C2_sub_is_add :
  sub (Float32.of_Z 5) (Float32.of_Z 3) = Float32.of_Z 8
  /\ sub (Float32.of_Z 5) (Float32.of_Z 3) <> Float32.of_Z 2
  /\ forall a b, sub a b = add a b.
Proof.
  split; [vm_compute; reflexivity |].
  split; [vm_compute; discriminate |].
  intros a b. reflexivity.
Qed.

(** C3.  The padded shape kept by [alloc_shape] is not the shape with its
    last dimension rounded up to a multiple of 8.  For shape (2,3) it is
    (2,3); for shape (2,3,4) it is (2,0,4); after the successful
    [set_data] of no contents with shape (0,3) it is (0,3). *)
Theorem C3_padded_shape_run :
  value ((t <- g_object_new ;;
          r <- pipevec_tensor_alloc_shape t 0 ;;
          ps <- padded_shape_of t ;; ret (r, ps)) (caller_heap [[2; 3]]))
  = Some (Success tt, [2; 3])
  /\ value ((t <- g_object_new ;;
             r <- pipevec_tensor_alloc_shape t 0 ;;
             ps <- padded_shape_of t ;; ret (r, ps)) (caller_heap [[2; 3; 4]]))
     = Some (Success tt, [2; 0; 4])
  /\ value ((tr <- populate 0 [] ;;
             ps <- padded_shape_of (fst tr) ;; ret (snd tr, ps))
              (caller_heap [[0; 3]]))
     = Some (Success tt, [0; 3]).
Proof. repeat split; vm_compute; reflexivity. Qed.

(** C4.  Inner product of (2,3) = [[1,2,3],[4,5,6]] with (3,2) =
    [[7,8],[9,10],[11,12]]: the operands cannot be built ([new] ends in a
    [NULL] store); and on operands already laid out in the store the call
    returns a tensor of shape (2,3) whose buffer is [NULL], with no
    product computed. *)
Theorem C4_inner_product_run :
  (l <- pipevec_tensor_new 0 (f32s [1; 2; 3; 4; 5; 6]) ;;
   r <- pipevec_tensor_new 1 (f32s [7; 8; 9; 10; 11; 12]) ;;
   match l, r with
   | Success a, Success b => pipevec_tensor_inner_product_tensor a b
   | _, _ => ret (Failure None)
   end) (caller_heap [[2; 3]; [3; 2]])
  = Crash NullDereference
  /\ value ((r <- pipevec_tensor_inner_product_tensor 0 1 ;;
             match r with
             | Success t =>
                 s <- shape_of t ;; b <- buffer_of t ;; ret (Some (s, b))
             | Failure _ => ret None
             end)
              (laid_out_heap [[1; 2; 3]; [4; 5; 6]]
                             [[7; 8]; [9; 10]; [11; 12]]))
     = Some (Some ([2; 3], None)).
Proof. split; vm_compute; reflexivity. Qed.

(** [set_location] on shape (2,3): the six linear positions unrank to the
    six coordinates in row-major order. *)
Lemma set_location_2_3 (h : heap) :
  map (fun i => value (set_location [0; 0] [2; 3] i h)) [0; 1; 2; 3; 4; 5]
  = map Some [[0; 0]; [0; 1]; [0; 2]; [1; 0]; [1; 1]; [1; 2]].
Proof. reflexivity. Qed.

(** C5.  Map of a zero tensor of shape (2,3) with
    [func (v, loc) = v + loc[0] * 10 + loc[1]]: the zero tensor cannot be
    built, and on a source already laid out in the store the copy that
    [map] starts from goes through the [NULL] buffer of the new tensor;
    no element reaches [func]. *)
Theorem C5_map_run :
  (r <- pipevec_tensor_new 0 (f32s [0; 0; 0; 0; 0; 0]) ;;
   match r with
   | Success t => data_of_result (pipevec_tensor_map t coordinate_sum)
   | Failure e => ret (Failure e)
   end) (caller_heap [[2; 3]])
  = Crash NullDereference
  /\ data_of_result (pipevec_tensor_map 0 coordinate_sum)
       (laid_out_pair [[0; 0; 0]; [0; 0; 0]] [[0; 0; 0]; [0; 0; 0]])
     = Crash NullDereference.
Proof. split; vm_compute; reflexivity. Qed.

(** C6.  Elementwise addition, product and quotient of two tensors of
    shape (2,3): the operands cannot be built, and on operands already
    laid out in the store each operation ends in the [NULL] buffer of the
    copy it writes to. *)
Theorem C6_elementwise_run :
  (a <- pipevec_tensor_new 0 (f32s [1; 2; 3; 4; 5; 6]) ;;
   b <- pipevec_tensor_new 0 (f32s [6; 5; 4; 3; 2; 1]) ;;
   match a, b with
   | Success x, Success y => data_of_result (pipevec_tensor_add_tensor x y)
   | _, _ => ret (Failure None)
   end) (caller_heap [[2; 3]])
  = Crash NullDereference
  /\ data_of_result (pipevec_tensor_add_tensor 0 1)
       (laid_out_pair [[1; 2; 3]; [4; 5; 6]] [[6; 5; 4]; [3; 2; 1]])
     = Crash NullDereference
  /\ data_of_result (pipevec_tensor_multiply_tensor 0 1)
       (laid_out_pair [[1; 2; 3]; [4; 5; 6]] [[6; 5; 4]; [3; 2; 1]])
     = Crash NullDereference
  /\ data_of_result (pipevec_tensor_divide_tensor 0 1)
       (laid_out_pair [[1; 2; 3]; [4; 5; 6]] [[6; 5; 4]; [3; 2; 1]])
     = Crash NullDereference.
Proof. repeat split; vm_compute; reflexivity. Qed.

(** C7.  [set_data] with shape (2,3) and five values fails with
    [PIPEVEC_ERROR_BAD_SHAPE] and leaves the store as it was, but its
    message names neither the dimensions 2 and 3 nor the length 5; with
    the rank-1 shape (3) and two values the formatting of the shape
    writes outside its string vector before any error is stored. *)
Theorem C7_bad_shape_message_run :
  (exists t0 h1,
      g_object_new (caller_heap [[2; 3]]) = Done t0 h1
      /\ pipevec_tensor_set_data t0 (f32s [1; 2; 3; 4; 5]) 0 h1
         = Done (Failure (Some {| code := PIPEVEC_ERROR_BAD_SHAPE;
                                  message := "Shape ] has product 6 which does not match array length 2i" |}))
                h1)
  /\ populate 0 (f32s [1; 2]) (caller_heap [[3]]) = Crash OutOfBounds.
Proof.
  split; [| vm_compute; reflexivity].
  do 2 eexists. split; [vm_compute; reflexivity |].
  vm_compute. reflexivity.
Qed.

(** C8.  The error reports of [inner_product].  For operands populated
    with shapes (0,2,3) and (5,0,3) the batch axes differ and the call
    fails with [PIPEVEC_ERROR_BAD_SHAPE], the store untouched, but the
    message shows neither shape; for a rank-1 left operand of shape (3)
    against a right operand of shape (2,3,2) the batch axes differ in
    count and the formatting of the rank-1 shape writes outside its string
    vector before any error is stored. *)
Theorem C8_inner_product_error_run :
  pipevec_tensor_inner_product_tensor 0 1 empty_batches_heap
  = Done (Failure (Some {| code := PIPEVEC_ERROR_BAD_SHAPE;
                           message := "[] and [] must have the same leading shape" |}))
         empty_batches_heap
  /\ value (shape_of 0 empty_batches_heap) = Some [0; 2; 3]
  /\ value (shape_of 1 empty_batches_heap) = Some [5; 0; 3]
  /\ pipevec_tensor_inner_product_tensor 0 1 rank1_heap = Crash OutOfBounds.
Proof. repeat split; vm_compute; reflexivity. Qed.

(** ** Lists and indices *)

Lemma upd_nat_length {A} (l : list A) :
  forall n v l', upd_nat l n v = Some l' -> List.length l' = List.length l.
Proof.
  induction l as [| x tl IH]; intros [| n] v l' H; simpl in H; try discriminate.
  - inversion H; reflexivity.
  - destruct (upd_nat tl n v) eqn:E; [| discriminate].
    inversion H; subst. simpl. f_equal. eapply IH; eassumption.
Qed.

Lemma upd_nat_other {A} (l : list A) :
  forall n v l' k, upd_nat l n v = Some l' -> k <> n ->
                   nth_error l' k = nth_error l k.
Proof.
  induction l as [| x tl IH]; intros [| n] v l' k H Hk; simpl in H;
    try discriminate.
  - inversion H; subst. destruct k; [congruence | reflexivity].
  - destruct (upd_nat tl n v) eqn:E; [| discriminate].
    inversion H; subst. destruct k; [reflexivity |].
    simpl. eapply IH; [eassumption | congruence].
Qed.

Lemma upd_nat_defined {A} (l : list A) :
  forall n v, (n < List.length l)%nat -> exists l', upd_nat l n v = Some l'.
Proof.
  induction l as [| x tl IH]; intros [| n] v Hn; simpl in *; try lia.
  - eexists; reflexivity.
  - destruct (IH n v ltac:(lia)) as [l' ->]. eexists; reflexivity.
Qed.

Lemma zupd_length {A} (l : list A) i v l' :
  zupd l i v = Some l' -> List.length l' = List.length l.
Proof.
  unfold zupd. destruct ((i <? 0) || (zlen l <=? i)); [discriminate |].
  apply upd_nat_length.
Qed.

Lemma zupd_defined {A} (l : list A) i v :
  0 <= i < zlen l -> exists l', zupd l i v = Some l'.
Proof.
  intros Hi. unfold zupd, zlen in *.
  destruct (i <? 0) eqn:E1; [apply Z.ltb_lt in E1; lia |].
  destruct (Z.of_nat (List.length l) <=? i) eqn:E2;
    [apply Z.leb_le in E2; lia |].
  simpl. apply upd_nat_defined. lia.
Qed.

Lemma zth_nil {A} (i : Z) : zth (@nil A) i = None.
Proof.
  unfold zth. destruct ((i <? 0) || (zlen (@nil A) <=? i)); [reflexivity |].
  destruct (Z.to_nat i); reflexivity.
Qed.

Lemma zth_nth (l : list Z) (i : Z) :
  0 <= i < zlen l -> zth l i = Some (nth (Z.to_nat i) l 0).
Proof.
  intros Hi. unfold zth, zlen in *.
  destruct (i <? 0) eqn:E1; [apply Z.ltb_lt in E1; lia |].
  destruct (Z.of_nat (List.length l) <=? i) eqn:E2;
    [apply Z.leb_le in E2; lia |].
  simpl. apply nth_error_nth'. lia.
Qed.

(** ** Running binds *)

Lemma bind_Done {A B} (m : M A) (k : A -> M B) h b h' :
  bind m k h = Done b h' ->
  exists a h1, m h = Done a h1 /\ k a h1 = Done b h'.
Proof.
  unfold bind. destruct (m h) as [a h1 |]; [| discriminate].
  intros H. exists a, h1. split; [reflexivity | exact H].
Qed.

Lemma bind_run {A B} (m : M A) (k : A -> M B) h a h1 :
  m h = Done a h1 -> bind m k h = k a h1.
Proof. unfold bind. intros ->. reflexivity. Qed.

Lemma bind_crash {A B} (m : M A) (k : A -> M B) h f :
  m h = Crash f -> bind m k h = Crash f.
Proof. unfold bind. intros ->. reflexivity. Qed.

Lemma need_Done {A} (o : option A) f h a h' :
  need o f h = Done a h' -> o = Some a /\ h' = h.
Proof.
  destruct o; simpl; unfold ret, crash; intros H; inversion H; auto.
Qed.

Lemma get_priv_Done t h p h' :
  get_priv t h = Done p h' -> nth_error (tensors h) t = Some (Some p) /\ h' = h.
Proof.
  unfold get_priv. destruct (nth_error (tensors h) t) as [[q |] |];
    intros H; inversion H; auto.
Qed.

Lemma get_priv_run t h p :
  nth_error (tensors h) t = Some (Some p) -> get_priv t h = Done p h.
Proof. unfold get_priv. intros ->. reflexivity. Qed.

Lemma garray_read_Done p h a h' :
  garray_read p h = Done a h' -> nth_error (garrays h) p = Some a /\ h' = h.
Proof.
  unfold garray_read. destruct (nth_error (garrays h) p);
    intros H; inversion H; auto.
Qed.

Lemma garray_read_run p h a :
  nth_error (garrays h) p = Some a -> garray_read p h = Done a h.
Proof. unfold garray_read. intros ->. reflexivity. Qed.

(** ** A tensor that was never populated *)

Lemma nth_error_app_Some {A} (l l' : list A) n x :
  nth_error l n = Some x -> nth_error (l ++ l') n = Some x.
Proof.
  intros H. rewrite nth_error_app1; [exact H |].
  apply nth_error_Some. congruence.
Qed.

Lemma g_object_new_run (h : heap) :
  g_object_new h
  = Done (List.length (tensors h))
         {| garrays := (garrays h ++ [[]]) ++ [[]];
            tensors := tensors h
                       ++ [Some {| array := None;
                                   shape := List.length (garrays h);
                                   padded_shape := List.length (garrays h ++ [[]]) |}];
            mem_limit := mem_limit h |}.
Proof. reflexivity. Qed.

Lemma crashes_bind_l {A B} (m : M A) (k : A -> M B) h :
  crashes (m h) -> crashes (bind m k h).
Proof. intros [f Hf]. exists f. apply bind_crash. exact Hf. Qed.

Lemma crashes_Crash {A} (f : fault) : crashes (@Crash A f).
Proof. exists f. reflexivity. Qed.

Lemma format_empty : format_size_t_array [] 0 = None.
Proof. vm_compute. reflexivity. Qed.

Lemma alloc_shape_empty_shape (h : heap) (tensor p : nat) :
  nth_error (garrays h) p = Some [] ->
  pipevec_tensor_alloc_shape tensor p h = Crash OutOfBounds.
Proof.
  intros Hp. unfold pipevec_tensor_alloc_shape.
  rewrite (bind_run _ _ _ _ _ (garray_read_run _ _ _ Hp)).
  reflexivity.
Qed.

(** Copying a tensor whose shape array is empty indexes that array at
    position [len - 1]. *)
Lemma copy_empty_shape (h : heap) (t : nat) (priv : PipevecTensorPrivate) :
  nth_error (tensors h) t = Some (Some priv) ->
  nth_error (garrays h) (shape priv) = Some [] ->
  crashes (pipevec_tensor_copy t h).
Proof.
  intros Ht Hs. unfold pipevec_tensor_copy.
  rewrite (bind_run _ _ _ _ _ (g_object_new_run h)).
  set (h2 := {| garrays := _; tensors := _; mem_limit := _ |}).
  assert (Ht2 : nth_error (tensors h2) t = Some (Some priv))
    by (apply nth_error_app_Some; exact Ht).
  assert (Hs2 : nth_error (garrays h2) (shape priv) = Some [])
    by (unfold h2; simpl; do 2 apply nth_error_app_Some; exact Hs).
  rewrite (bind_run _ _ _ _ _ (get_priv_run _ _ _ Ht2)).
  destruct (garray_read (padded_shape priv) h2) as [pdata h3 |] eqn:Er;
    [| rewrite (bind_crash _ _ _ _ Er); apply crashes_Crash].
  apply garray_read_Done in Er as Er'. destruct Er' as [_ ->].
  rewrite (bind_run _ _ _ _ _ Er).
  unfold array_size_t_product. rewrite Z.leb_refl.
  unfold ret at 1. unfold bind at 1.
  apply crashes_bind_l.
  unfold pipevec_tensor_set_data_aligned_padded.
  apply crashes_bind_l.
  rewrite (alloc_shape_empty_shape _ _ _ Hs2). apply crashes_Crash.
Qed.

Lemma get_data_empty_shape (h : heap) (t : nat) (priv : PipevecTensorPrivate) :
  nth_error (tensors h) t = Some (Some priv) ->
  nth_error (garrays h) (shape priv) = Some [] ->
  pipevec_tensor_get_data t h = Crash OutOfBounds.
Proof.
  intros Ht Hs. unfold pipevec_tensor_get_data.
  rewrite (bind_run _ _ _ _ _ (get_priv_run _ _ _ Ht)).
  rewrite (bind_run _ _ _ _ _ (garray_read_run _ _ _ Hs)).
  reflexivity.
Qed.

Lemma shape_subset_equal_nil_l (rs : list Z) (k : Z) :
  0 < k -> shape_subset_equal [] rs k = false.
Proof.
  intros Hk. unfold shape_subset_equal.
  destruct (zlen (@nil Z) =? zlen rs); simpl; [| reflexivity].
  change (zlen (@nil Z)) with 0.
  destruct (0 <? k) eqn:E; [reflexivity | apply Z.ltb_ge in E; lia].
Qed.

Lemma shape_subset_equal_nil_r (ls : list Z) (k : Z) :
  0 < k -> shape_subset_equal ls [] k = false.
Proof.
  intros Hk. unfold shape_subset_equal.
  destruct (zlen ls =? zlen (@nil Z)) eqn:E0; simpl; [| reflexivity].
  apply Z.eqb_eq in E0. rewrite E0.
  destruct (zlen (@nil Z) <? k) eqn:E; [reflexivity |].
  apply Z.ltb_ge in E. unfold zlen in E. simpl in E. lia.
Qed.

Lemma need_format_empty {B} (k : string -> M B) h :
  bind (need (format_size_t_array [] (zlen (@nil Z))) OutOfBounds) k h
  = Crash OutOfBounds.
Proof. reflexivity. Qed.

Lemma shapes_equal_length (ls rs : list Z) :
  List.length ls <> List.length rs -> shapes_equal ls rs = false.
Proof.
  intros Hl. unfold shapes_equal, shape_subset_equal.
  replace (zlen ls =? zlen rs) with false; [reflexivity |].
  symmetry. apply Z.eqb_neq. unfold zlen. lia.
Qed.

(** The shape check of the elementwise operations, with an empty shape on
    either side: equal shapes let the run go on, unequal ones reach the
    formatter, which writes outside its vector for an empty shape. *)
Lemma check_shapes_empty_l (rs : list Z) h :
  rs <> [] -> crashes (check_shapes_elementwise [] rs h).
Proof.
  intros Hrs. unfold check_shapes_elementwise.
  rewrite shapes_equal_length by (destruct rs; simpl; congruence).
  cbn [negb]. rewrite need_format_empty. apply crashes_Crash.
Qed.

Lemma check_shapes_empty_r (ls : list Z) h :
  ls <> [] -> crashes (check_shapes_elementwise ls [] h).
Proof.
  intros Hls. unfold check_shapes_elementwise.
  rewrite shapes_equal_length by (destruct ls; simpl; congruence).
  cbn [negb].
  destruct (format_size_t_array ls (zlen ls)) as [s |];
    [| apply crashes_Crash].
  cbn [need]. unfold ret at 1, bind at 1.
  rewrite need_format_empty. apply crashes_Crash.
Qed.

Lemma crashes_bind_r {A B} (m : M A) (k : A -> M B) h a h1 :
  m h = Done a h1 -> crashes (k a h1) -> crashes (bind m k h).
Proof. intros Hm Hk. rewrite (bind_run _ _ _ _ _ Hm). exact Hk. Qed.

Lemma check_shapes_nil h :
  check_shapes_elementwise [] [] h = Done (Success tt) h.
Proof. reflexivity. Qed.

Ltac step_or_crash E :=
  match goal with
  | |- crashes (bind ?m _ ?h) =>
      destruct (m h) eqn:E;
      [ eapply crashes_bind_r; [exact E |]
      | apply crashes_bind_l; rewrite E; apply crashes_Crash ]
  end.

Lemma elementwise_empty_shape_l (h : heap) (t other : nat) priv func :
  nth_error (tensors h) t = Some (Some priv) ->
  nth_error (garrays h) (shape priv) = Some [] ->
  crashes (pipevec_tensor_do_elementwise_op t other func h).
Proof.
  intros Ht Hs. unfold pipevec_tensor_do_elementwise_op.
  eapply crashes_bind_r; [apply get_priv_run; exact Ht |].
  step_or_crash E1. apply get_priv_Done in E1 as [_ ->].
  eapply crashes_bind_r; [apply garray_read_run; exact Hs |].
  step_or_crash E2. apply garray_read_Done in E2 as [_ ->].
  destruct a0 as [| r rs'].
  - eapply crashes_bind_r; [apply check_shapes_nil |].
    apply crashes_bind_l. eapply copy_empty_shape; eassumption.
  - apply crashes_bind_l. apply check_shapes_empty_l. discriminate.
Qed.

Lemma elementwise_empty_shape_r (h : heap) (t other : nat) priv func :
  nth_error (tensors h) t = Some (Some priv) ->
  nth_error (garrays h) (shape priv) = Some [] ->
  crashes (pipevec_tensor_do_elementwise_op other t func h).
Proof.
  intros Ht Hs. unfold pipevec_tensor_do_elementwise_op.
  step_or_crash E1. apply get_priv_Done in E1 as [Ho ->].
  eapply crashes_bind_r; [apply get_priv_run; exact Ht |].
  step_or_crash E2. apply garray_read_Done in E2 as [Hos ->].
  eapply crashes_bind_r; [apply garray_read_run; exact Hs |].
  destruct a0 as [| l ls'].
  - eapply crashes_bind_r; [apply check_shapes_nil |].
    apply crashes_bind_l. eapply copy_empty_shape; eassumption.
  - apply crashes_bind_l. apply check_shapes_empty_r. discriminate.
Qed.

Lemma inner_product_empty_shape_l (h : heap) (t other : nat) priv :
  nth_error (tensors h) t = Some (Some priv) ->
  nth_error (garrays h) (shape priv) = Some [] ->
  crashes (pipevec_tensor_inner_product_tensor t other h).
Proof.
  intros Ht Hs. unfold pipevec_tensor_inner_product_tensor.
  eapply crashes_bind_r; [apply get_priv_run; exact Ht |].
  step_or_crash E1. apply get_priv_Done in E1 as [_ ->].
  eapply crashes_bind_r; [apply garray_read_run; exact Hs |].
  step_or_crash E2. apply garray_read_Done in E2 as [_ ->].
  rewrite shape_subset_equal_nil_l by lia. cbn [negb].
  rewrite need_format_empty. apply crashes_Crash.
Qed.

Lemma inner_product_empty_shape_r (h : heap) (t other : nat) priv :
  nth_error (tensors h) t = Some (Some priv) ->
  nth_error (garrays h) (shape priv) = Some [] ->
  crashes (pipevec_tensor_inner_product_tensor other t h).
Proof.
  intros Ht Hs. unfold pipevec_tensor_inner_product_tensor.
  step_or_crash E1. apply get_priv_Done in E1 as [_ ->].
  eapply crashes_bind_r; [apply get_priv_run; exact Ht |].
  step_or_crash E2. apply garray_read_Done in E2 as [_ ->].
  eapply crashes_bind_r; [apply garray_read_run; exact Hs |].
  rewrite shape_subset_equal_nil_r by lia. cbn [negb].
  destruct (format_size_t_array a0 (zlen a0)) as [s |];
    [| apply crashes_Crash].
  cbn [need]. unfold ret at 1, bind at 1.
  rewrite need_format_empty. apply crashes_Crash.
Qed.

Lemma g_object_new_never_populated (h : heap) :
  exists t h', g_object_new h = Done t h' /\ never_populated h' t.
Proof.
  eexists. eexists. split; [apply g_object_new_run |].
  eexists. simpl. split; [| split; [| split]].
  - rewrite nth_error_app2 by lia. rewrite Nat.sub_diag. reflexivity.
  - reflexivity.
  - simpl. rewrite nth_error_app1 by (rewrite length_app; simpl; lia).
    rewrite nth_error_app2 by lia. rewrite Nat.sub_diag. reflexivity.
  - simpl. rewrite nth_error_app2 by lia. rewrite Nat.sub_diag. reflexivity.
Qed.

(** C10.  A tensor object as construction leaves it has an empty shape and
    a [NULL] buffer, and every read or derive operation given such a
    tensor (in either operand position) ends in a crash: [get_data]
    indexes the empty shape at position [len - 1], the others reach the
    same index or format the empty shape.  So these operations need a
    tensor whose shape has rank at least 1. *)
Theorem C10_unpopulated_tensor_crashes (h : heap) (t : nat) :
  never_populated h t ->
  (exists priv, get_priv t h = Done priv h /\ array priv = None
                /\ shape_of t h = Done [] h)
  /\ pipevec_tensor_get_data t h = Crash OutOfBounds
  /\ crashes (pipevec_tensor_copy t h)
  /\ (forall func, crashes (pipevec_tensor_map t func h))
  /\ (forall other func,
         crashes (pipevec_tensor_do_elementwise_op t other func h)
         /\ crashes (pipevec_tensor_do_elementwise_op other t func h))
  /\ (forall s func, crashes (pipevec_tensor_do_scalar_op t s func h))
  /\ (forall other,
         crashes (pipevec_tensor_inner_product_tensor t other h)
         /\ crashes (pipevec_tensor_inner_product_tensor other t h))
  /\ (forall unspecified shape_p,
         crashes (pipevec_tensor_reshape unspecified t shape_p h)).
Proof.
  intros (priv & Ht & Ha & Hs & Hp).
  pose proof (copy_empty_shape h t priv Ht Hs) as Hcopy.
  repeat split.
  - exists priv. repeat split; [apply get_priv_run; exact Ht | exact Ha |].
    unfold shape_of. rewrite (bind_run _ _ _ _ _ (get_priv_run _ _ _ Ht)).
    apply garray_read_run. exact Hs.
  - eapply get_data_empty_shape; eassumption.
  - exact Hcopy.
  - intros func. unfold pipevec_tensor_map. apply crashes_bind_l. exact Hcopy.
  - eapply elementwise_empty_shape_l; eassumption.
  - eapply elementwise_empty_shape_r; eassumption.
  - intros s func. unfold pipevec_tensor_do_scalar_op.
    eapply crashes_bind_r; [apply get_priv_run; exact Ht |].
    apply crashes_bind_l. exact Hcopy.
  - eapply inner_product_empty_shape_l; eassumption.
  - eapply inner_product_empty_shape_r; eassumption.
  - intros unspecified shape_p. unfold pipevec_tensor_reshape.
    apply crashes_bind_l.
    rewrite (get_data_empty_shape h t priv Ht Hs). apply crashes_Crash.
Qed.

(** ** The shape formatter on shapes of rank at least 2 *)

Lemma zlen_repeat {A} (x : A) (n : nat) : zlen (repeat x n) = Z.of_nat n.
Proof. unfold zlen. rewrite repeat_length. reflexivity. Qed.

Lemma size_wrap_small (x : Z) : 0 <= x < SIZE_MOD -> size_wrap x = x.
Proof. intros H. unfold size_wrap. apply Z.mod_small. exact H. Qed.

Lemma UINT_lt_SIZE : UINT_MOD + 8 < SIZE_MOD.
Proof. reflexivity. Qed.

Lemma format_fill_defined (len : Z) (xs : list Z) :
  forall v : list (option string),
    (forall i, In i xs -> 0 <= i /\ i + 1 < zlen v) ->
    zlen v < SIZE_MOD ->
    exists v',
      fold_left
        (fun (strv : option (list (option string))) (i : Z) =>
           match strv with
           | Some v0 =>
               zupd v0 (size_add i 1)
                    (Some (if i =? size_sub len 1
                           then fmt_zu i
                           else (fmt_zu i ++ ", ")%string))
           | None => None
           end) xs (Some v) = Some v'
      /\ List.length v' = List.length v.
Proof.
  induction xs as [| x xs IH]; intros v Hin Hv.
  - exists v. split; reflexivity.
  - destruct (Hin x (or_introl eq_refl)) as [Hx0 Hx1].
    assert (Hw : size_add x 1 = x + 1)
      by (unfold size_add; apply size_wrap_small; lia).
    simpl fold_left. rewrite Hw.
    destruct (zupd_defined v (x + 1)
                (Some (if x =? size_sub len 1
                       then fmt_zu x else (fmt_zu x ++ ", ")%string))
                ltac:(lia)) as [v1 Hv1].
    rewrite Hv1.
    pose proof (zupd_length _ _ _ _ Hv1) as Hl.
    destruct (IH v1) as [v' [Hf Hl']].
    + intros i Hi. unfold zlen. rewrite Hl. apply Hin. right. exact Hi.
    + unfold zlen. rewrite Hl. exact Hv.
    + exists v'. split; [exact Hf | congruence].
Qed.

Lemma format_defined (l : list Z) :
  (2 <= List.length l)%nat -> zlen l < UINT_MOD ->
  exists s, format_size_t_array l (zlen l) = Some s.
Proof.
  intros H2 Hu. pose proof UINT_lt_SIZE as HS.
  assert (Hz : 2 <= zlen l) by (unfold zlen; lia).
  unfold format_size_t_array.
  destruct (zupd_defined (repeat (@None string) (Z.to_nat (zlen l + 3))) 0
              (Some "["%string)) as [v0 Hv0].
  { rewrite zlen_repeat. lia. }
  rewrite Hv0.
  assert (Hz0 : zlen v0 = zlen l + 3).
  { apply zupd_length in Hv0. rewrite repeat_length in Hv0.
    unfold zlen at 1. rewrite Hv0. lia. }
  destruct (format_fill_defined (zlen l)
              (map Z.of_nat (seq 0 (Z.to_nat (zlen l)))) v0) as [v1 [Hv1 Hl1]].
  { intros i Hi. apply in_map_iff in Hi as [n [<- Hn]].
    apply in_seq in Hn. lia. }
  { lia. }
  rewrite Hv1.
  assert (Hz1 : zlen v1 = zlen l + 3)
    by (rewrite <- Hz0; unfold zlen; rewrite Hl1; reflexivity).
  assert (Hs2 : size_sub (zlen l) 2 = zlen l - 2)
    by (unfold size_sub; apply size_wrap_small; lia).
  assert (Hs1 : size_sub (zlen l) 1 = zlen l - 1)
    by (unfold size_sub; apply size_wrap_small; lia).
  rewrite Hs2, Hs1.
  destruct (zupd_defined v1 (zlen l - 2) (Some "]"%string)) as [v2 Hv2];
    [lia |].
  rewrite Hv2.
  assert (Hz2 : zlen v2 = zlen l + 3)
    by (rewrite <- Hz1; unfold zlen;
        rewrite (zupd_length _ _ _ _ Hv2); reflexivity).
  destruct (zupd_defined v2 (zlen l - 1) None) as [v3 Hv3]; [lia |].
  rewrite Hv3. eexists. reflexivity.
Qed.

Lemma need_formatted {B} (l : list Z) (k : string -> M B) h :
  (2 <= List.length l)%nat -> zlen l < UINT_MOD ->
  bind (need (format_size_t_array l (zlen l)) OutOfBounds) k h
  = k (formatted l) h.
Proof.
  intros H2 Hu. unfold formatted.
  destruct (format_defined l H2 Hu) as [s ->]. reflexivity.
Qed.

(** ** The leading-shape test *)

Lemma forallb_combine_eqb (a : list Z) :
  forall b, List.length a = List.length b ->
            (forallb (fun p => fst p =? snd p) (combine a b) = true <-> a = b).
Proof.
  induction a as [| x a IH]; intros [| y b] Hl; simpl in *; try lia.
  - split; reflexivity.
  - rewrite andb_true_iff, Z.eqb_eq, (IH b) by lia.
    split; [intros [-> ->]; reflexivity | intros E; inversion E; auto].
Qed.

Lemma shape_subset_equal_batch (ls rs : list Z) :
  (2 <= List.length ls)%nat -> (2 <= List.length rs)%nat ->
  zlen ls < UINT_MOD ->
  (shape_subset_equal ls rs 2 = true <-> batch_axes ls = batch_axes rs).
Proof.
  intros Hl Hr Hu. pose proof UINT_lt_SIZE as HS.
  unfold shape_subset_equal, batch_axes.
  assert (Hn : Z.to_nat (size_sub (zlen ls) 2) = (List.length ls - 2)%nat).
  { unfold size_sub. rewrite size_wrap_small by (unfold zlen in *; lia).
    unfold zlen. lia. }
  rewrite Hn.
  destruct (zlen ls =? zlen rs) eqn:E; simpl.
  - apply Z.eqb_eq in E. unfold zlen in E.
    assert (El : List.length ls = List.length rs) by lia.
    replace (zlen ls <? 2) with false
      by (symmetry; apply Z.ltb_ge; unfold zlen; lia).
    rewrite <- El. apply forallb_combine_eqb.
    rewrite !length_firstn. lia.
  - apply Z.eqb_neq in E. unfold zlen in E.
    split; [discriminate |]. intros Hb. exfalso.
    apply (f_equal (@List.length Z)) in Hb.
    rewrite !length_firstn in Hb. lia.
Qed.

(** ** Computations that store no error *)

Lemma sne_bind {A B} (m : M A) (k : A -> M (gresult B)) :
  (forall a, stores_no_error (k a)) -> stores_no_error (bind m k).
Proof.
  intros Hk h e h' H. apply bind_Done in H as (a & h1 & _ & H).
  exact (Hk a h1 e h' H).
Qed.

Lemma sne_crash {A} (f : fault) : stores_no_error (@crash (gresult A) f).
Proof. intros h e h' H. discriminate H. Qed.

Lemma sne_success {A} (a : A) : stores_no_error (ret (Success a)).
Proof. intros h e h' H. discriminate H. Qed.

Lemma sne_failure_none {A} : stores_no_error (ret (@Failure A None)).
Proof. intros h e h' H. discriminate H. Qed.

Ltac sne :=
  repeat first
    [ apply sne_crash
    | apply sne_success
    | apply sne_failure_none
    | apply sne_bind; intro
    | match goal with
      | |- stores_no_error (if ?c then _ else _) => destruct c
      | |- stores_no_error (match ?r with Success _ => _ | Failure _ => _ end) =>
          destruct r
      | |- stores_no_error (let _ := _ in _) => cbv zeta
      end ].

(** X19.  The two shape tests of [inner_product], for operands of rank at least
    2: the call stops with [PIPEVEC_ERROR_BAD_SHAPE], the store untouched,
    when the batch axes of the operands differ (in count or values), with
    a message built from both formatted shapes that asks for the same
    leading shape; and, the batch axes being equal, when the last axis of
    [lhs] differs from the second-to-last axis of [rhs], with a message
    that shows the two dimensions.  When neither holds no error is
    stored. *)
Lemma inner_product_bad_shape_rank2
        (h : heap) (lhs rhs : nat) (lp rp : PipevecTensorPrivate)
        (ls rs : list Z) :
  nth_error (tensors h) lhs = Some (Some lp) ->
  nth_error (tensors h) rhs = Some (Some rp) ->
  nth_error (garrays h) (shape lp) = Some ls ->
  nth_error (garrays h) (shape rp) = Some rs ->
  (2 <= List.length ls)%nat -> (2 <= List.length rs)%nat ->
  zlen ls < UINT_MOD -> zlen rs < UINT_MOD ->
  let n := nth (List.length ls - 1) ls 0 in
  let n' := nth (List.length rs - 2) rs 0 in
  (batch_axes ls <> batch_axes rs ->
   pipevec_tensor_inner_product_tensor lhs rhs h
   = Done (Failure (Some {| code := PIPEVEC_ERROR_BAD_SHAPE;
                            message := (formatted ls ++ " and " ++ formatted rs
                                        ++ " must have the same leading shape")%string |}))
          h)
  /\ (batch_axes ls = batch_axes rs -> n <> n' ->
      pipevec_tensor_inner_product_tensor lhs rhs h
      = Done (Failure (Some {| code := PIPEVEC_ERROR_BAD_SHAPE;
                               message := ("Arrays of shape " ++ formatted ls
                                           ++ " and " ++ formatted rs
                                           ++ " are not compatible for inner product, "
                                           ++ fmt_zu n ++ " != " ++ fmt_zu n')%string |}))
             h)
  /\ (batch_axes ls = batch_axes rs -> n = n' ->
      forall e h',
        pipevec_tensor_inner_product_tensor lhs rhs h
        <> Done (Failure (Some e)) h').
Proof.
  intros Hl Hr Hls Hrs H2l H2r Hul Hur n n'.
  eassert (Hstart :
    pipevec_tensor_inner_product_tensor lhs rhs h
    = (if negb (shape_subset_equal ls rs 2) then
         lhs_formatted_shape <- need (format_size_t_array ls (zlen ls))
                                     OutOfBounds ;;
         rhs_formatted_shape <- need (format_size_t_array rs (zlen rs))
                                     OutOfBounds ;;
         bad_shape (lhs_formatted_shape ++ " and " ++ rhs_formatted_shape
                    ++ " must have the same leading shape")%string
       else _) h).
  { unfold pipevec_tensor_inner_product_tensor.
    rewrite (bind_run _ _ _ _ _ (get_priv_run _ _ _ Hl)).
    rewrite (bind_run _ _ _ _ _ (get_priv_run _ _ _ Hr)).
    rewrite (bind_run _ _ _ _ _ (garray_read_run _ _ _ Hls)).
    rewrite (bind_run _ _ _ _ _ (garray_read_run _ _ _ Hrs)).
    reflexivity. }
  rewrite Hstart. clear Hstart.
  pose proof (shape_subset_equal_batch ls rs H2l H2r Hul) as Hb.
  assert (Hzl : zth ls (guint_sub (zlen ls) 1) = Some n).
  { unfold guint_sub. rewrite Z.mod_small by (unfold zlen in *; lia).
    rewrite zth_nth by (unfold zlen; lia). unfold n, zlen.
    do 2 f_equal. lia. }
  assert (Hzr : zth rs (guint_sub (zlen rs) 2) = Some n').
  { unfold guint_sub. rewrite Z.mod_small by (unfold zlen in *; lia).
    rewrite zth_nth by (unfold zlen; lia). unfold n', zlen.
    do 2 f_equal. lia. }
  split; [| split].
  - intros Hne.
    destruct (shape_subset_equal ls rs 2) eqn:E;
      [exfalso; apply Hne, Hb; reflexivity |].
    cbn [negb].
    rewrite need_formatted by assumption.
    rewrite need_formatted by assumption.
    reflexivity.
  - intros Heq Hn.
    rewrite (proj2 Hb Heq). cbn [negb].
    rewrite Hzl, Hzr. cbn [need]. unfold ret at 1, bind at 1.
    unfold ret at 1, bind at 1.
    replace (n =? n') with false by (symmetry; apply Z.eqb_neq; exact Hn).
    cbn [negb].
    rewrite need_formatted by assumption.
    rewrite need_formatted by assumption.
    reflexivity.
  - intros Heq Hn e h'.
    rewrite (proj2 Hb Heq). cbn [negb].
    rewrite Hzl, Hzr. cbn [need]. unfold ret at 1, bind at 1.
    unfold ret at 1, bind at 1.
    replace (n =? n') with true by (symmetry; apply Z.eqb_eq; exact Hn).
    cbn [negb].
    match goal with
    | |- ?m h <> _ => assert (Hs : stores_no_error m); [| apply Hs]
    end.
    sne.
Qed.

(** ** Readers: [get_data] looks at one tensor and its arrays only *)

Section Readers.

Variable t : nat.

Lemma ro_ret {A} (a : A) : reads_only t (ret a).
Proof. intros h h' b h1 _ H. inversion H; subst. split; reflexivity. Qed.

Lemma ro_crash {A} (f : fault) : reads_only t (@crash A f).
Proof. intros h h' b h1 _ H. discriminate H. Qed.

Lemma ro_need {A} (o : option A) (f : fault) : reads_only t (need o f).
Proof. destruct o; [apply ro_ret | apply ro_crash]. Qed.

Lemma ro_bind {A B} (m : M A) (k : A -> M B) :
  reads_only t m -> (forall a, reads_only t (k a)) -> reads_only t (bind m k).
Proof.
  intros Hm Hk h h' b h1 Hv H.
  apply bind_Done in H as (a & h2 & Ha & Hb).
  destruct (Hm h h' a h2 Hv Ha) as [-> Ha'].
  destruct (Hk a h h' b h1 Hv Hb) as [-> Hb'].
  split; [reflexivity |]. rewrite (bind_run _ _ _ _ _ Ha'). exact Hb'.
Qed.

Lemma ro_get_priv : reads_only t (get_priv t).
Proof.
  intros h h' p h1 [Ht _] H. apply get_priv_Done in H as [Hp ->].
  split; [reflexivity |]. apply get_priv_run. rewrite Ht. exact Hp.
Qed.

Lemma ro_garray_read (p : nat) : reads_only t (garray_read p).
Proof.
  intros h h' a h1 [_ Hg] H. apply garray_read_Done in H as [Hp ->].
  split; [reflexivity |]. apply garray_read_run. apply Hg. exact Hp.
Qed.

Lemma ro_array_load (off : Z) : reads_only t (array_load t off).
Proof.
  unfold array_load. apply ro_bind; [apply ro_get_priv |].
  intros p. destruct (array p); [apply ro_need | apply ro_crash].
Qed.

Lemma ro_array_size_t_product (data : list Z) (len : Z) :
  reads_only t (array_size_t_product data len).
Proof.
  unfold array_size_t_product.
  destruct (len <=? zlen data); [apply ro_ret | apply ro_crash].
Qed.

Lemma ro_for_fold {S} (body : Z -> S -> M S) :
  (forall i acc, reads_only t (body i acc)) ->
  forall n i acc, reads_only t (for_fold n i acc body).
Proof.
  intros Hb. induction n as [| n IH]; intros i acc; simpl.
  - apply ro_ret.
  - apply ro_bind; [apply Hb | intros acc'; apply IH].
Qed.

Lemma ro_get_data : reads_only t (pipevec_tensor_get_data t).
Proof.
  unfold pipevec_tensor_get_data.
  apply ro_bind; [apply ro_get_priv | intros priv].
  apply ro_bind; [apply ro_garray_read | intros shape_data].
  apply ro_bind; [apply ro_array_size_t_product | intros len].
  apply ro_bind; [apply ro_need | intros last].
  destruct (last =? 0); [apply ro_crash |].
  apply ro_for_fold. intros i rv.
  apply ro_for_fold. intros j rv'.
  apply ro_bind; [apply ro_array_load | intros v; apply ro_need].
Qed.

Lemma ro_stored_state : reads_only t (stored_state t).
Proof.
  unfold stored_state. apply ro_bind; [apply ro_get_priv | intros p].
  apply ro_bind; [apply ro_garray_read | intros s].
  apply ro_bind; [apply ro_garray_read | intros ps; apply ro_ret].
Qed.

End Readers.

Lemma frame_same_view (h h' : heap) (t : nat) :
  frame (List.length (tensors h)) (List.length (garrays h)) h h' ->
  (t < List.length (tensors h))%nat ->
  same_view t h h'.
Proof.
  intros F Ht. split.
  - apply (frame_tensors _ _ _ _ F). exact Ht.
  - intros p a Hp. rewrite (frame_garrays _ _ _ _ F); [exact Hp |].
    apply nth_error_Some. congruence.
Qed.

(** What a tensor holds stays there, and the same, in any store that
    keeps the earlier one. *)
Lemma stored_frame (h h' : heap) (t : nat) o :
  frame (List.length (tensors h)) (List.length (garrays h)) h h' ->
  stored t h = Some o -> stored t h' = Some o.
Proof.
  intros F Ho. unfold stored in *.
  destruct (stored_state t h) as [a h1 |] eqn:E; [| discriminate].
  simpl in Ho. inversion Ho; subst a. clear Ho.
  assert (Ht : (t < List.length (tensors h))%nat).
  { unfold stored_state in E. apply bind_Done in E as (p & h3 & E1 & _).
    apply get_priv_Done in E1 as [E1 _].
    apply nth_error_Some. congruence. }
  destruct (ro_stored_state t h h' o h1 (frame_same_view h h' t F Ht) E)
    as [_ E'].
  rewrite E'. reflexivity.
Qed.

(** ** Writers: every store goes to an object made after the start *)

Lemma frame_refl T G h : frame T G h h.
Proof. constructor; intros; auto. Qed.

Lemma frame_trans T G h1 h2 h3 :
  frame T G h1 h2 -> frame T G h2 h3 -> frame T G h1 h3.
Proof.
  intros [a1 b1 c1 d1] [a2 b2 c2 d2]. constructor.
  - intros t Ht. rewrite a2, a1; auto.
  - intros p Hp. rewrite b2, b1; auto.
  - lia.
  - lia.
Qed.

Section Writers.

Variables T G : nat.

Lemma keeps_ret {A} (a : A) (R : A -> Prop) : R a -> keeps T G (ret a) R.
Proof.
  intros Ha h b h' _ _ H. inversion H; subst.
  split; [apply frame_refl | exact Ha].
Qed.

Lemma keeps_crash {A} (f : fault) (R : A -> Prop) : keeps T G (crash f) R.
Proof. intros h b h' _ _ H. discriminate H. Qed.

Lemma keeps_need {A} (o : option A) (f : fault) :
  keeps T G (need o f) (fun _ => True).
Proof. destruct o; [apply keeps_ret; exact I | apply keeps_crash]. Qed.

Lemma keeps_bind {A B} (m : M A) (k : A -> M B) (R : A -> Prop) (R' : B -> Prop) :
  keeps T G m R -> (forall a, R a -> keeps T G (k a) R') ->
  keeps T G (bind m k) R'.
Proof.
  intros Hm Hk h b h' HT HG H.
  apply bind_Done in H as (a & h1 & Ha & Hb).
  destruct (Hm h a h1 HT HG Ha) as [F1 Ra].
  destruct (Hk a Ra h1 b h') as [F2 Rb]; try exact Hb.
  - pose proof (frame_tlen _ _ _ _ F1). lia.
  - pose proof (frame_glen _ _ _ _ F1). lia.
  - split; [eapply frame_trans; eassumption | exact Rb].
Qed.

Lemma keeps_weaken {A} (m : M A) (R : A -> Prop) :
  keeps T G m R -> keeps T G m (fun _ => True).
Proof.
  intros Hm h a h' HT HG H. destruct (Hm h a h' HT HG H). split; auto.
Qed.

Lemma keeps_garray_read (p : nat) : keeps T G (garray_read p) (fun _ => True).
Proof.
  intros h a h' _ _ H. apply garray_read_Done in H as [_ ->].
  split; [apply frame_refl | exact I].
Qed.

Lemma keeps_get_priv (t : nat) : keeps T G (get_priv t) (fun _ => True).
Proof.
  intros h a h' _ _ H. apply get_priv_Done in H as [_ ->].
  split; [apply frame_refl | exact I].
Qed.

Lemma keeps_posix_memalign (n : Z) : keeps T G (posix_memalign n) (fun _ => True).
Proof.
  intros h a h' _ _ H. inversion H; subst.
  split; [apply frame_refl | exact I].
Qed.

Lemma keeps_garray_new (a : list Z) :
  keeps T G (garray_new a) (fun p => (G <= p)%nat).
Proof.
  intros h p h' _ HG H. inversion H; subst. clear H. split; [| exact HG].
  constructor; simpl; intros; auto.
  - apply nth_error_app1. lia.
  - rewrite length_app. lia.
Qed.

Lemma keeps_garray_write (p : nat) (a : list Z) :
  (G <= p)%nat -> keeps T G (garray_write p a) (fun _ => True).
Proof.
  intros Hp h u h' _ _ H. unfold garray_write in H.
  destruct (upd_nat (garrays h) p a) as [g |] eqn:E; [| discriminate].
  inversion H; subst. clear H. split; [| exact I].
  constructor; simpl; intros; auto.
  - eapply upd_nat_other; [exact E | lia].
  - rewrite (upd_nat_length _ _ _ _ E). lia.
Qed.

Lemma keeps_set_priv (t : nat) (p : PipevecTensorPrivate) :
  (T <= t)%nat -> keeps T G (set_priv t p) (fun _ => True).
Proof.
  intros Ht h u h' _ _ H. unfold set_priv in H.
  destruct (nth_error (tensors h) t) as [[q |] |]; try discriminate.
  destruct (upd_nat (tensors h) t (Some p)) as [ts |] eqn:E; [| discriminate].
  inversion H; subst. clear H. split; [| exact I].
  constructor; simpl; intros; auto.
  - eapply upd_nat_other; [exact E | lia].
  - rewrite (upd_nat_length _ _ _ _ E). lia.
Qed.

Lemma keeps_g_array_copy (p : nat) :
  keeps T G (g_array_copy p) (fun q => (G <= q)%nat).
Proof.
  unfold g_array_copy. eapply keeps_bind; [apply keeps_garray_read |].
  intros a _. apply keeps_garray_new.
Qed.

Lemma keeps_g_object_new : keeps T G g_object_new (fun t => (T <= t)%nat).
Proof.
  unfold g_object_new, pipevec_tensor_init.
  eapply keeps_bind.
  - eapply keeps_bind; [apply keeps_garray_new | intros s _].
    eapply keeps_bind; [apply keeps_garray_new | intros ps _].
    apply (keeps_ret _ (fun _ => True)). exact I.
  - intros priv _ h t h' HT _ H. inversion H; subst. clear H.
    split; [| exact HT].
    constructor; simpl; intros; auto.
    + apply nth_error_app1. lia.
    + rewrite length_app. lia.
Qed.

Lemma keeps_g_object_unref (t : nat) :
  (T <= t)%nat -> keeps T G (g_object_unref t) (fun _ => True).
Proof.
  intros Ht. unfold g_object_unref.
  eapply keeps_bind; [apply keeps_get_priv | intros q _].
  intros h u h' _ _ H.
  destruct (upd_nat (tensors h) t None) as [ts |] eqn:E; [| discriminate].
  inversion H; subst. clear H. split; [| exact I].
  constructor; simpl; intros; auto.
  - eapply upd_nat_other; [exact E | lia].
  - rewrite (upd_nat_length _ _ _ _ E). lia.
Qed.

Lemma keeps_for_loop (body : Z -> M unit) :
  (forall i, keeps T G (body i) (fun _ => True)) ->
  forall n i, keeps T G (for_loop n i body) (fun _ => True).
Proof.
  intros Hb. induction n as [| n IH]; intros i; simpl.
  - apply keeps_ret. exact I.
  - eapply keeps_bind; [apply Hb | intros _ _; apply IH].
Qed.

Lemma keeps_for_range (lo hi : Z) (body : Z -> M unit) :
  (forall i, keeps T G (body i) (fun _ => True)) ->
  keeps T G (for_range lo hi body) (fun _ => True).
Proof. intros Hb. apply keeps_for_loop. exact Hb. Qed.

Lemma keeps_for_fold {S} (body : Z -> S -> M S) :
  (forall i acc, keeps T G (body i acc) (fun _ => True)) ->
  forall n i acc, keeps T G (for_fold n i acc body) (fun _ => True).
Proof.
  intros Hb. induction n as [| n IH]; intros i acc; simpl.
  - apply keeps_ret. exact I.
  - eapply keeps_bind; [apply Hb | intros acc' _; apply IH].
Qed.

Lemma keeps_array_size_t_product (data : list Z) (len : Z) :
  keeps T G (array_size_t_product data len) (fun _ => True).
Proof.
  unfold array_size_t_product.
  destruct (len <=? zlen data); [apply keeps_ret; exact I | apply keeps_crash].
Qed.

Lemma keeps_array_load (t : nat) (off : Z) :
  keeps T G (array_load t off) (fun _ => True).
Proof.
  unfold array_load. eapply keeps_bind; [apply keeps_get_priv | intros p _].
  destruct (array p); [apply keeps_need | apply keeps_crash].
Qed.

Lemma keeps_array_store (t : nat) (off : Z) (v : Float32.t) :
  (T <= t)%nat -> keeps T G (array_store t off v) (fun _ => True).
Proof.
  intros Ht. unfold array_store.
  eapply keeps_bind; [apply keeps_get_priv | intros p _].
  destruct (array p); [| apply keeps_crash].
  eapply keeps_bind; [apply keeps_need | intros b _].
  apply keeps_set_priv. exact Ht.
Qed.

End Writers.

Ltac kp :=
  lazymatch goal with
  | |- keeps _ _ (bind g_object_new _) _ =>
      eapply keeps_bind; [apply keeps_g_object_new | intros ? ?; kp]
  | |- keeps _ _ (bind (g_array_copy _) _) _ =>
      eapply keeps_bind; [apply keeps_g_array_copy | intros ? ?; kp]
  | |- keeps _ _ (bind ?m _) _ =>
      eapply (keeps_bind _ _ m _ (fun _ => True)); [kp | intros ? _; kp]
  | |- keeps _ _ (ret _) _ => apply keeps_ret; simpl; auto
  | |- keeps _ _ (crash _) _ => apply keeps_crash
  | |- keeps _ _ (need _ _) _ => apply keeps_need
  | |- keeps _ _ (garray_read _) _ => apply keeps_garray_read
  | |- keeps _ _ (get_priv _) _ => apply keeps_get_priv
  | |- keeps _ _ (posix_memalign _) _ => apply keeps_posix_memalign
  | |- keeps _ _ (garray_write _ _) _ => apply keeps_garray_write; assumption
  | |- keeps _ _ (set_priv _ _) _ => apply keeps_set_priv; assumption
  | |- keeps _ _ (g_object_unref _) _ => apply keeps_g_object_unref; assumption
  | |- keeps _ _ (array_size_t_product _ _) _ => apply keeps_array_size_t_product
  | |- keeps _ _ (array_load _ _) _ => apply keeps_array_load
  | |- keeps _ _ (array_store _ _ _) _ => apply keeps_array_store; assumption
  | |- keeps _ _ (for_range _ _ _) _ => apply keeps_for_range; intros ?; kp
  | |- keeps _ _ (for_fold _ _ _ _) _ => apply keeps_for_fold; intros ? ?; kp
  | |- keeps _ _ (bad_shape _) _ => unfold bad_shape; kp
  | |- keeps _ _ (if ?c then _ else _) _ => destruct c; kp
  | |- keeps _ _ (match ?r with Success _ => _ | Failure _ => _ end) _ =>
      destruct r; kp
  | |- keeps _ _ (let _ := _ in _) _ => cbv zeta; kp
  | |- _ => eauto with keeps
  end.

Section Producers.

Variables T G : nat.

Lemma keeps_pad_last_as_float (p : nat) :
  (G <= p)%nat -> keeps T G (pad_last_as_float p) (fun _ => True).
Proof. intros Hp. unfold pad_last_as_float. kp. Qed.

Lemma keeps_last_as_float_size (p : nat) :
  keeps T G (last_as_float_size p) (fun _ => True).
Proof. unfold last_as_float_size. kp. Qed.

Lemma keeps_float_index_size (p : nat) (k : Z) :
  keeps T G (float_index_size p k) (fun _ => True).
Proof. unfold float_index_size. kp. Qed.

Lemma keeps_garray_len (p : nat) : keeps T G (garray_len p) (fun _ => True).
Proof. unfold garray_len. kp. Qed.

Lemma keeps_float_index_copy (dst : nat) kd src ks :
  (G <= dst)%nat -> keeps T G (float_index_copy dst kd src ks) (fun _ => True).
Proof. intros Hd. unfold float_index_copy. kp. Qed.

#[local] Hint Resolve keeps_pad_last_as_float keeps_last_as_float_size
     keeps_float_index_size keeps_garray_len keeps_float_index_copy : keeps.

Lemma keeps_alloc_shape (tensor shape_p : nat) :
  (T <= tensor)%nat ->
  keeps T G (pipevec_tensor_alloc_shape tensor shape_p) (fun _ => True).
Proof. intros Ht. unfold pipevec_tensor_alloc_shape. kp. Qed.

#[local] Hint Resolve keeps_alloc_shape : keeps.

Lemma keeps_set_data (tensor : nat) contents (shape_p : nat) :
  (T <= tensor)%nat ->
  keeps T G (pipevec_tensor_set_data tensor contents shape_p) (fun _ => True).
Proof. intros Ht. unfold pipevec_tensor_set_data. kp. Qed.

Lemma keeps_set_data_aligned_padded (tensor shape_p : nat) data n :
  (T <= tensor)%nat ->
  keeps T G (pipevec_tensor_set_data_aligned_padded tensor shape_p data n)
        (fun _ => True).
Proof.
  intros Ht. unfold pipevec_tensor_set_data_aligned_padded.
  eapply (keeps_bind _ _ _ _ (fun _ => True)); [kp | intros r _].
  destruct r; [| kp]. cbv zeta.
  destruct (size_mul 4 n =? 0); [kp |].
  eapply (keeps_bind _ _ _ _ (fun _ => True)); [kp | intros priv _].
  destruct (array priv), data; kp.
Qed.

#[local] Hint Resolve keeps_set_data_aligned_padded : keeps.

Lemma keeps_copy (tensor : nat) :
  keeps T G (pipevec_tensor_copy tensor) (made_after T).
Proof. unfold pipevec_tensor_copy. kp. Qed.

Lemma keeps_set_location (location shape_data : list Z) (i : Z) :
  keeps T G (set_location location shape_data i) (fun _ => True).
Proof.
  unfold set_location. generalize 1 as product.
  generalize location.
  induction (List.length shape_data) as [| j IH]; intros loc product; simpl.
  - kp.
  - eapply (keeps_bind _ _ _ _ (fun _ => True)); [kp | intros d _].
    destruct (size_of_int product =? 0); [kp |].
    destruct (d =? 0); [kp |].
    eapply (keeps_bind _ _ _ _ (fun _ => True)); [kp | intros loc' _].
    apply IH.
Qed.

#[local] Hint Resolve keeps_set_location : keeps.

Lemma keeps_map (src : nat) (func : PipevecTensorMapFunction) :
  keeps T G (pipevec_tensor_map src func) (fun _ => True).
Proof.
  unfold pipevec_tensor_map.
  eapply keeps_bind; [apply keeps_copy | intros r Hr].
  destruct r as [dst | e]; [simpl in Hr | kp]. kp.
Qed.

Lemma keeps_check_shapes_elementwise (ls rs : list Z) :
  keeps T G (check_shapes_elementwise ls rs) (fun _ => True).
Proof. unfold check_shapes_elementwise. kp. Qed.

#[local] Hint Resolve keeps_check_shapes_elementwise : keeps.

Lemma keeps_do_elementwise_op (lhs rhs : nat) func :
  keeps T G (pipevec_tensor_do_elementwise_op lhs rhs func) (fun _ => True).
Proof.
  unfold pipevec_tensor_do_elementwise_op.
  do 4 (eapply (keeps_bind _ _ _ _ (fun _ => True)); [kp | intros ? _]).
  eapply (keeps_bind _ _ _ _ (fun _ => True)); [kp | intros c _].
  destruct c; [| kp].
  eapply keeps_bind; [apply keeps_copy | intros r Hr].
  destruct r as [dst | e]; [simpl in Hr | kp]. kp.
Qed.

Lemma keeps_do_scalar_op (lhs : nat) (rhs : Float32.t) func :
  keeps T G (pipevec_tensor_do_scalar_op lhs rhs func) (fun _ => True).
Proof.
  unfold pipevec_tensor_do_scalar_op.
  eapply (keeps_bind _ _ _ _ (fun _ => True)); [kp | intros ? _].
  eapply keeps_bind; [apply keeps_copy | intros r Hr].
  destruct r as [dst | e]; [simpl in Hr | kp]. kp.
Qed.

Lemma keeps_inner_product (lhs rhs : nat) :
  keeps T G (pipevec_tensor_inner_product_tensor lhs rhs) (fun _ => True).
Proof. unfold pipevec_tensor_inner_product_tensor. kp. Qed.

End Producers.

(** X25.  No producing operation changes what a tensor that existed
    before the call holds (its buffer, its two array pointers, the words
    of its shape and of its padded shape): copy, map, the elementwise and
    scalar operations (whatever the element function) and the inner
    product write only to the objects they create.  Likewise after
    [c = copy (src)] a [set_data] on [c] leaves every earlier tensor,
    [src] among them, as it was. *)
Theorem producers_leave_stored_state
        (h h' : heap) (t : nat)
        (o : PipevecTensorPrivate * list Z * list Z) :
  stored t h = Some o ->
  (forall src r,
      pipevec_tensor_copy src h = Done r h' -> stored t h' = Some o)
  /\ (forall src func r,
         pipevec_tensor_map src func h = Done r h' ->
         stored t h' = Some o)
  /\ (forall lhs rhs func r,
         pipevec_tensor_do_elementwise_op lhs rhs func h = Done r h' ->
         stored t h' = Some o)
  /\ (forall lhs s func r,
         pipevec_tensor_do_scalar_op lhs s func h = Done r h' ->
         stored t h' = Some o)
  /\ (forall lhs rhs r,
         pipevec_tensor_inner_product_tensor lhs rhs h = Done r h' ->
         stored t h' = Some o)
  /\ (forall src c h1 contents shape_p r,
         pipevec_tensor_copy src h = Done (Success c) h1 ->
         pipevec_tensor_set_data c contents shape_p h1 = Done r h' ->
         stored t h' = Some o).
Proof.
  intros Ho.
  set (T := List.length (tensors h)). set (G := List.length (garrays h)).
  assert (K : forall (m : M (gresult nat)) (R : gresult nat -> Prop) r,
             keeps T G m R -> m h = Done r h' -> stored t h' = Some o).
  { intros m R r Hk Hm.
    destruct (Hk h r h' (le_n _) (le_n _) Hm) as [F _].
    eapply stored_frame; eassumption. }
  repeat split.
  - intros src r. apply (K _ _ r (keeps_copy T G src)).
  - intros src func r. apply (K _ _ r (keeps_map T G src func)).
  - intros lhs rhs func r.
    apply (K _ _ r (keeps_do_elementwise_op T G lhs rhs func)).
  - intros lhs s func r. apply (K _ _ r (keeps_do_scalar_op T G lhs s func)).
  - intros lhs rhs r. apply (K _ _ r (keeps_inner_product T G lhs rhs)).
  - intros src c h1 contents shape_p r Hc Hs.
    destruct (keeps_copy T G src h _ h1 (le_n _) (le_n _) Hc) as [F1 Hm].
    simpl in Hm.
    destruct (keeps_set_data T G c contents shape_p Hm h1 r h') as [F2 _].
    + pose proof (frame_tlen _ _ _ _ F1). unfold T. lia.
    + pose proof (frame_glen _ _ _ _ F1). unfold G. lia.
    + exact Hs.
    + eapply stored_frame; [eapply frame_trans; eassumption | exact Ho].
Qed.

(** C9.  The copy-independence scenario run on the code.  On a tensor made
    by [pipevec_tensor_new] with shape (2,3) and contents 1..6 the
    sequence [c = copy (t); set_data (c, zeros, shape); get_data (t)] does
    not give 1..6 back: it crashes on a [NULL] store inside [new].  On a
    tensor that already sits in memory with that data, and whose
    [get_data] is 1..6, the sequence crashes in [copy], before any copy
    exists.  It runs to its end on a tensor with no cell, where
    [get_data] has nothing to return; and a tensor that [set_data] did
    populate (two values, shape product wrapped to 2) has no buffer, so
    its [get_data] returns two cells that were never written. *)
Theorem C9_copy_independence_run :
  new_copy_set_data_get_data 0 (f32s [1; 2; 3; 4; 5; 6])
                             (f32s [0; 0; 0; 0; 0; 0]) (caller_heap [[2; 3]])
  = Crash NullDereference
  /\ value (pipevec_tensor_get_data 0
              (laid_out_heap [[1; 2; 3]; [4; 5; 6]] [[7; 8]; [9; 10]; [11; 12]]))
     = Some (map Some (f32s [1; 2; 3; 4; 5; 6]))
  /\ get_data_after_copy_set_data 0 (f32s [0; 0; 0; 0; 0; 0]) 0
       (laid_out_heap [[1; 2; 3]; [4; 5; 6]] [[7; 8]; [9; 10]; [11; 12]])
     = Crash NullDereference
  /\ value (get_data_after_copy_set_data 0 [] 1 empty_rows_heap)
     = Some (Success [])
  /\ value (populate 0 (f32s [7; 9]) (caller_heap [[3; 6148914691236517206]]))
     = Some (0%nat, Success tt)
  /\ value (buffer_of 0 wrapped_rows_heap) = Some None
  /\ value (pipevec_tensor_get_data 0 wrapped_rows_heap) = Some [None; None].
Proof.
  repeat split; vm_compute; reflexivity.
Qed.

(** ** The general statements at concrete stores *)

Lemma producers_leave_stored_state_witness :
  stored 0 (laid_out_heap [[1; 2; 3]; [4; 5; 6]] [[7; 8]; [9; 10]; [11; 12]])
  = stored 0
      (store_after (pipevec_tensor_inner_product_tensor 0 1)
         (laid_out_heap [[1; 2; 3]; [4; 5; 6]] [[7; 8]; [9; 10]; [11; 12]]))
  /\ stored 0 wrapped_rows_heap
     = Some ({| array := None; shape := 0%nat; padded_shape := 3%nat |},
             [3; 6148914691236517206], [3; 6148914691236517206])
  /\ stored 0 (store_after (pipevec_tensor_inner_product_tensor 0 0)
                           wrapped_rows_heap)
     = Some ({| array := None; shape := 0%nat; padded_shape := 3%nat |},
             [3; 6148914691236517206], [3; 6148914691236517206])
  /\ stored 0 empty_rows_heap
     = stored 0
         (store_after (r <- pipevec_tensor_copy 0 ;;
                       match r with
                       | Success c => pipevec_tensor_set_data c [] 1
                       | Failure e => ret (Failure e)
                       end) empty_rows_heap).
Proof.
  split; [vm_compute; reflexivity |].
  split; [vm_compute; reflexivity |].
  split.
  - refine (proj1 (proj2 (proj2 (proj2 (proj2
             (producers_leave_stored_state wrapped_rows_heap _ 0 _ _)))))
             0%nat 0%nat (Failure _) _).
    + vm_compute. reflexivity.
    + vm_compute. reflexivity.
  - vm_compute. reflexivity.
Defined.

Lemma C10_witness :
  pipevec_tensor_get_data 0 fresh_heap = Crash OutOfBounds
  /\ crashes (pipevec_tensor_copy 0 fresh_heap).
Proof.
  assert (H : never_populated fresh_heap 0).
  { exists {| array := None; shape := 0; padded_shape := 1 |}.
    repeat split; reflexivity. }
  pose proof (C10_unpopulated_tensor_crashes fresh_heap 0 H) as W.
  split; [exact (proj1 (proj2 W)) | exact (proj1 (proj2 (proj2 W)))].
Defined.

(** ** [set_data] stores nothing: the general statement behind C1 *)

Lemma fold_size_mul_mod (l : list Z) :
  forall a, fold_left size_mul l (a mod SIZE_MOD)
            = (fold_left Z.mul l a) mod SIZE_MOD.
Proof.
  induction l as [| x l IH]; intros a; simpl.
  - reflexivity.
  - unfold size_mul at 2, size_wrap.
    rewrite Z.mul_mod_idemp_l by discriminate. apply IH.
Qed.

Lemma fold_mul_nonneg (l : list Z) :
  forall a, 0 <= a -> Forall (fun d => 0 <= d) l -> 0 <= fold_left Z.mul l a.
Proof.
  induction l as [| x l IH]; intros a Ha Hl; simpl; [exact Ha |].
  inversion Hl; subst. apply IH; [nia | assumption].
Qed.

Lemma fold_mul_app_last (l : list Z) (x a : Z) :
  fold_left Z.mul (l ++ [x]) a = fold_left Z.mul l a * x.
Proof. rewrite fold_left_app. reflexivity. Qed.

Lemma set_priv_Done t p h u h' :
  set_priv t p h = Done u h' ->
  nth_error (tensors h') t = Some (Some p) /\ garrays h' = garrays h.
Proof.
  unfold set_priv. intros H.
  destruct (nth_error (tensors h) t) as [[q |] |] eqn:E; try discriminate.
  destruct (upd_nat (tensors h) t (Some p)) as [ts |] eqn:Eu; [| discriminate].
  inversion H; subst; clear H. simpl. split; [| reflexivity].
  clear E. revert t ts Eu. generalize (tensors h) as l.
  induction l as [| x l IH]; intros [| t] ts Eu; simpl in Eu; try discriminate.
  - inversion Eu; reflexivity.
  - destruct (upd_nat l t (Some p)) eqn:E'; [| discriminate].
    inversion Eu; subst. simpl. eapply IH. exact E'.
Qed.

Lemma garray_write_tensors p a h u h' :
  garray_write p a h = Done u h' -> tensors h' = tensors h.
Proof.
  unfold garray_write. destruct (upd_nat (garrays h) p a); intros H;
    inversion H; reflexivity.
Qed.

Lemma pad_last_as_float_tensors p h u h' :
  pad_last_as_float p h = Done u h' -> tensors h' = tensors h.
Proof.
  unfold pad_last_as_float. intros H.
  apply bind_Done in H as (pdata & h1 & H1 & H).
  apply garray_read_Done in H1 as [_ ->].
  apply bind_Done in H as (f & h2 & H2 & H). apply need_Done in H2 as [_ ->].
  apply bind_Done in H as (v & h3 & H3 & H). apply need_Done in H3 as [_ ->].
  apply bind_Done in H as (pd & h4 & H4 & H). apply need_Done in H4 as [_ ->].
  eapply garray_write_tensors. exact H.
Qed.

(** After [alloc_shape] has succeeded the buffer pointer of the tensor is
    [NULL]. *)
Lemma alloc_shape_null_buffer tensor shape_p h u h' :
  pipevec_tensor_alloc_shape tensor shape_p h = Done (Success u) h' ->
  exists ps, nth_error (tensors h') tensor
             = Some (Some {| array := None; shape := shape_p;
                             padded_shape := ps |}).
Proof.
  unfold pipevec_tensor_alloc_shape. intros H.
  apply bind_Done in H as (sd & h1 & H1 & H).
  apply bind_Done in H as (sp & h2 & H2 & H).
  apply bind_Done in H as (last & h3 & H3 & H).
  destruct (last =? 0); [discriminate |].
  apply bind_Done in H as (ok & h4 & H4 & H).
  destruct (negb ok); [discriminate |].
  apply bind_Done in H as (q & h5 & H5 & H).
  apply bind_Done in H as (ps & h6 & H6 & H).
  apply bind_Done in H as (u1 & h7 & H7 & H).
  apply bind_Done in H as (u2 & h8 & H8 & H).
  inversion H; subst; clear H.
  apply set_priv_Done in H7 as [H7 _].
  apply pad_last_as_float_tensors in H8. rewrite H8.
  exists ps. exact H7.
Qed.

Lemma last_as_float_size_Done p h v h' :
  last_as_float_size p h = Done v h' -> h' = h.
Proof.
  unfold last_as_float_size. intros H.
  apply bind_Done in H as (pdata & h1 & H1 & H).
  apply garray_read_Done in H1 as [_ ->].
  apply bind_Done in H as (f & h2 & H2 & H). apply need_Done in H2 as [_ ->].
  apply need_Done in H as [_ ->]. reflexivity.
Qed.

Lemma array_store_null tensor off v h priv :
  nth_error (tensors h) tensor = Some (Some priv) -> array priv = None ->
  array_store tensor off v h = Crash NullDereference.
Proof.
  intros Ht Ha. unfold array_store.
  rewrite (bind_run _ _ _ _ _ (get_priv_run _ _ _ Ht)). rewrite Ha.
  reflexivity.
Qed.

(** X8.  Whenever the shape describes at least one element (no dimension
    negative, the product not wrapping) and the contents are not empty,
    [set_data] does not succeed: the copy loop's first store finds the
    [NULL] buffer. *)
Lemma set_data_stores_nothing
      (h : heap) (tensor shape_p : nat) (dims : list Z)
      (contents : list Float32.t) :
  nth_error (garrays h) shape_p = Some dims ->
  Forall (fun d => 0 <= d) dims ->
  fold_left Z.mul dims 1 < SIZE_MOD ->
  zlen dims < UINT_MOD ->
  contents <> [] ->
  forall r h', pipevec_tensor_set_data tensor contents shape_p h
               <> Done (Success r) h'.
Proof.
  intros Hp Hnn Hprod Hlen Hc r h' H.
  unfold pipevec_tensor_set_data in H.
  rewrite (bind_run _ _ _ _ _ (garray_read_run _ _ _ Hp)) in H.
  unfold array_size_t_product in H at 1. rewrite Z.leb_refl in H.
  unfold ret at 1, bind at 1 in H.
  assert (HP : fold_left size_mul (firstn (Z.to_nat (zlen dims)) dims) 1
               = fold_left Z.mul dims 1).
  { unfold zlen. rewrite Nat2Z.id, firstn_all.
    change 1 with (1 mod SIZE_MOD) at 1. rewrite fold_size_mul_mod.
    apply Z.mod_small. split; [| exact Hprod].
    apply fold_mul_nonneg; [lia | exact Hnn]. }
  rewrite HP in H. set (P := fold_left Z.mul dims 1) in *.
  destruct (P =? zlen contents) eqn:EP; cbn [negb] in H.
  2:{ apply bind_Done in H as (s & h1 & _ & H). discriminate H. }
  apply Z.eqb_eq in EP.
  assert (HP1 : 1 <= P).
  { rewrite EP. unfold zlen. destruct contents; [congruence | simpl; lia]. }
  apply bind_Done in H as (r0 & ha & Ha & H).
  destruct r0 as [u | e]; [| discriminate H].
  apply alloc_shape_null_buffer in Ha as [ps Ha].
  apply bind_Done in H as (last & h1 & H1 & H).
  apply need_Done in H1 as [Hlast ->].
  destruct (last =? 0) eqn:E0; [discriminate H |].
  apply Z.eqb_neq in E0.
  apply bind_Done in H as (priv & h2 & H2 & H).
  apply get_priv_Done in H2 as [_ ->].
  apply bind_Done in H as (isp & h3 & H3 & H).
  apply last_as_float_size_Done in H3 as ->.
  apply bind_Done in H as (u1 & h4 & Hloop & _).
  (* the geometry: at least one row of at least one cell *)
  assert (Hd : dims <> []).
  { intros ->. rewrite zth_nil in Hlast. discriminate. }
  destruct (exists_last Hd) as (rest & x & ->).
  assert (Hx : last = x).
  { unfold guint_sub in Hlast.
    rewrite Z.mod_small in Hlast
      by (unfold zlen in *; rewrite length_app in *; simpl in *; lia).
    rewrite zth_nth in Hlast
      by (unfold zlen; rewrite length_app; simpl; lia).
    inversion Hlast as [Hn]. unfold zlen. rewrite length_app. simpl.
    replace (Z.to_nat (Z.of_nat (List.length rest + 1) - 1))
      with (List.length rest) by lia.
    rewrite app_nth2 by lia. rewrite Nat.sub_diag. reflexivity. }
  subst x.
  assert (HPx : P = fold_left Z.mul rest 1 * last)
    by (unfold P; apply fold_mul_app_last).
  apply Forall_app in Hnn as [Hrest Hl]. inversion Hl as [| ? ? Hl0 _]; subst.
  pose proof (fold_mul_nonneg rest 1 ltac:(lia) Hrest) as Hr0.
  assert (Hlead : P / last = fold_left Z.mul rest 1)
    by (rewrite HPx; apply Z.div_mul; exact E0).
  assert (Hlead1 : 1 <= P / last) by (rewrite Hlead; nia).
  assert (Hlast1 : 1 <= last) by lia.
  unfold for_range in Hloop.
  destruct (Z.to_nat (P / last - 0)) as [| n] eqn:En; [lia |].
  simpl in Hloop.
  apply bind_Done in Hloop as (u2 & h5 & Hbody & _).
  apply bind_Done in Hbody as (u3 & h6 & Hinner & _).
  unfold for_range in Hinner.
  destruct (Z.to_nat (last - 0)) as [| m] eqn:Em; [lia |].
  simpl in Hinner.
  apply bind_Done in Hinner as (u4 & h7 & Hfirst & _).
  apply bind_Done in Hfirst as (v & h8 & Hv & Hstore).
  apply need_Done in Hv as [_ ->].
  rewrite (array_store_null _ _ _ _ _ Ha eq_refl) in Hstore.
  discriminate Hstore.
Qed.

(** ** The shape test of [set_data]: the general statement behind C7 *)

Lemma alloc_shape_failure_internal tensor shape_p h e h' :
  pipevec_tensor_alloc_shape tensor shape_p h = Done (Failure e) h' ->
  exists g, e = Some g /\ code g = PIPEVEC_ERROR_INTERNAL.
Proof.
  unfold pipevec_tensor_alloc_shape. intros H.
  apply bind_Done in H as (sd & h1 & H1 & H).
  apply bind_Done in H as (sp & h2 & H2 & H).
  apply bind_Done in H as (last & h3 & H3 & H).
  destruct (last =? 0); [discriminate |].
  apply bind_Done in H as (ok & h4 & H4 & H).
  destruct (negb ok).
  - inversion H; subst. eexists. split; reflexivity.
  - apply bind_Done in H as (q & h5 & H5 & H).
    apply bind_Done in H as (ps & h6 & H6 & H).
    apply bind_Done in H as (u1 & h7 & H7 & H).
    apply bind_Done in H as (u2 & h8 & H8 & H).
    discriminate H.
Qed.

Lemma set_data_bad_shape_cases
      (h : heap) (tensor shape_p : nat) (dims : list Z)
      (contents : list Float32.t) :
  nth_error (garrays h) shape_p = Some dims ->
  (2 <= List.length dims)%nat -> zlen dims < UINT_MOD ->
  let product := fold_left size_mul dims 1 in
  (product <> zlen contents ->
   pipevec_tensor_set_data tensor contents shape_p h
   = Done (Failure (Some {| code := PIPEVEC_ERROR_BAD_SHAPE;
                            message := ("Shape " ++ formatted dims
                                        ++ " has product " ++ fmt_zu product
                                        ++ " which does not match array length "
                                        ++ fmt_zu (zlen dims) ++ "i")%string |}))
          h)
  /\ (product = zlen contents ->
      forall g h',
        pipevec_tensor_set_data tensor contents shape_p h
        = Done (Failure (Some g)) h' ->
        code g <> PIPEVEC_ERROR_BAD_SHAPE).
Proof.
  intros Hp H2 Hu product.
  assert (Hstart : forall k : Z -> M (gresult unit),
    bind (array_size_t_product dims (zlen dims)) k h = k product h).
  { intros k. unfold array_size_t_product. rewrite Z.leb_refl.
    unfold zlen. rewrite Nat2Z.id, firstn_all. reflexivity. }
  split.
  - intros Hne. unfold pipevec_tensor_set_data.
    rewrite (bind_run _ _ _ _ _ (garray_read_run _ _ _ Hp)).
    rewrite Hstart.
    replace (product =? zlen contents) with false
      by (symmetry; apply Z.eqb_neq; exact Hne).
    cbn [negb]. rewrite need_formatted by assumption. reflexivity.
  - intros Heq g h' H. unfold pipevec_tensor_set_data in H.
    rewrite (bind_run _ _ _ _ _ (garray_read_run _ _ _ Hp)) in H.
    rewrite Hstart in H.
    replace (product =? zlen contents) with true in H
      by (symmetry; apply Z.eqb_eq; exact Heq).
    cbn [negb] in H.
    apply bind_Done in H as (r0 & ha & Ha & H).
    destruct r0 as [u | e].
    + apply bind_Done in H as (last & h1 & _ & H).
      destruct (last =? 0); [discriminate H |].
      apply bind_Done in H as (priv & h2 & _ & H).
      apply bind_Done in H as (isp & h3 & _ & H).
      apply bind_Done in H as (u1 & h4 & _ & H).
      discriminate H.
    + inversion H; subst.
      apply alloc_shape_failure_internal in Ha as (g' & Hg & Hc).
      inversion Hg; subst. rewrite Hc. discriminate.
Qed.

(** ** The padded shape of a rank-2 tensor: the general statement behind C3 *)

Lemma upd_nat_nth {A} (l : list A) :
  forall n v l', upd_nat l n v = Some l' -> nth_error l' n = Some v.
Proof.
  induction l as [| x tl IH]; intros [| n] v l' H; simpl in H; try discriminate.
  - inversion H; reflexivity.
  - destruct (upd_nat tl n v) eqn:E; [| discriminate].
    inversion H; subst. simpl. eapply IH. exact E.
Qed.

(** For every rank-2 shape (a, b) with [a] below 2^32 the padding step of
    [alloc_shape] rewrites the array with the very same two words: the
    half-word it treats as the last dimension is the upper half of [a]. *)
Lemma pad_last_as_float_rank2 (h : heap) (p : nat) (a b : Z) :
  nth_error (garrays h) p = Some [a; b] ->
  0 <= a < UINT_MOD ->
  exists h', pad_last_as_float p h = Done tt h'
             /\ nth_error (garrays h') p = Some [a; b].
Proof.
  intros Hp Ha. unfold pad_last_as_float.
  rewrite (bind_run _ _ _ _ _ (garray_read_run _ _ _ Hp)).
  assert (Hhalf : half_get [a; b] (guint_sub (zlen [a; b]) 1) = Some 0).
  { change (guint_sub (zlen [a; b]) 1) with 1. unfold half_get.
    change (zth [a; b] (1 / 2)) with (Some a). simpl Z.even. cbv iota.
    rewrite Z.div_small by exact Ha. reflexivity. }
  unfold float_index. rewrite Hhalf.
  change (guint_sub (zlen [a; b]) 1) with 1.
  cbn [option_map need]. unfold ret at 1, bind at 1.
  change (Float32.to_size_t (Float32.of_bits 0)) with (Some 0).
  cbn [need]. unfold ret at 1, bind at 1.
  change (Float32.to_bits (Float32.of_Z (apply_padding 0 8))) with 0.
  assert (Hset : half_set [a; b] 1 0 = Some [a; b]).
  { unfold half_set. change (zth [a; b] (1 / 2)) with (Some a).
    simpl Z.even. cbv iota.
    change (0 mod UINT_MOD * UINT_MOD) with 0.
    rewrite Z.mod_small by exact Ha. reflexivity. }
  rewrite Hset. cbn [need]. unfold ret at 1, bind at 1.
  unfold garray_write.
  destruct (upd_nat_defined (garrays h) p [a; b]) as [g Hg].
  { apply nth_error_Some. congruence. }
  rewrite Hg. eexists. split; [reflexivity |].
  simpl. eapply upd_nat_nth. exact Hg.
Qed.


(** ** [set_location] is row-major unranking *)

Lemma fold_mul_init (l : list Z) :
  forall a, fold_left Z.mul l a = a * fold_left Z.mul l 1.
Proof.
  induction l as [| x l IH]; intros a; cbn [fold_left]; [lia |].
  rewrite (IH (a * x)), (IH (1 * x)). lia.
Qed.

Lemma fold_mul_pos (l : list Z) :
  Forall (fun d => 0 < d) l -> 0 < fold_left Z.mul l 1.
Proof.
  induction l as [| x l IH]; intros Hl; cbn [fold_left]; [lia |].
  inversion Hl; subst. rewrite fold_mul_init. specialize (IH H2). nia.
Qed.

Lemma skipn_step {A} (l : list A) (d : A) :
  forall j, (j < List.length l)%nat -> skipn j l = nth j l d :: skipn (S j) l.
Proof.
  induction l as [| x l IH]; intros [| j] Hj; simpl in *; try lia.
  - reflexivity.
  - apply IH. lia.
Qed.

Lemma suffix_product_bounds (l : list Z) (n : nat) :
  Forall (fun d => 0 < d) l ->
  0 < fold_left Z.mul (skipn n l) 1 <= fold_left Z.mul l 1.
Proof.
  intros Hl.
  assert (Hs : Forall (fun d => 0 < d) (skipn n l)).
  { rewrite <- (firstn_skipn n l) in Hl. apply Forall_app in Hl. tauto. }
  assert (Hf : Forall (fun d => 0 < d) (firstn n l)).
  { rewrite <- (firstn_skipn n l) in Hl. apply Forall_app in Hl. tauto. }
  pose proof (fold_mul_pos _ Hs). pose proof (fold_mul_pos _ Hf).
  split; [assumption |].
  assert (E : fold_left Z.mul l 1
              = fold_left Z.mul (firstn n l) 1 * fold_left Z.mul (skipn n l) 1).
  { rewrite <- (firstn_skipn n l) at 1.
    rewrite fold_left_app. apply fold_mul_init. }
  rewrite E. nia.
Qed.

Lemma zupd_nth (l : list Z) (i : Z) (v : Z) (l' : list Z) :
  zupd l i v = Some l' ->
  nth (Z.to_nat i) l' 0 = v
  /\ forall k, k <> Z.to_nat i -> nth k l' 0 = nth k l 0.
Proof.
  unfold zupd. destruct ((i <? 0) || (zlen l <=? i)); [discriminate |].
  intros H. split.
  - apply nth_error_nth. eapply upd_nat_nth. exact H.
  - intros k Hk. pose proof (upd_nat_other _ _ _ _ k H Hk) as E.
    pose proof (upd_nat_length _ _ _ _ H) as L.
    destruct (nth_error l k) as [x |] eqn:Ek.
    + rewrite (nth_error_nth _ _ _ E). symmetry. apply nth_error_nth. exact Ek.
    + apply nth_error_None in Ek.
      rewrite !nth_overflow by lia. reflexivity.
Qed.

Lemma set_location_loop_unranks (shape_data : list Z) (i : Z) (h : heap) :
  Forall (fun d => 0 < d) shape_data ->
  fold_left Z.mul shape_data 1 < 2 ^ 31 ->
  0 <= i ->
  forall n location,
    (n <= List.length shape_data)%nat ->
    List.length location = List.length shape_data ->
    (forall j, (n <= j < List.length shape_data)%nat ->
               nth j location 0
               = (i / stride shape_data j) mod nth j shape_data 0) ->
    exists location',
      set_location_loop n shape_data location i
                        (fold_left Z.mul (skipn n shape_data) 1) h
      = Done location' h
      /\ List.length location' = List.length shape_data
      /\ forall j, (j < List.length shape_data)%nat ->
                   nth j location' 0
                   = (i / stride shape_data j) mod nth j shape_data 0.
Proof.
  intros Hpos Htot Hi.
  induction n as [| j IH]; intros location Hn Hlen Hdone.
  - exists location. simpl. split; [reflexivity |]. split; [exact Hlen |].
    intros j Hj. apply Hdone. lia.
  - pose proof (suffix_product_bounds shape_data (S j) Hpos) as [Hp0 Hp1].
    pose proof (suffix_product_bounds shape_data j Hpos) as [Hq0 Hq1].
    set (product := fold_left Z.mul (skipn (S j) shape_data) 1) in *.
    assert (Hd : zth shape_data (Z.of_nat j) = Some (nth j shape_data 0)).
    { rewrite zth_nth by (unfold zlen; lia). rewrite Nat2Z.id. reflexivity. }
    assert (Hdpos : 0 < nth j shape_data 0).
    { rewrite Forall_forall in Hpos. apply Hpos. apply nth_In. lia. }
    assert (Hstep : fold_left Z.mul (skipn j shape_data) 1
                    = product * nth j shape_data 0).
    { rewrite (skipn_step shape_data 0 j) by lia. cbn [fold_left].
      rewrite fold_mul_init. unfold product. lia. }
    assert (Htwo : 2 ^ 31 = 2147483648) by reflexivity.
    assert (Hsz : size_of_int product = product).
    { unfold size_of_int. apply Z.mod_small.
      assert (SIZE_MOD = 18446744073709551616) by reflexivity. lia. }
    simpl set_location_loop. rewrite Hd. cbn [need].
    unfold ret at 1, bind at 1. rewrite Hsz.
    replace (product =? 0) with false by (symmetry; apply Z.eqb_neq; lia).
    replace (nth j shape_data 0 =? 0) with false
      by (symmetry; apply Z.eqb_neq; lia).
    destruct (zupd_defined location (Z.of_nat j)
                ((i / product) mod nth j shape_data 0)) as [loc' Hloc'].
    { unfold zlen. lia. }
    rewrite Hloc'. cbn [need]. unfold ret at 1, bind at 1.
    assert (Hnext : int_of_size (size_mul product (nth j shape_data 0))
                    = fold_left Z.mul (skipn j shape_data) 1).
    { rewrite Hstep. unfold int_of_size, size_mul, size_wrap.
      assert (SIZE_MOD = 18446744073709551616) by reflexivity.
      assert (UINT_MOD = 4294967296) by reflexivity.
      rewrite (Z.mod_small _ SIZE_MOD) by lia.
      rewrite (Z.mod_small _ UINT_MOD) by lia.
      replace (product * nth j shape_data 0 <? 2 ^ 31) with true
        by (symmetry; apply Z.ltb_lt; lia).
      reflexivity. }
    rewrite Hnext.
    pose proof (zupd_nth _ _ _ _ Hloc') as [Hset Hother].
    rewrite Nat2Z.id in Hset, Hother.
    apply IH.
    + lia.
    + rewrite (zupd_length _ _ _ _ Hloc'). exact Hlen.
    + intros k Hk. destruct (Nat.eq_dec k j) as [-> | Hne].
      * rewrite Hset. reflexivity.
      * rewrite Hother by exact Hne. apply Hdone. lia.
Qed.

(** X18.  For a shape of positive dimensions whose product fits an [int],
    [set_location] fills the location with the row-major coordinate of
    linear position [i]: cell [j] is [(i / stride_j) mod shape[j]]. *)
Lemma set_location_unranks (location shape_data : list Z) (i : Z) (h : heap) :
  Forall (fun d => 0 < d) shape_data ->
  fold_left Z.mul shape_data 1 < 2 ^ 31 ->
  0 <= i ->
  List.length location = List.length shape_data ->
  exists location',
    set_location location shape_data i h = Done location' h
    /\ List.length location' = List.length shape_data
    /\ forall j, (j < List.length shape_data)%nat ->
                 nth j location' 0
                 = (i / stride shape_data j) mod nth j shape_data 0.
Proof.
  intros Hpos Htot Hi Hlen. unfold set_location.
  pose proof (set_location_loop_unranks shape_data i h Hpos Htot Hi
                (List.length shape_data) location (le_n _) Hlen) as H.
  rewrite skipn_all in H. simpl in H. apply H. intros j Hj. lia.
Qed.

(** * Further properties of the translation unit *)

(** ** A small program logic over the run monad *)

Section Triples.

Variable Pre : heap -> Prop.
Variable Rel : heap -> heap -> Prop.
Hypothesis Rel_refl : forall h, Rel h h.
Hypothesis Rel_trans : forall h1 h2 h3, Rel h1 h2 -> Rel h2 h3 -> Rel h1 h3.
Hypothesis Pre_Rel : forall h h', Pre h -> Rel h h' -> Pre h'.

Lemma t_ret {A} (a : A) (R : A -> Prop) : R a -> triple Pre Rel (ret a) R.
Proof. intros Ha h b h' _ H. inversion H; subst. split; auto. Qed.

Lemma t_crash {A} (f : fault) (R : A -> Prop) : triple Pre Rel (crash f) R.
Proof. intros h b h' _ H. discriminate H. Qed.

Lemma t_need {A} (o : option A) (f : fault) :
  triple Pre Rel (need o f) (fun _ => True).
Proof. destruct o; [apply t_ret; exact I | apply t_crash]. Qed.

Lemma t_bind {A B} (m : M A) (k : A -> M B) (R : A -> Prop) (R' : B -> Prop) :
  triple Pre Rel m R -> (forall a, R a -> triple Pre Rel (k a) R') ->
  triple Pre Rel (bind m k) R'.
Proof.
  intros Hm Hk h b h' HP H.
  apply bind_Done in H as (a & h1 & Ha & Hb).
  destruct (Hm h a h1 HP Ha) as [F1 Ra].
  destruct (Hk a Ra h1 b h' (Pre_Rel _ _ HP F1) Hb) as [F2 Rb].
  split; [eapply Rel_trans; eassumption | exact Rb].
Qed.

Lemma t_garray_read (p : nat) : triple Pre Rel (garray_read p) (fun _ => True).
Proof.
  intros h a h' _ H. apply garray_read_Done in H as [_ ->]. split; auto.
Qed.

Lemma t_get_priv (t : nat) : triple Pre Rel (get_priv t) (fun _ => True).
Proof.
  intros h a h' _ H. apply get_priv_Done in H as [_ ->]. split; auto.
Qed.

Lemma t_posix_memalign (n : Z) :
  triple Pre Rel (posix_memalign n) (fun _ => True).
Proof. intros h a h' _ H. inversion H; subst. split; auto. Qed.

Lemma t_array_size_t_product (data : list Z) (len : Z) :
  triple Pre Rel (array_size_t_product data len) (fun _ => True).
Proof.
  unfold array_size_t_product.
  destruct (len <=? zlen data); [apply t_ret; exact I | apply t_crash].
Qed.

Lemma t_array_load (t : nat) (off : Z) :
  triple Pre Rel (array_load t off) (fun _ => True).
Proof.
  unfold array_load. eapply t_bind; [apply t_get_priv | intros p _].
  destruct (array p); [apply t_need | apply t_crash].
Qed.

Lemma t_for_loop (body : Z -> M unit) :
  (forall i, triple Pre Rel (body i) (fun _ => True)) ->
  forall n i, triple Pre Rel (for_loop n i body) (fun _ => True).
Proof.
  intros Hb. induction n as [| n IH]; intros i; simpl.
  - apply t_ret. exact I.
  - eapply t_bind; [apply Hb | intros _ _; apply IH].
Qed.

Lemma t_for_range (lo hi : Z) (body : Z -> M unit) :
  (forall i, triple Pre Rel (body i) (fun _ => True)) ->
  triple Pre Rel (for_range lo hi body) (fun _ => True).
Proof. intros Hb. apply t_for_loop. exact Hb. Qed.

Lemma t_for_fold {S} (body : Z -> S -> M S) :
  (forall i acc, triple Pre Rel (body i acc) (fun _ => True)) ->
  forall n i acc, triple Pre Rel (for_fold n i acc body) (fun _ => True).
Proof.
  intros Hb. induction n as [| n IH]; intros i acc; simpl.
  - apply t_ret. exact I.
  - eapply t_bind; [apply Hb | intros acc' _; apply IH].
Qed.

Lemma t_set_location (location shape_data : list Z) (i : Z) :
  triple Pre Rel (set_location location shape_data i) (fun _ => True).
Proof.
  unfold set_location. generalize 1 as product. generalize location.
  induction (List.length shape_data) as [| j IH]; intros loc product; simpl.
  - apply t_ret. exact I.
  - eapply t_bind; [apply t_need | intros d _].
    destruct (size_of_int product =? 0); [apply t_crash |].
    destruct (d =? 0); [apply t_crash |].
    eapply t_bind; [apply t_need | intros loc' _]. apply IH.
Qed.

Lemma t_get_data (t : nat) :
  triple Pre Rel (pipevec_tensor_get_data t) (fun _ => True).
Proof.
  unfold pipevec_tensor_get_data.
  eapply t_bind; [apply t_get_priv | intros priv _].
  eapply t_bind; [apply t_garray_read | intros sd _].
  eapply t_bind; [apply t_array_size_t_product | intros len _].
  eapply t_bind; [apply t_need | intros last _].
  destruct (last =? 0); [apply t_crash |].
  apply t_for_fold. intros i rv. apply t_for_fold. intros j rv'.
  eapply t_bind; [apply t_array_load | intros v _; apply t_need].
Qed.

End Triples.

(** One step of a proof in the logic: the shape of the computation picks
    the rule; what writes to the store is looked up among the hints. *)
Ltac tp RR RT PR :=
  lazymatch goal with
  | |- triple _ _ (bind ?m _) _ =>
      first
        [ eapply (t_bind _ _ RT PR); [solve [eauto with triples] |];
          intros ? ?; tp RR RT PR
        | eapply (t_bind _ _ RT PR _ _ (fun _ => True));
          [tp RR RT PR | intros ? _; tp RR RT PR] ]
  | |- triple _ _ (ret _) _ => apply (t_ret _ _ RR); simpl; auto
  | |- triple _ _ (crash _) _ => apply t_crash
  | |- triple _ _ (need _ _) _ => apply (t_need _ _ RR)
  | |- triple _ _ (garray_read _) _ => apply (t_garray_read _ _ RR)
  | |- triple _ _ (get_priv _) _ => apply (t_get_priv _ _ RR)
  | |- triple _ _ (posix_memalign _) _ => apply (t_posix_memalign _ _ RR)
  | |- triple _ _ (array_size_t_product _ _) _ =>
      apply (t_array_size_t_product _ _ RR)
  | |- triple _ _ (array_load _ _) _ => apply (t_array_load _ _ RR RT PR)
  | |- triple _ _ (set_location _ _ _) _ =>
      apply (t_set_location _ _ RR RT PR)
  | |- triple _ _ (pipevec_tensor_get_data _) _ =>
      apply (t_get_data _ _ RR RT PR)
  | |- triple _ _ (for_range _ _ _) _ =>
      apply (t_for_range _ _ RR RT PR); intros ?; tp RR RT PR
  | |- triple _ _ (for_fold _ _ _ _) _ =>
      apply (t_for_fold _ _ RR RT PR); intros ? ?; tp RR RT PR
  | |- triple _ _ (bad_shape _) _ => unfold bad_shape; tp RR RT PR
  | |- triple _ _ (if ?c then _ else _) _ => destruct c; tp RR RT PR
  | |- triple _ _ (match ?r with Success _ => _ | Failure _ => _ end) _ =>
      destruct r; tp RR RT PR
  | |- triple _ _ (let _ := _ in _) _ => cbv zeta; tp RR RT PR
  | |- _ => solve [eauto with triples]
  end.

(** ** No tensor ever receives a buffer *)

Lemma null_kept_refl h : null_kept h h.
Proof. intros H. exact H. Qed.

Lemma null_kept_trans h1 h2 h3 :
  null_kept h1 h2 -> null_kept h2 h3 -> null_kept h1 h3.
Proof. unfold null_kept. auto. Qed.

Lemma null_kept_pre h h' : all_null h -> null_kept h h' -> all_null h'.
Proof. unfold null_kept. auto. Qed.

Lemma n_same_tensors {A} (m : M A) :
  (forall h a h', m h = Done a h' -> tensors h' = tensors h) ->
  triple all_null null_kept m (fun _ => True).
Proof.
  intros Hm h a h' _ H. split; [| exact I].
  intros Hn t p Ht. rewrite (Hm h a h' H) in Ht. eapply Hn. exact Ht.
Qed.

Lemma n_garray_new (a : list Z) :
  triple all_null null_kept (garray_new a) (fun _ => True).
Proof. apply n_same_tensors. intros h p h' H. inversion H. reflexivity. Qed.

Lemma n_garray_write (p : nat) (a : list Z) :
  triple all_null null_kept (garray_write p a) (fun _ => True).
Proof.
  apply n_same_tensors. intros h u h' H. eapply garray_write_tensors. exact H.
Qed.

Lemma n_g_array_copy (p : nat) :
  triple all_null null_kept (g_array_copy p) (fun _ => True).
Proof.
  unfold g_array_copy.
  eapply (t_bind _ _ null_kept_trans null_kept_pre);
    [apply (t_garray_read _ _ null_kept_refl) | intros a _].
  apply n_garray_new.
Qed.

Lemma nth_error_upd_nat {A} (l : list A) :
  forall n v l' k x,
    upd_nat l n v = Some l' -> nth_error l' k = Some x ->
    x = v \/ nth_error l k = Some x.
Proof.
  intros n v l' k x Hu Hk. destruct (Nat.eq_dec k n) as [-> | Hne].
  - left. rewrite (upd_nat_nth _ _ _ _ Hu) in Hk. congruence.
  - right. rewrite <- (upd_nat_other _ _ _ _ k Hu Hne). exact Hk.
Qed.

Lemma n_set_priv (t : nat) (p : PipevecTensorPrivate) :
  array p = None -> triple all_null null_kept (set_priv t p) (fun _ => True).
Proof.
  intros Hp h u h' _ H. split; [| exact I]. intros Hn t' q Hq.
  unfold set_priv in H.
  destruct (nth_error (tensors h) t) as [[q0 |] |]; try discriminate.
  destruct (upd_nat (tensors h) t (Some p)) as [ts |] eqn:E; [| discriminate].
  inversion H; subst; clear H. simpl in Hq.
  destruct (nth_error_upd_nat _ _ _ _ _ _ E Hq) as [Hv | Ho].
  - inversion Hv; subst. exact Hp.
  - eapply Hn. exact Ho.
Qed.

Lemma n_get_priv (t : nat) :
  triple all_null null_kept (get_priv t) (fun p => array p = None).
Proof.
  intros h p h' Hn H. apply get_priv_Done in H as [Hp ->].
  split; [apply null_kept_refl | eapply Hn; exact Hp].
Qed.

Lemma n_array_store (t : nat) (off : Z) (v : Float32.t) :
  triple all_null null_kept (array_store t off v) (fun _ => True).
Proof.
  intros h u h' Hn H. exfalso. unfold array_store in H.
  apply bind_Done in H as (p & h1 & Hp & H).
  apply get_priv_Done in Hp as [Hp ->].
  rewrite (Hn _ _ Hp) in H. discriminate H.
Qed.

Lemma n_g_object_new :
  triple all_null null_kept g_object_new (fun _ => True).
Proof.
  intros h t h' _ H. rewrite g_object_new_run in H. inversion H; subst; clear H.
  split; [| exact I]. intros Hn t' q Hq. simpl in Hq.
  destruct (Nat.lt_ge_cases t' (List.length (tensors h))) as [Hlt | Hge].
  - rewrite nth_error_app1 in Hq by exact Hlt. eapply Hn. exact Hq.
  - rewrite nth_error_app2 in Hq by exact Hge.
    destruct (t' - List.length (tensors h))%nat as [| k]; simpl in Hq.
    + inversion Hq; subst. reflexivity.
    + destruct k; discriminate Hq.
Qed.

Lemma n_g_object_unref (t : nat) :
  triple all_null null_kept (g_object_unref t) (fun _ => True).
Proof.
  intros h u h' _ H. split; [| exact I]. intros Hn t' q Hq.
  unfold g_object_unref in H.
  apply bind_Done in H as (p & h1 & Hp & H).
  apply get_priv_Done in Hp as [_ ->].
  destruct (upd_nat (tensors h) t None) as [ts |] eqn:E; [| discriminate].
  inversion H; subst; clear H. simpl in Hq.
  destruct (nth_error_upd_nat _ _ _ _ _ _ E Hq) as [Hv | Ho];
    [discriminate Hv | eapply Hn; exact Ho].
Qed.

#[global] Hint Resolve n_garray_new n_garray_write n_g_array_copy n_set_priv
  n_array_store n_g_object_new n_g_object_unref : triples.

Ltac np := tp null_kept_refl null_kept_trans null_kept_pre.

Lemma n_pad_last_as_float (p : nat) :
  triple all_null null_kept (pad_last_as_float p) (fun _ => True).
Proof. unfold pad_last_as_float. np. Qed.

Lemma n_last_as_float_size (p : nat) :
  triple all_null null_kept (last_as_float_size p) (fun _ => True).
Proof. unfold last_as_float_size. np. Qed.

Lemma n_float_index_size (p : nat) (k : Z) :
  triple all_null null_kept (float_index_size p k) (fun _ => True).
Proof. unfold float_index_size. np. Qed.

Lemma n_float_index_copy (dst : nat) kd src ks :
  triple all_null null_kept (float_index_copy dst kd src ks) (fun _ => True).
Proof. unfold float_index_copy. np. Qed.

Lemma n_garray_len (p : nat) :
  triple all_null null_kept (garray_len p) (fun _ => True).
Proof. unfold garray_len. np. Qed.

#[global] Hint Resolve n_pad_last_as_float n_last_as_float_size
  n_float_index_size n_float_index_copy n_garray_len : triples.

Lemma n_alloc_shape (tensor shape_p : nat) :
  triple all_null null_kept (pipevec_tensor_alloc_shape tensor shape_p)
         (fun _ => True).
Proof. unfold pipevec_tensor_alloc_shape. np. Qed.

#[global] Hint Resolve n_alloc_shape : triples.

Lemma n_set_data (tensor : nat) contents (shape_p : nat) :
  triple all_null null_kept (pipevec_tensor_set_data tensor contents shape_p)
         (fun _ => True).
Proof. unfold pipevec_tensor_set_data. np. Qed.

Lemma n_reshape unspecified (tensor shape_p : nat) :
  triple all_null null_kept (pipevec_tensor_reshape unspecified tensor shape_p)
         (fun _ => True).
Proof.
  unfold pipevec_tensor_reshape.
  eapply (t_bind _ _ null_kept_trans null_kept_pre);
    [apply (t_get_data _ _ null_kept_refl null_kept_trans null_kept_pre) |].
  intros data _. apply n_set_data.
Qed.

Lemma n_set_data_aligned_padded (tensor shape_p : nat) data n :
  triple all_null null_kept
         (pipevec_tensor_set_data_aligned_padded tensor shape_p data n)
         (fun _ => True).
Proof.
  unfold pipevec_tensor_set_data_aligned_padded.
  eapply (t_bind _ _ null_kept_trans null_kept_pre);
    [apply n_alloc_shape | intros r _].
  destruct r; [| np]. cbv zeta.
  destruct (size_mul 4 n =? 0); [np |].
  eapply (t_bind _ _ null_kept_trans null_kept_pre);
    [apply n_get_priv | intros priv Hp].
  rewrite Hp. apply t_crash.
Qed.

#[global] Hint Resolve n_set_data n_reshape n_set_data_aligned_padded : triples.

Lemma n_copy (tensor : nat) :
  triple all_null null_kept (pipevec_tensor_copy tensor) (fun _ => True).
Proof. unfold pipevec_tensor_copy. np. Qed.

#[global] Hint Resolve n_copy : triples.

Lemma n_map (src : nat) (func : PipevecTensorMapFunction) :
  triple all_null null_kept (pipevec_tensor_map src func) (fun _ => True).
Proof. unfold pipevec_tensor_map. np. Qed.

Lemma n_check_shapes_elementwise (ls rs : list Z) :
  triple all_null null_kept (check_shapes_elementwise ls rs) (fun _ => True).
Proof. unfold check_shapes_elementwise. np. Qed.

#[global] Hint Resolve n_check_shapes_elementwise : triples.

Lemma n_do_elementwise_op (lhs rhs : nat) func :
  triple all_null null_kept (pipevec_tensor_do_elementwise_op lhs rhs func)
         (fun _ => True).
Proof. unfold pipevec_tensor_do_elementwise_op. np. Qed.

Lemma n_do_scalar_op (lhs : nat) (rhs : Float32.t) func :
  triple all_null null_kept (pipevec_tensor_do_scalar_op lhs rhs func)
         (fun _ => True).
Proof. unfold pipevec_tensor_do_scalar_op. np. Qed.

Lemma n_inner_product (lhs rhs : nat) :
  triple all_null null_kept (pipevec_tensor_inner_product_tensor lhs rhs)
         (fun _ => True).
Proof. unfold pipevec_tensor_inner_product_tensor. np. Qed.

Lemma n_new (shape_p : nat) contents :
  triple all_null null_kept (pipevec_tensor_new shape_p contents)
         (fun _ => True).
Proof. unfold pipevec_tensor_new. np. Qed.

(** X22.  No operation of the interface ever gives a tensor a buffer: if
    no tensor object of the store has one, none has one after
    [g_object_new], [set_data], [reshape], [copy], [map], an elementwise
    or scalar operation, [inner_product] or [new] has returned. *)
Theorem buffers_stay_null (h h' : heap) :
  all_null h ->
  (forall t, g_object_new h = Done t h' -> all_null h')
  /\ (forall t c p r, pipevec_tensor_set_data t c p h = Done r h' -> all_null h')
  /\ (forall u t p r, pipevec_tensor_reshape u t p h = Done r h' -> all_null h')
  /\ (forall t r, pipevec_tensor_copy t h = Done r h' -> all_null h')
  /\ (forall t f r, pipevec_tensor_map t f h = Done r h' -> all_null h')
  /\ (forall a b f r,
         pipevec_tensor_do_elementwise_op a b f h = Done r h' -> all_null h')
  /\ (forall a s f r,
         pipevec_tensor_do_scalar_op a s f h = Done r h' -> all_null h')
  /\ (forall a b r,
         pipevec_tensor_inner_product_tensor a b h = Done r h' -> all_null h')
  /\ (forall p c r, pipevec_tensor_new p c h = Done r h' -> all_null h').
Proof.
  intros Hn.
  assert (K : forall A (m : M A) (a : A),
             triple all_null null_kept m (fun _ => True) ->
             m h = Done a h' -> all_null h').
  { intros A m a Hm H. destruct (Hm h a h' Hn H) as [F _]. apply F. exact Hn. }
  repeat split.
  - intros t. apply K. apply n_g_object_new.
  - intros t c p r. apply K. apply n_set_data.
  - intros u t p r. apply K. apply n_reshape.
  - intros t r. apply K. apply n_copy.
  - intros t f r. apply K. apply n_map.
  - intros a b f r. apply K. apply n_do_elementwise_op.
  - intros a s f r. apply K. apply n_do_scalar_op.
  - intros a b r. apply K. apply n_inner_product.
  - intros p c r. apply K. apply n_new.
Qed.

Lemma all_null_caller_heap (arrs : list (list Z)) : all_null (caller_heap arrs).
Proof. intros t p H. destruct t; discriminate H. Qed.

Lemma buffers_stay_null_witness :
  all_null empty_rows_heap
  /\ all_null (store_after (pipevec_tensor_copy 0) empty_rows_heap).
Proof.
  assert (H0 : all_null (store_after g_object_new (caller_heap [[0; 3]; [0; 2]]))).
  { refine (proj1 (buffers_stay_null (caller_heap [[0; 3]; [0; 2]]) _
                                     (all_null_caller_heap _)) 0%nat _).
    vm_compute. reflexivity. }
  assert (H1 : all_null empty_rows_heap).
  { refine (proj1 (proj2 (buffers_stay_null _ _ H0))
                  0%nat [] 0%nat (Success tt) _).
    vm_compute. reflexivity. }
  split; [exact H1 |].
  refine (proj1 (proj2 (proj2 (proj2 (buffers_stay_null empty_rows_heap _ H1))))
                0%nat (Success 1%nat) _).
  vm_compute. reflexivity.
Defined.

(** ** [set_data] and [reshape] touch one tensor only *)

Section OneTensor.

Variables t G : nat.

Lemma fb_refl h : frame_but t G h h.
Proof. constructor; auto. Qed.

Lemma fb_trans h1 h2 h3 :
  frame_but t G h1 h2 -> frame_but t G h2 h3 -> frame_but t G h1 h3.
Proof.
  intros [a1 b1 c1] [a2 b2 c2]. constructor.
  - intros t' Ht. rewrite a2, a1; auto.
  - intros p Hp. rewrite b2, b1; auto.
  - lia.
Qed.

Lemma fb_pre h h' : enough_arrays G h -> frame_but t G h h' -> enough_arrays G h'.
Proof. unfold enough_arrays. intros HG [_ _ c]. lia. Qed.

Lemma b_garray_new (a : list Z) :
  triple (enough_arrays G) (frame_but t G) (garray_new a) (fun p => (G <= p)%nat).
Proof.
  intros h p h' HG H. inversion H; subst; clear H. split; [| exact HG].
  constructor; simpl; intros; auto.
  - apply nth_error_app1. unfold enough_arrays in HG. lia.
  - rewrite length_app. lia.
Qed.

Lemma b_garray_write (p : nat) (a : list Z) :
  (G <= p)%nat ->
  triple (enough_arrays G) (frame_but t G) (garray_write p a) (fun _ => True).
Proof.
  intros Hp h u h' _ H. unfold garray_write in H.
  destruct (upd_nat (garrays h) p a) as [g |] eqn:E; [| discriminate].
  inversion H; subst; clear H. split; [| exact I].
  constructor; simpl; intros; auto.
  - eapply upd_nat_other; [exact E | lia].
  - rewrite (upd_nat_length _ _ _ _ E). lia.
Qed.

Lemma b_g_array_copy (p : nat) :
  triple (enough_arrays G) (frame_but t G) (g_array_copy p)
         (fun q => (G <= q)%nat).
Proof.
  unfold g_array_copy.
  eapply (t_bind _ _ fb_trans fb_pre);
    [apply (t_garray_read _ _ fb_refl) | intros a _].
  apply b_garray_new.
Qed.

Lemma b_set_priv (p : PipevecTensorPrivate) :
  triple (enough_arrays G) (frame_but t G) (set_priv t p) (fun _ => True).
Proof.
  intros h u h' _ H. unfold set_priv in H.
  destruct (nth_error (tensors h) t) as [[q |] |]; try discriminate.
  destruct (upd_nat (tensors h) t (Some p)) as [ts |] eqn:E; [| discriminate].
  inversion H; subst; clear H. split; [| exact I].
  constructor; simpl; intros; auto.
  eapply upd_nat_other; [exact E | assumption].
Qed.

Lemma b_array_store (off : Z) (v : Float32.t) :
  triple (enough_arrays G) (frame_but t G) (array_store t off v) (fun _ => True).
Proof.
  unfold array_store.
  eapply (t_bind _ _ fb_trans fb_pre);
    [apply (t_get_priv _ _ fb_refl) | intros p _].
  destruct (array p); [| apply t_crash].
  eapply (t_bind _ _ fb_trans fb_pre);
    [apply (t_need _ _ fb_refl) | intros b _].
  apply b_set_priv.
Qed.

#[local] Hint Resolve b_garray_new b_garray_write b_g_array_copy b_set_priv
  b_array_store : triples.

Ltac bp := tp fb_refl fb_trans fb_pre.

Lemma b_pad_last_as_float (p : nat) :
  (G <= p)%nat ->
  triple (enough_arrays G) (frame_but t G) (pad_last_as_float p) (fun _ => True).
Proof. intros Hp. unfold pad_last_as_float. bp. Qed.

Lemma b_last_as_float_size (p : nat) :
  triple (enough_arrays G) (frame_but t G) (last_as_float_size p) (fun _ => True).
Proof. unfold last_as_float_size. bp. Qed.

#[local] Hint Resolve b_pad_last_as_float b_last_as_float_size : triples.

Lemma b_alloc_shape (shape_p : nat) :
  triple (enough_arrays G) (frame_but t G)
         (pipevec_tensor_alloc_shape t shape_p) (fun _ => True).
Proof. unfold pipevec_tensor_alloc_shape. bp. Qed.

#[local] Hint Resolve b_alloc_shape : triples.

Lemma b_set_data contents (shape_p : nat) :
  triple (enough_arrays G) (frame_but t G)
         (pipevec_tensor_set_data t contents shape_p) (fun _ => True).
Proof. unfold pipevec_tensor_set_data. bp. Qed.

Lemma b_reshape unspecified (shape_p : nat) :
  triple (enough_arrays G) (frame_but t G)
         (pipevec_tensor_reshape unspecified t shape_p) (fun _ => True).
Proof.
  unfold pipevec_tensor_reshape.
  eapply (t_bind _ _ fb_trans fb_pre);
    [apply (t_get_data _ _ fb_refl fb_trans fb_pre) | intros data _].
  apply b_set_data.
Qed.

End OneTensor.

Lemma stored_same_view (h h' : heap) (t : nat) o :
  same_view t h h' -> stored t h = Some o -> stored t h' = Some o.
Proof.
  intros V Ho. unfold stored in *.
  destruct (stored_state t h) as [a h1 |] eqn:E; [| discriminate].
  simpl in Ho. inversion Ho; subst a. clear Ho.
  destruct (ro_stored_state t h h' o h1 V E) as [_ E']. rewrite E'. reflexivity.
Qed.

(** X12.  [set_data] and [reshape] on one tensor leave every other tensor
    as it was: what a tensor [t'] holds (its buffer, its two array
    pointers, the words of its shape and of its padded shape) is the same
    after the call on [t], also when [t'] shares its shape array with [t]
    or with the caller, and whatever [reshape] reads in cells that were
    never written. *)
Theorem set_data_leaves_others
        (h h' : heap) (t t' : nat)
        (o : PipevecTensorPrivate * list Z * list Z) :
  t' <> t ->
  stored t' h = Some o ->
  (forall contents shape_p r,
      pipevec_tensor_set_data t contents shape_p h = Done r h' ->
      stored t' h' = Some o)
  /\ (forall unspecified shape_p r,
         pipevec_tensor_reshape unspecified t shape_p h = Done r h' ->
         stored t' h' = Some o).
Proof.
  intros Hne Ho.
  assert (K : forall (m : M (gresult unit)) r,
             triple (enough_arrays (List.length (garrays h)))
                    (frame_but t (List.length (garrays h))) m (fun _ => True) ->
             m h = Done r h' -> stored t' h' = Some o).
  { intros m r Hm H.
    destruct (Hm h r h' (le_n _) H) as [[Ft Fg _] _].
    eapply stored_same_view; [| exact Ho].
    split; [apply Ft; exact Hne |].
    intros p a Hp. rewrite Fg; [exact Hp |].
    apply nth_error_Some. congruence. }
  split.
  - intros contents shape_p r. apply K. apply b_set_data.
  - intros unspecified shape_p r. apply K. apply b_reshape.
Qed.

Lemma set_data_leaves_others_witness :
  stored 0 wrapped_pair_heap
  = Some ({| array := None; shape := 0%nat; padded_shape := 4%nat |},
          [3; 6148914691236517206], [3; 6148914691236517206])
  /\ stored 0 (store_after (pipevec_tensor_set_data 1 (f32s [7; 9]) 0)
                           wrapped_pair_heap)
     = Some ({| array := None; shape := 0%nat; padded_shape := 4%nat |},
             [3; 6148914691236517206], [3; 6148914691236517206])
  /\ stored 0 (store_after (pipevec_tensor_reshape (fun _ => Float32.zero) 1 1)
                           wrapped_pair_heap)
     = Some ({| array := None; shape := 0%nat; padded_shape := 4%nat |},
             [3; 6148914691236517206], [3; 6148914691236517206])
  /\ stored 0 (store_after (pipevec_tensor_set_data 1 [] 0)
                 (laid_out_heap [[1; 2; 3]; [4; 5; 6]]
                                [[7; 8]; [9; 10]; [11; 12]]))
     = Some ({| array := Some (List.concat (map pad8 [[1; 2; 3]; [4; 5; 6]]));
                shape := 0%nat; padded_shape := 1%nat |},
             [2; 3], [2; 8]).
Proof.
  assert (Ho : stored 0 wrapped_pair_heap
               = Some ({| array := None; shape := 0%nat; padded_shape := 4%nat |},
                       [3; 6148914691236517206], [3; 6148914691236517206]))
    by (vm_compute; reflexivity).
  split; [exact Ho |]. split; [| split].
  - refine (proj1 (set_data_leaves_others wrapped_pair_heap _ 1 0 _ _ Ho)
                  (f32s [7; 9]) 0%nat (Success tt) _).
    + discriminate.
    + vm_compute. reflexivity.
  - refine (proj2 (set_data_leaves_others wrapped_pair_heap _ 1 0 _ _ Ho)
                  (fun _ => Float32.zero) 1%nat (Success tt) _).
    + discriminate.
    + vm_compute. reflexivity.
  - refine (proj1 (set_data_leaves_others
                     (laid_out_heap [[1; 2; 3]; [4; 5; 6]]
                                    [[7; 8]; [9; 10]; [11; 12]])
                     _ 1 0 _ _ _)
                  [] 0%nat (Failure _) _).
    + discriminate.
    + vm_compute. reflexivity.
    + vm_compute. reflexivity.
Defined.

(** ** The shape comparisons *)

Lemma shapes_equal_eq (ls rs : list Z) :
  zlen ls < UINT_MOD ->
  (shapes_equal ls rs = true <-> ls = rs).
Proof.
  intros Hu. pose proof UINT_lt_SIZE as HS.
  unfold shapes_equal, shape_subset_equal.
  assert (Hn : Z.to_nat (size_sub (zlen ls) 0) = List.length ls).
  { unfold size_sub. rewrite size_wrap_small by (unfold zlen in *; lia).
    unfold zlen. lia. }
  rewrite Hn.
  replace (zlen ls <? 0) with false
    by (symmetry; apply Z.ltb_ge; unfold zlen; lia).
  destruct (zlen ls =? zlen rs) eqn:E; simpl.
  - apply Z.eqb_eq in E. unfold zlen in E.
    assert (El : List.length ls = List.length rs) by lia.
    rewrite firstn_all. rewrite El, firstn_all.
    apply forallb_combine_eqb. exact El.
  - apply Z.eqb_neq in E. split; [discriminate |].
    intros ->. congruence.
Qed.

(** X4.  [shapes_equal] is equality of the two shapes, dimension by
    dimension. *)
Theorem shapes_equal_iff (ls rs : list Z) :
  zlen ls < UINT_MOD ->
  (shapes_equal ls rs = true <-> ls = rs).
Proof. exact (shapes_equal_eq ls rs). Qed.

Lemma shapes_equal_iff_witness :
  shapes_equal [2; 3] [2; 3] = true <-> [2; 3] = [2; 3].
Proof. apply (shapes_equal_iff [2; 3] [2; 3]). reflexivity. Defined.

(** X5.  [shape_subset_equal] with the last two axes left out: for shapes of
    rank at least 2 it is equality of the batch axes (in count and in
    values); a shape of rank below 2 is rejected whatever the other one
    is. *)
Theorem shape_subset_equal_leading (ls rs : list Z) :
  zlen ls < UINT_MOD ->
  ((2 <= List.length ls)%nat -> (2 <= List.length rs)%nat ->
   (shape_subset_equal ls rs 2 = true <-> batch_axes ls = batch_axes rs))
  /\ ((List.length ls < 2)%nat -> shape_subset_equal ls rs 2 = false)
  /\ ((List.length rs < 2)%nat -> shape_subset_equal ls rs 2 = false).
Proof.
  intros Hu. split; [| split].
  - intros Hl Hr. apply shape_subset_equal_batch; assumption.
  - intros Hl. unfold shape_subset_equal.
    destruct (negb (zlen ls =? zlen rs)); [reflexivity |].
    replace (zlen ls <? 2) with true; [reflexivity |].
    symmetry. apply Z.ltb_lt. unfold zlen. lia.
  - intros Hr. unfold shape_subset_equal.
    destruct (zlen ls =? zlen rs) eqn:E; simpl; [| reflexivity].
    apply Z.eqb_eq in E.
    replace (zlen ls <? 2) with true; [reflexivity |].
    symmetry. apply Z.ltb_lt. rewrite E. unfold zlen. lia.
Qed.

Lemma shape_subset_equal_leading_witness :
  shape_subset_equal [7; 2; 3] [7; 3; 5] 2 = true
  /\ shape_subset_equal [3] [3] 2 = false.
Proof.
  split.
  - apply (proj1 (shape_subset_equal_leading [7; 2; 3] [7; 3; 5] eq_refl));
      [simpl; lia | simpl; lia | reflexivity].
  - apply (proj1 (proj2 (shape_subset_equal_leading [3] [3] eq_refl))).
    simpl. lia.
Defined.

(** ** The shape formatter and the product *)

(** X3.  [format_size_t_array] writes outside its string vector exactly for
    arrays of fewer than two elements; from two elements on it returns a
    text. *)
Theorem format_size_t_array_defined_iff (l : list Z) :
  zlen l < UINT_MOD ->
  (format_size_t_array l (zlen l) = None <-> (List.length l < 2)%nat).
Proof.
  intros Hu. split.
  - intros Hn. destruct (le_lt_dec 2 (List.length l)) as [H2 | H2]; [| exact H2].
    destruct (format_defined l H2 Hu) as [s Hs]. congruence.
  - intros H2. destruct l as [| x [| y l']]; simpl in H2; try lia.
    + vm_compute. reflexivity.
    + vm_compute. reflexivity.
Qed.

Lemma format_size_t_array_defined_iff_witness :
  format_size_t_array [5] (zlen [5]) = None <-> (List.length [5] < 2)%nat.
Proof. apply (format_size_t_array_defined_iff [5]). reflexivity. Defined.

Lemma plain_product_zero (l : list Z) : In 0 l -> plain_product l = 0.
Proof.
  unfold plain_product. intros Hin. apply in_split in Hin as (l1 & l2 & ->).
  rewrite fold_left_app. cbn [fold_left]. rewrite Z.mul_0_r.
  rewrite fold_mul_init. lia.
Qed.

Lemma array_size_t_product_run (data : list Z) (h : heap) :
  array_size_t_product data (zlen data) h
  = Done (plain_product data mod SIZE_MOD) h.
Proof.
  unfold array_size_t_product. rewrite Z.leb_refl.
  unfold zlen. rewrite Nat2Z.id, firstn_all.
  change 1 with (1 mod SIZE_MOD) at 1. rewrite fold_size_mul_mod.
  reflexivity.
Qed.

(** X2.  [array_size_t_product] over a whole array is the product of its
    elements reduced modulo 2^64; it is 0 as soon as one element is 0, and
    the plain product whenever that fits 64 bits; asked for more elements
    than the array holds, it reads outside it. *)
Theorem array_size_t_product_wraps (data : list Z) (h : heap) :
  array_size_t_product data (zlen data) h
  = Done (plain_product data mod SIZE_MOD) h
  /\ (In 0 data -> array_size_t_product data (zlen data) h = Done 0 h)
  /\ (0 <= plain_product data < SIZE_MOD ->
      array_size_t_product data (zlen data) h = Done (plain_product data) h)
  /\ (forall len, zlen data < len ->
                  array_size_t_product data len h = Crash OutOfBounds).
Proof.
  pose proof (array_size_t_product_run data h) as E.
  split; [exact E |]. split; [| split].
  - intros H0. rewrite E, (plain_product_zero _ H0). reflexivity.
  - intros Hb. rewrite E, Z.mod_small by exact Hb. reflexivity.
  - intros len Hlen. unfold array_size_t_product.
    replace (len <=? zlen data) with false; [reflexivity |].
    symmetry. apply Z.leb_gt. exact Hlen.
Qed.

Lemma array_size_t_product_wraps_witness :
  array_size_t_product [4294967296; 4294967296] 2 (caller_heap [])
  = Done 0 (caller_heap [])
  /\ array_size_t_product [2; 0; 3] 3 (caller_heap []) = Done 0 (caller_heap [])
  /\ array_size_t_product [2; 3] 2 (caller_heap []) = Done 6 (caller_heap [])
  /\ array_size_t_product [2; 3] 3 (caller_heap []) = Crash OutOfBounds.
Proof.
  split; [exact (proj1 (array_size_t_product_wraps [4294967296; 4294967296] _)) |].
  split.
  - apply (proj1 (proj2 (array_size_t_product_wraps [2; 0; 3] (caller_heap [])))).
    simpl. auto.
  - split.
    + apply (proj1 (proj2 (proj2 (array_size_t_product_wraps [2; 3] (caller_heap []))))).
      vm_compute. split; [discriminate | reflexivity].
    + apply (proj2 (proj2 (proj2 (array_size_t_product_wraps [2; 3] (caller_heap []))))).
      reflexivity.
Defined.

(** ** What a successful [set_data] amounts to *)

Lemma for_loop_unchanged (Q : heap -> Prop) (body : Z -> M unit) :
  (forall i h1 u h2, Q h1 -> body i h1 = Done u h2 -> h2 = h1) ->
  forall n i h u h', Q h -> for_loop n i body h = Done u h' -> h' = h.
Proof.
  intros Hb. induction n as [| n IH]; intros i h u h' HQ H; simpl in H.
  - inversion H; reflexivity.
  - apply bind_Done in H as (u1 & h1 & H1 & H).
    pose proof (Hb _ _ _ _ HQ H1) as ->. eapply IH; eassumption.
Qed.

Lemma for_loop_blocked (Q : heap -> Prop) (body : Z -> M unit) :
  (forall i h1 u h2, Q h1 -> body i h1 <> Done u h2) ->
  forall n i h u h', Q h -> for_loop n i body h = Done u h' ->
                     n = 0%nat /\ h' = h.
Proof.
  intros Hb [| n] i h u h' HQ H; simpl in H.
  - inversion H; auto.
  - apply bind_Done in H as (u1 & h1 & H1 & _).
    exfalso. eapply Hb; eassumption.
Qed.

Lemma store_blocked (t : nat) (m : M Float32.t) (off : Z) h1 u h2 :
  buffer_is_null t h1 ->
  (forall v h3, m h1 = Done v h3 -> h3 = h1) ->
  bind m (fun v => array_store t off v) h1 <> Done u h2.
Proof.
  intros (priv & Ht & Ha) Hm H.
  apply bind_Done in H as (v & h3 & Hv & Hs).
  pose proof (Hm _ _ Hv) as ->.
  rewrite (array_store_null _ _ _ _ _ Ht Ha) in Hs. discriminate Hs.
Qed.

Lemma last_dimension (dims : list Z) (last : Z) :
  zlen dims < UINT_MOD ->
  zth dims (guint_sub (zlen dims) 1) = Some last ->
  dims <> [] /\ last = nth (List.length dims - 1) dims 0.
Proof.
  intros Hu H. destruct dims as [| d ds].
  - rewrite zth_nil in H. discriminate.
  - split; [discriminate |].
    assert (Hz : zlen (d :: ds) = Z.of_nat (List.length ds) + 1)
      by (unfold zlen; cbn [List.length]; lia).
    unfold guint_sub in H. rewrite Z.mod_small in H by lia.
    rewrite zth_nth in H by lia.
    rewrite Hz in H.
    replace (Z.to_nat (Z.of_nat (List.length ds) + 1 - 1))
      with (List.length (d :: ds) - 1)%nat in H
      by (cbn [List.length]; lia).
    congruence.
Qed.

Lemma set_data_success_facts
        (h h' : heap) (t p : nat) (dims : list Z)
        (contents : list Float32.t) (u : unit) :
  nth_error (garrays h) p = Some dims ->
  Forall (fun d => 0 <= d) dims ->
  zlen dims < UINT_MOD ->
  pipevec_tensor_set_data t contents p h = Done (Success u) h' ->
  pipevec_tensor_alloc_shape t p h = Done (Success tt) h'
  /\ (exists ps, nth_error (tensors h') t
                 = Some (Some {| array := None; shape := p;
                                 padded_shape := ps |}))
  /\ nth_error (garrays h') p = Some dims
  /\ plain_product dims mod SIZE_MOD = zlen contents
  /\ (plain_product dims mod SIZE_MOD) / nth (List.length dims - 1) dims 0 = 0.
Proof.
  intros Hp Hnn Hu H.
  pose proof (array_size_t_product_run dims h) as HP.
  unfold pipevec_tensor_set_data in H.
  rewrite (bind_run _ _ _ _ _ (garray_read_run _ _ _ Hp)) in H.
  rewrite (bind_run _ _ _ _ _ HP) in H.
  set (P := plain_product dims mod SIZE_MOD) in *.
  destruct (P =? zlen contents) eqn:EP; cbn [negb] in H.
  2:{ apply bind_Done in H as (s & h1 & _ & H). discriminate H. }
  apply Z.eqb_eq in EP.
  apply bind_Done in H as (r0 & ha & Ha & H).
  destruct r0 as [[] | e]; [| discriminate H].
  pose proof (alloc_shape_null_buffer _ _ _ _ _ Ha) as [ps Hps].
  apply bind_Done in H as (last & h1 & H1 & H).
  apply need_Done in H1 as [Hlast ->].
  destruct (last =? 0) eqn:E0; [discriminate H |].
  apply Z.eqb_neq in E0.
  apply bind_Done in H as (priv & h2 & H2 & H).
  apply get_priv_Done in H2 as [_ ->].
  apply bind_Done in H as (isp & h3 & H3 & H).
  apply last_as_float_size_Done in H3 as ->.
  apply bind_Done in H as (u1 & h4 & Hloop & H).
  assert (Hh4 : h4 = h') by (inversion H; reflexivity).
  subst h4. clear H.
  destruct (last_dimension dims last Hu Hlast) as [Hd Hlast'].
  assert (Hlpos : 0 < last).
  { rewrite Forall_forall in Hnn.
    assert (0 <= last); [| lia].
    rewrite Hlast'. apply Hnn. apply nth_In.
    destruct dims; [congruence | simpl; lia]. }
  assert (HQ : buffer_is_null t ha) by (eexists; split; [exact Hps | reflexivity]).
  assert (Hbody : forall i h1 u0 h2,
             buffer_is_null t h1 ->
             (for_range 0 last
                (fun j =>
                   v <- need (zth contents (size_add (size_mul i last) j))
                             OutOfBounds ;;
                   array_store t (size_add (size_mul i isp) j) v) ;;;
              for_range last isp
                (fun j => array_store t (size_add (size_mul i isp) j)
                                      Float32.zero)) h1
             <> Done u0 h2).
  { intros i h1 u0 h2 HQ1 Hb.
    apply bind_Done in Hb as (u2 & h5 & Hin & _).
    unfold for_range in Hin.
    apply (for_loop_blocked (buffer_is_null t)) in Hin as [Hz _];
      [lia | | exact HQ1].
    intros j h6 u3 h7 HQ6. apply store_blocked; [exact HQ6 |].
    intros v h8 Hv. apply need_Done in Hv as [_ ->]. reflexivity. }
  unfold for_range in Hloop.
  apply (for_loop_blocked (buffer_is_null t) _ Hbody) in Hloop as [Hz Hh];
    [| exact HQ].
  subst h'.
  assert (HPnn : 0 <= P) by (apply Z.mod_pos_bound; reflexivity).
  assert (Hlead : P / last = 0).
  { pose proof (Z.div_pos P last HPnn Hlpos). lia. }
  split; [exact Ha |]. split; [exists ps; exact Hps |].
  split; [| split; [exact EP | rewrite <- Hlast'; exact Hlead]].
  destruct (b_alloc_shape t (List.length (garrays h)) p h (Success tt) ha
              (le_n _) Ha) as [[_ Fg _] _].
  rewrite Fg; [exact Hp |]. apply nth_error_Some. congruence.
Qed.

(** X9.  The loops of a [set_data] that has succeeded ran no iteration that
    stores: the call has done what [alloc_shape] does and nothing more;
    the tensor holds the caller's shape array itself, a padded-shape array
    of its own and no buffer; and the shape had no row to copy (its
    wrapped product is smaller than its last dimension). *)
Theorem set_data_success_is_alloc
        (h h' : heap) (t p : nat) (dims : list Z)
        (contents : list Float32.t) (u : unit) :
  nth_error (garrays h) p = Some dims ->
  Forall (fun d => 0 <= d) dims ->
  zlen dims < UINT_MOD ->
  pipevec_tensor_set_data t contents p h = Done (Success u) h' ->
  pipevec_tensor_alloc_shape t p h = Done (Success tt) h'
  /\ (exists ps, nth_error (tensors h') t
                 = Some (Some {| array := None; shape := p;
                                 padded_shape := ps |}))
  /\ nth_error (garrays h') p = Some dims
  /\ plain_product dims mod SIZE_MOD = zlen contents
  /\ (plain_product dims mod SIZE_MOD) / nth (List.length dims - 1) dims 0 = 0.
Proof. exact (set_data_success_facts h h' t p dims contents u). Qed.

Lemma set_data_success_is_alloc_witness :
  pipevec_tensor_alloc_shape 0 0
    (store_after g_object_new (caller_heap [[0; 3]; [0; 2]]))
  = Done (Success tt) empty_rows_heap.
Proof.
  refine (proj1 (set_data_success_is_alloc
                   (store_after g_object_new (caller_heap [[0; 3]; [0; 2]]))
                   empty_rows_heap 0 0 [0; 3] [] tt _ _ _ _)).
  - reflexivity.
  - repeat constructor; lia.
  - reflexivity.
  - vm_compute. reflexivity.
Defined.

(** X10.  After a successful [set_data], [get_data] on the same tensor
    returns without reading the buffer (there is none): its result has
    as many cells as the contents had, counted as a [guint], and none of
    them was written.  For contents whose length fits a [guint], as every
    [GArray]'s does, that is as many cells as the contents had. *)
Theorem get_data_after_set_data
        (h h' : heap) (t p : nat) (dims : list Z)
        (contents : list Float32.t) (u : unit) :
  nth_error (garrays h) p = Some dims ->
  Forall (fun d => 0 <= d) dims ->
  zlen dims < UINT_MOD ->
  pipevec_tensor_set_data t contents p h = Done (Success u) h' ->
  buffer_of t h' = Done None h'
  /\ exists v, pipevec_tensor_get_data t h' = Done v h'
               /\ v = repeat None (Z.to_nat (zlen contents mod UINT_MOD))
               /\ (zlen contents < UINT_MOD ->
                   List.length v = List.length contents).
Proof.
  intros Hp Hnn Hu H.
  destruct (set_data_success_facts h h' t p dims contents u Hp Hnn Hu H)
    as (Ha & [ps Hps] & Hp' & HP & Hlead).
  split.
  { unfold buffer_of. rewrite (bind_run _ _ _ _ _ (get_priv_run _ _ _ Hps)).
    reflexivity. }
  unfold pipevec_tensor_get_data.
  rewrite (bind_run _ _ _ _ _ (get_priv_run _ _ _ Hps)). cbn [shape].
  rewrite (bind_run _ _ _ _ _ (garray_read_run _ _ _ Hp')).
  rewrite (bind_run _ _ _ _ _ (array_size_t_product_run dims h')).
  (* the last dimension is there and is not zero: alloc_shape divided by it *)
  unfold pipevec_tensor_alloc_shape in Ha.
  rewrite (bind_run _ _ _ _ _ (garray_read_run _ _ _ Hp)) in Ha.
  rewrite (bind_run _ _ _ _ _ (array_size_t_product_run dims h)) in Ha.
  apply bind_Done in Ha as (last & h1 & H1 & Ha).
  apply need_Done in H1 as [Hlast ->].
  destruct (last =? 0) eqn:E0; [discriminate Ha |].
  rewrite Hlast. cbn [need]. unfold ret at 1, bind at 1. rewrite E0.
  destruct (last_dimension dims last Hu Hlast) as [_ Hlast'].
  rewrite <- Hlast' in Hlead. rewrite Hlead. cbn [Z.to_nat for_fold].
  eexists. split; [reflexivity |]. rewrite HP.
  split; [reflexivity |].
  intros Hc. rewrite repeat_length.
  rewrite Z.mod_small by (unfold zlen in *; lia). unfold zlen. lia.
Qed.

Lemma get_data_after_set_data_witness :
  buffer_of 0 wrapped_rows_heap = Done None wrapped_rows_heap
  /\ exists v, pipevec_tensor_get_data 0 wrapped_rows_heap
               = Done v wrapped_rows_heap
               /\ v = repeat None (Z.to_nat (zlen (f32s [7; 9]) mod UINT_MOD))
               /\ (zlen (f32s [7; 9]) < UINT_MOD ->
                   List.length v = List.length (f32s [7; 9])).
Proof.
  refine (get_data_after_set_data
            (store_after g_object_new (caller_heap [[3; 6148914691236517206]]))
            wrapped_rows_heap 0 0 [3; 6148914691236517206] (f32s [7; 9]) tt
            _ _ _ _).
  - reflexivity.
  - repeat constructor; lia.
  - reflexivity.
  - vm_compute. reflexivity.
Defined.

(** X11.  The tensor keeps the caller's shape array itself, not a copy: after a
    successful [set_data] the tensor's shape is read from that array, and
    whatever the caller writes into the array afterwards is what the
    tensor shows as its shape. *)
Theorem set_data_shares_shape_array
        (h h' h'' : heap) (t p : nat) (dims dims' : list Z)
        (contents : list Float32.t) (u : unit) :
  nth_error (garrays h) p = Some dims ->
  Forall (fun d => 0 <= d) dims ->
  zlen dims < UINT_MOD ->
  pipevec_tensor_set_data t contents p h = Done (Success u) h' ->
  garray_write p dims' h' = Done tt h'' ->
  shape_of t h' = Done dims h' /\ shape_of t h'' = Done dims' h''.
Proof.
  intros Hp Hnn Hu H Hw.
  destruct (set_data_success_facts h h' t p dims contents u Hp Hnn Hu H)
    as (_ & [ps Hps] & Hp' & _).
  split.
  - unfold shape_of. rewrite (bind_run _ _ _ _ _ (get_priv_run _ _ _ Hps)).
    apply garray_read_run. exact Hp'.
  - pose proof (garray_write_tensors _ _ _ _ _ Hw) as Ht.
    assert (Hg : nth_error (garrays h'') p = Some dims').
    { unfold garray_write in Hw.
      destruct (upd_nat (garrays h') p dims') as [g |] eqn:E; [| discriminate].
      inversion Hw; subst h''. simpl. eapply upd_nat_nth. exact E. }
    rewrite <- Ht in Hps. unfold shape_of.
    rewrite (bind_run _ _ _ _ _ (get_priv_run _ _ _ Hps)). cbn [shape].
    apply garray_read_run. exact Hg.
Qed.

Lemma set_data_shares_shape_array_witness :
  shape_of 0 empty_rows_heap = Done [0; 3] empty_rows_heap
  /\ shape_of 0 (store_after (garray_write 0 [7; 7; 7]) empty_rows_heap)
     = Done [7; 7; 7] (store_after (garray_write 0 [7; 7; 7]) empty_rows_heap).
Proof.
  refine (set_data_shares_shape_array
            (store_after g_object_new (caller_heap [[0; 3]; [0; 2]]))
            empty_rows_heap _ 0 0 [0; 3] [7; 7; 7] [] tt _ _ _ _ _).
  - reflexivity.
  - repeat constructor; lia.
  - reflexivity.
  - vm_compute. reflexivity.
  - vm_compute. reflexivity.
Defined.

(** ** The padded shape that [alloc_shape] leaves *)

Lemma garray_new_Done a h p h' :
  garray_new a h = Done p h' ->
  p = List.length (garrays h)
  /\ garrays h' = garrays h ++ [a] /\ tensors h' = tensors h.
Proof. intros H. inversion H; subst. simpl. auto. Qed.

(** X6.  For every rank-2 shape (a, b) whose first dimension is below 2^32, a
    successful [alloc_shape] leaves the tensor with a padded shape equal
    to the shape: the last dimension is not rounded up. *)
Theorem alloc_shape_rank2_not_padded
        (h h' : heap) (t p : nat) (a b : Z) (u : unit) :
  nth_error (garrays h) p = Some [a; b] ->
  0 <= a < UINT_MOD ->
  pipevec_tensor_alloc_shape t p h = Done (Success u) h' ->
  padded_shape_of t h' = Done [a; b] h'.
Proof.
  intros Hp Ha H. unfold pipevec_tensor_alloc_shape in H.
  apply bind_Done in H as (sd & h1 & H1 & H).
  apply garray_read_Done in H1 as [H1 ->].
  apply bind_Done in H as (sp & h2 & H2 & H).
  assert (Hh2 : h2 = h).
  { unfold array_size_t_product in H2.
    destruct (zlen sd <=? zlen sd); [| discriminate H2].
    inversion H2; reflexivity. }
  subst h2. clear H2.
  apply bind_Done in H as (last & h3 & H3 & H).
  apply need_Done in H3 as [_ ->].
  destruct (last =? 0); [discriminate |].
  apply bind_Done in H as (ok & h4 & H4 & H).
  assert (Hh4 : h4 = h) by (inversion H4; reflexivity).
  subst h4. clear H4.
  destruct (negb _); [discriminate |].
  apply bind_Done in H as (q & h5 & H5 & H).
  apply get_priv_Done in H5 as [_ ->].
  apply bind_Done in H as (ps & h6 & H6 & H).
  unfold g_array_copy in H6.
  rewrite (bind_run _ _ _ _ _ (garray_read_run _ _ _ H1)) in H6.
  apply garray_new_Done in H6 as (Hps & Hg6 & Ht6).
  apply bind_Done in H as (u1 & h7 & H7 & H).
  apply set_priv_Done in H7 as [Ht7 Hg7].
  apply bind_Done in H as (u2 & h8 & H8 & H).
  assert (Hh8 : h8 = h') by (inversion H; reflexivity).
  subst h8. clear H.
  assert (Hps7 : nth_error (garrays h7) ps = Some [a; b]).
  { rewrite Hg7, Hg6, Hps. rewrite nth_error_app2 by lia.
    rewrite Nat.sub_diag. simpl. congruence. }
  destruct (pad_last_as_float_rank2 h7 ps a b Hps7 Ha) as (hx & Hrun & Hres).
  rewrite Hrun in H8.
  assert (Hhx : hx = h') by (inversion H8; reflexivity).
  subst hx. clear H8.
  pose proof (pad_last_as_float_tensors _ _ _ _ Hrun) as Ht8.
  unfold padded_shape_of.
  assert (Hpriv : nth_error (tensors h') t
                  = Some (Some {| array := None; shape := p;
                                  padded_shape := ps |}))
    by (rewrite Ht8; exact Ht7).
  rewrite (bind_run _ _ _ _ _ (get_priv_run _ _ _ Hpriv)).
  apply garray_read_run. exact Hres.
Qed.

Lemma alloc_shape_rank2_not_padded_witness :
  padded_shape_of 0
    (store_after (pipevec_tensor_alloc_shape 0 0)
                 (store_after g_object_new (caller_heap [[2; 3]])))
  = Done [2; 3]
         (store_after (pipevec_tensor_alloc_shape 0 0)
                      (store_after g_object_new (caller_heap [[2; 3]]))).
Proof.
  refine (alloc_shape_rank2_not_padded
            (store_after g_object_new (caller_heap [[2; 3]])) _ 0 0 2 3 tt _ _ _).
  - reflexivity.
  - split; [lia | reflexivity].
  - vm_compute. reflexivity.
Defined.

(** ** [new] hands back a tensor that is already finalized *)

Lemma g_object_unref_Done t h u h' :
  g_object_unref t h = Done u h' ->
  nth_error (tensors h') t = Some None /\ garrays h' = garrays h.
Proof.
  unfold g_object_unref. intros H.
  apply bind_Done in H as (p & h1 & Hp & H).
  apply get_priv_Done in Hp as [_ ->].
  destruct (upd_nat (tensors h) t None) as [ts |] eqn:E; [| discriminate].
  inversion H; subst; clear H. simpl. split; [| reflexivity].
  eapply upd_nat_nth. exact E.
Qed.

(** X21.  Whenever [pipevec_tensor_new] returns, the tensor object it created
    has been finalized: on success the handle it returns names a released
    object, and [get_data], [copy], [reshape] on that handle are uses
    after free. *)
Theorem new_returns_finalized
        (h h' : heap) (shape_p : nat) (contents : list Float32.t)
        (r : gresult nat) :
  pipevec_tensor_new shape_p contents h = Done r h' ->
  nth_error (tensors h') (List.length (tensors h)) = Some None
  /\ forall t, r = Success t ->
               t = List.length (tensors h)
               /\ pipevec_tensor_get_data t h' = Crash UseAfterFree
               /\ (forall unspecified p,
                      pipevec_tensor_reshape unspecified t p h'
                      = Crash UseAfterFree)
               /\ buffer_of t h' = Crash UseAfterFree.
Proof.
  intros H. unfold pipevec_tensor_new in H.
  rewrite (bind_run _ _ _ _ _ (g_object_new_run h)) in H.
  apply bind_Done in H as (r0 & h1 & _ & H).
  assert (Hfin : nth_error (tensors h') (List.length (tensors h)) = Some None
                 /\ forall t, r = Success t -> t = List.length (tensors h)).
  { destruct r0 as [[] | e];
      apply bind_Done in H as (u1 & h2 & Hu & H);
      apply g_object_unref_Done in Hu as [Hu _];
      inversion H; subst; clear H;
      (split; [exact Hu | intros t Ht; inversion Ht; reflexivity]). }
  destruct Hfin as [Hnone Ht]. split; [exact Hnone |].
  intros t Hr. pose proof (Ht t Hr) as ->.
  assert (Hg : get_priv (List.length (tensors h)) h' = Crash UseAfterFree)
    by (unfold get_priv; rewrite Hnone; reflexivity).
  repeat split.
  - unfold pipevec_tensor_get_data. apply bind_crash. exact Hg.
  - intros unspecified p.
    unfold pipevec_tensor_reshape, pipevec_tensor_get_data.
    apply bind_crash. apply bind_crash. exact Hg.
  - unfold buffer_of. apply bind_crash. exact Hg.
Qed.

Lemma new_returns_finalized_witness :
  exists h', pipevec_tensor_new 0 [] (caller_heap [[0; 3]]) = Done (Success 0%nat) h'
             /\ pipevec_tensor_get_data 0 h' = Crash UseAfterFree.
Proof.
  eexists. split; [vm_compute; reflexivity |].
  refine (proj1 (proj2 (proj2 (new_returns_finalized
                                 (caller_heap [[0; 3]]) _ 0 [] (Success 0%nat) _)
                              0%nat eq_refl))).
  vm_compute. reflexivity.
Defined.

(** ** Copies, and what starts from a copy, cannot succeed on data *)

Lemma set_data_aligned_padded_fails tensor shape_p data n h r h' :
  size_mul 4 n <> 0 ->
  pipevec_tensor_set_data_aligned_padded tensor shape_p data n h = Done r h' ->
  exists e, r = Failure e.
Proof.
  intros Hn H. unfold pipevec_tensor_set_data_aligned_padded in H.
  apply bind_Done in H as (r0 & ha & Ha & H).
  destruct r0 as [[] | e].
  - exfalso. cbv zeta in H.
    replace (size_mul 4 n =? 0) with false in H
      by (symmetry; apply Z.eqb_neq; exact Hn).
    apply alloc_shape_null_buffer in Ha as [ps Hps].
    rewrite (bind_run _ _ _ _ _ (get_priv_run _ _ _ Hps)) in H.
    discriminate H.
  - inversion H. eexists. reflexivity.
Qed.

Lemma copy_fails (h : heap) (t : nat) (priv : PipevecTensorPrivate)
      (pd : list Z) r h' :
  nth_error (tensors h) t = Some (Some priv) ->
  nth_error (garrays h) (padded_shape priv) = Some pd ->
  size_mul 4 (plain_product pd mod SIZE_MOD) <> 0 ->
  pipevec_tensor_copy t h = Done r h' -> exists e, r = Failure e.
Proof.
  intros Ht Hpd Hn H. unfold pipevec_tensor_copy in H.
  rewrite (bind_run _ _ _ _ _ (g_object_new_run h)) in H.
  set (h2 := {| garrays := _; tensors := _; mem_limit := _ |}) in H.
  assert (Ht2 : nth_error (tensors h2) t = Some (Some priv))
    by (apply nth_error_app_Some; exact Ht).
  assert (Hp2 : nth_error (garrays h2) (padded_shape priv) = Some pd)
    by (unfold h2; simpl; do 2 apply nth_error_app_Some; exact Hpd).
  rewrite (bind_run _ _ _ _ _ (get_priv_run _ _ _ Ht2)) in H.
  rewrite (bind_run _ _ _ _ _ (garray_read_run _ _ _ Hp2)) in H.
  rewrite (bind_run _ _ _ _ _ (array_size_t_product_run pd h2)) in H.
  apply bind_Done in H as (r0 & h3 & H3 & H).
  apply (set_data_aligned_padded_fails _ _ _ _ _ _ _ Hn) in H3 as [e ->].
  apply bind_Done in H as (u & h4 & _ & H).
  inversion H. eexists. reflexivity.
Qed.

(** X15.  A tensor whose padded shape describes at least one cell cannot be
    copied, and nothing that starts from a copy of it succeeds: [copy],
    [map], the scalar operations and the elementwise operations with it as
    left operand never return a tensor.  The copy is written through the
    buffer pointer of the new tensor, which is [NULL]. *)
Theorem copy_never_succeeds
        (h : heap) (t : nat) (priv : PipevecTensorPrivate) (pd : list Z) :
  nth_error (tensors h) t = Some (Some priv) ->
  nth_error (garrays h) (padded_shape priv) = Some pd ->
  size_mul 4 (plain_product pd mod SIZE_MOD) <> 0 ->
  (forall c h', pipevec_tensor_copy t h <> Done (Success c) h')
  /\ (forall f c h', pipevec_tensor_map t f h <> Done (Success c) h')
  /\ (forall s f c h',
         pipevec_tensor_do_scalar_op t s f h <> Done (Success c) h')
  /\ (forall rhs f c h',
         pipevec_tensor_do_elementwise_op t rhs f h <> Done (Success c) h').
Proof.
  intros Ht Hpd Hn.
  assert (Hcopy : forall c h', pipevec_tensor_copy t h <> Done (Success c) h').
  { intros c h' H. destruct (copy_fails _ _ _ _ _ _ Ht Hpd Hn H) as [e He].
    discriminate He. }
  split; [exact Hcopy |]. split; [| split].
  - intros f c h' H. unfold pipevec_tensor_map in H.
    apply bind_Done in H as (r & h1 & Hc & H).
    destruct r as [dst | e]; [exact (Hcopy _ _ Hc) | discriminate H].
  - intros s f c h' H. unfold pipevec_tensor_do_scalar_op in H.
    rewrite (bind_run _ _ _ _ _ (get_priv_run _ _ _ Ht)) in H.
    apply bind_Done in H as (r & h1 & Hc & H).
    destruct r as [dst | e]; [exact (Hcopy _ _ Hc) | discriminate H].
  - intros rhs f c h' H. unfold pipevec_tensor_do_elementwise_op in H.
    rewrite (bind_run _ _ _ _ _ (get_priv_run _ _ _ Ht)) in H.
    apply bind_Done in H as (rp & h1 & H1 & H).
    apply get_priv_Done in H1 as [_ ->].
    apply bind_Done in H as (ls & h2 & H2 & H).
    apply garray_read_Done in H2 as [_ ->].
    apply bind_Done in H as (rs & h3 & H3 & H).
    apply garray_read_Done in H3 as [_ ->].
    apply bind_Done in H as (ck & h4 & H4 & H).
    assert (Hh4 : h4 = h).
    { unfold check_shapes_elementwise in H4.
      destruct (negb (shapes_equal ls rs)).
      - apply bind_Done in H4 as (s1 & h5 & E1 & H4).
        apply need_Done in E1 as [_ ->].
        apply bind_Done in H4 as (s2 & h6 & E2 & H4).
        apply need_Done in E2 as [_ ->].
        inversion H4. reflexivity.
      - inversion H4. reflexivity. }
    subst h4. destruct ck as [[] | e]; [| discriminate H].
    apply bind_Done in H as (r & h5 & Hc & H).
    destruct r as [dst | e]; [exact (Hcopy _ _ Hc) | discriminate H].
Qed.

Lemma copy_never_succeeds_witness :
  ~ exists c h',
      pipevec_tensor_copy 0
        (laid_out_heap [[1; 2; 3]; [4; 5; 6]] [[7; 8]; [9; 10]; [11; 12]])
      = Done (Success c) h'.
Proof.
  intros (c & h' & H). revert H.
  refine (proj1 (copy_never_succeeds
                   (laid_out_heap [[1; 2; 3]; [4; 5; 6]]
                                  [[7; 8]; [9; 10]; [11; 12]])
                   0 _ [2; 8] _ _ _) c h').
  - reflexivity.
  - reflexivity.
  - vm_compute. discriminate.
Defined.

(** ** Elementwise operations reject unequal shapes *)

(** X17.  For operands of rank at least 2 whose shapes differ (in rank or in
    any dimension), every elementwise operation -- addition, subtraction,
    product, quotient: whatever the element function -- fails with
    [PIPEVEC_ERROR_BAD_SHAPE], produces no tensor and leaves the store as
    it was. *)
Theorem elementwise_shape_mismatch
        (h : heap) (lhs rhs : nat) (lp rp : PipevecTensorPrivate)
        (ls rs : list Z) (func : PipevecTensorElementwiseFunc) :
  nth_error (tensors h) lhs = Some (Some lp) ->
  nth_error (tensors h) rhs = Some (Some rp) ->
  nth_error (garrays h) (shape lp) = Some ls ->
  nth_error (garrays h) (shape rp) = Some rs ->
  (2 <= List.length ls)%nat -> (2 <= List.length rs)%nat ->
  zlen ls < UINT_MOD -> zlen rs < UINT_MOD ->
  ls <> rs ->
  pipevec_tensor_do_elementwise_op lhs rhs func h
  = Done (Failure (Some {| code := PIPEVEC_ERROR_BAD_SHAPE;
                           message := ("Expected shapes " ++ formatted ls
                                       ++ " and " ++ formatted rs
                                       ++ " to be equal")%string |}))
         h.
Proof.
  intros Hl Hr Hls Hrs H2l H2r Hul Hur Hne.
  unfold pipevec_tensor_do_elementwise_op.
  rewrite (bind_run _ _ _ _ _ (get_priv_run _ _ _ Hl)).
  rewrite (bind_run _ _ _ _ _ (get_priv_run _ _ _ Hr)).
  rewrite (bind_run _ _ _ _ _ (garray_read_run _ _ _ Hls)).
  rewrite (bind_run _ _ _ _ _ (garray_read_run _ _ _ Hrs)).
  assert (Hck : check_shapes_elementwise ls rs h
                = Done (Failure (Some {| code := PIPEVEC_ERROR_BAD_SHAPE;
                                         message := ("Expected shapes "
                                                     ++ formatted ls ++ " and "
                                                     ++ formatted rs
                                                     ++ " to be equal")%string |}))
                       h).
  { unfold check_shapes_elementwise.
    destruct (shapes_equal ls rs) eqn:E.
    - exfalso. apply Hne. apply (shapes_equal_eq ls rs Hul). exact E.
    - cbn [negb]. rewrite need_formatted by assumption.
      rewrite need_formatted by assumption. reflexivity. }
  rewrite (bind_run _ _ _ _ _ Hck). reflexivity.
Qed.

Lemma elementwise_shape_mismatch_witness :
  pipevec_tensor_sub_tensor 0 1 empty_batches_heap
  = Done (Failure (Some {| code := PIPEVEC_ERROR_BAD_SHAPE;
                           message := ("Expected shapes " ++ formatted [0; 2; 3]
                                       ++ " and " ++ formatted [5; 0; 3]
                                       ++ " to be equal")%string |}))
         empty_batches_heap.
Proof.
  refine (elementwise_shape_mismatch
            empty_batches_heap 0 1
            {| array := None; shape := 0; padded_shape := 4 |}
            {| array := None; shape := 1; padded_shape := 7 |}
            [0; 2; 3] [5; 0; 3] sub _ _ _ _ _ _ _ _ _);
    try reflexivity; try (simpl; lia).
  discriminate.
Defined.

(** ** [reshape] *)

Lemma get_data_Done_same (t : nat) h v h' :
  pipevec_tensor_get_data t h = Done v h' -> h' = h.
Proof.
  intros H.
  assert (V : same_view t h h) by (split; auto).
  destruct (ro_get_data t h h v h' V H) as [-> _]. reflexivity.
Qed.

Lemma read_cells_from_length unspecified (cells : list (option Float32.t)) :
  forall k, List.length (read_cells_from unspecified k cells) = List.length cells.
Proof.
  induction cells as [| c cs IH]; intros k; simpl; [reflexivity |].
  rewrite IH. reflexivity.
Qed.

Lemma zlen_read_cells unspecified (cells : list (option Float32.t)) :
  zlen (read_cells unspecified cells) = zlen cells.
Proof.
  unfold zlen, read_cells. rewrite read_cells_from_length. reflexivity.
Qed.

(** X13.  [reshape] is [set_data] with the cells [get_data] returns: when
    the tensor can be read and the new shape (of rank at least 2) has a
    product different from the number of cells of the array [get_data]
    returns (a [guint]), [reshape] fails with [PIPEVEC_ERROR_BAD_SHAPE]
    and the store, the tensor included, is as before, whatever the cells
    that were never written read as. *)
Theorem reshape_bad_shape
        (h : heap) (t shape_p : nat) (dims : list Z)
        (v : list (option Float32.t)) (unspecified : Z -> Float32.t) :
  pipevec_tensor_get_data t h = Done v h ->
  nth_error (garrays h) shape_p = Some dims ->
  (2 <= List.length dims)%nat -> zlen dims < UINT_MOD ->
  fold_left size_mul dims 1 <> zlen v ->
  pipevec_tensor_reshape unspecified t shape_p h
  = Done (Failure (Some {| code := PIPEVEC_ERROR_BAD_SHAPE;
                           message := ("Shape " ++ formatted dims
                                       ++ " has product "
                                       ++ fmt_zu (fold_left size_mul dims 1)
                                       ++ " which does not match array length "
                                       ++ fmt_zu (zlen dims) ++ "i")%string |}))
         h.
Proof.
  intros Hg Hp H2 Hu Hne. unfold pipevec_tensor_reshape.
  rewrite (bind_run _ _ _ _ _ Hg).
  apply (proj1 (set_data_bad_shape_cases h t shape_p dims
                  (read_cells unspecified v) Hp H2 Hu)).
  rewrite zlen_read_cells. exact Hne.
Qed.

Lemma reshape_bad_shape_witness :
  pipevec_tensor_get_data 0 wrapped_pair_heap
  = Done [None; None] wrapped_pair_heap
  /\ pipevec_tensor_reshape (fun _ => Float32.zero) 0 1 wrapped_pair_heap
     = Done (Failure (Some {| code := PIPEVEC_ERROR_BAD_SHAPE;
                              message := ("Shape " ++ formatted [0; 3]
                                          ++ " has product "
                                          ++ fmt_zu (fold_left size_mul [0; 3] 1)
                                          ++ " which does not match array length "
                                          ++ fmt_zu (zlen [0; 3]) ++ "i")%string |}))
            wrapped_pair_heap.
Proof.
  assert (Hg : pipevec_tensor_get_data 0 wrapped_pair_heap
               = Done [None; None] wrapped_pair_heap)
    by (vm_compute; reflexivity).
  split; [exact Hg |].
  refine (reshape_bad_shape wrapped_pair_heap 0 1 [0; 3] [None; None]
                            (fun _ => Float32.zero) Hg _ _ _ _).
  - reflexivity.
  - simpl. lia.
  - reflexivity.
  - vm_compute. discriminate.
Defined.

(** The cell count of [get_data] is a [guint]: the tensor of shape
    (2^32, 2^32+1) has the [size_t] product 2^32 and [get_data] returns
    an array of no cell; [reshape] to (0,3) then finds product and count
    equal, succeeds and replaces the shape. *)
Example reshape_after_wrapped_count :
  value (shape_of 2 wide_result_heap) = Some [4294967296; 4294967297]
  /\ value (pipevec_tensor_get_data 2 wide_result_heap) = Some []
  /\ value (pipevec_tensor_reshape (fun _ => Float32.zero) 2 2 wide_result_heap)
     = Some (Success tt)
  /\ value (shape_of 2 (store_after
                          (pipevec_tensor_reshape (fun _ => Float32.zero) 2 2)
                          wide_result_heap))
     = Some [0; 3].
Proof. repeat split; vm_compute; reflexivity. Qed.

(** ** A copy shares the shape array of its source *)

Lemma set_data_aligned_padded_Success tensor shape_p data n h u h' :
  pipevec_tensor_set_data_aligned_padded tensor shape_p data n h
  = Done (Success u) h' ->
  exists ps, nth_error (tensors h') tensor
             = Some (Some {| array := None; shape := shape_p;
                             padded_shape := ps |}).
Proof.
  intros H. unfold pipevec_tensor_set_data_aligned_padded in H.
  apply bind_Done in H as (r0 & ha & Ha & H).
  destruct r0 as [[] | e]; [| discriminate H].
  apply alloc_shape_null_buffer in Ha as [ps Hps]. cbv zeta in H.
  destruct (size_mul 4 n =? 0).
  - assert (Hh : h' = ha) by (inversion H; reflexivity). subst h'.
    exists ps. exact Hps.
  - rewrite (bind_run _ _ _ _ _ (get_priv_run _ _ _ Hps)) in H.
    discriminate H.
Qed.

(** X16.  When [copy] returns a tensor, that tensor is a new object, distinct
    from every earlier one, that holds the very shape array of its source
    (not a copy of it) and no buffer; so both show the same shape. *)
Theorem copy_shares_shape_array
        (h h' : heap) (t c : nat) (priv : PipevecTensorPrivate) :
  nth_error (tensors h) t = Some (Some priv) ->
  pipevec_tensor_copy t h = Done (Success c) h' ->
  c = List.length (tensors h)
  /\ c <> t
  /\ exists ps, nth_error (tensors h') c
                = Some (Some {| array := None; shape := shape priv;
                                padded_shape := ps |}).
Proof.
  intros Ht H. unfold pipevec_tensor_copy in H.
  rewrite (bind_run _ _ _ _ _ (g_object_new_run h)) in H.
  set (h2 := {| garrays := _; tensors := _; mem_limit := _ |}) in H.
  assert (Ht2 : nth_error (tensors h2) t = Some (Some priv))
    by (apply nth_error_app_Some; exact Ht).
  rewrite (bind_run _ _ _ _ _ (get_priv_run _ _ _ Ht2)) in H.
  apply bind_Done in H as (pd & h3 & H3 & H).
  apply garray_read_Done in H3 as [_ ->].
  apply bind_Done in H as (n & h4 & H4 & H).
  assert (Hh4 : h4 = h2).
  { unfold array_size_t_product in H4.
    destruct (zlen pd <=? zlen pd); [| discriminate H4].
    inversion H4; reflexivity. }
  subst h4.
  apply bind_Done in H as (r0 & h5 & H5 & H).
  destruct r0 as [[] | e].
  - assert (Hc : c = List.length (tensors h) /\ h' = h5)
      by (inversion H; auto).
    destruct Hc as [-> ->].
    split; [reflexivity |]. split.
    + assert (t < List.length (tensors h))%nat
        by (apply nth_error_Some; congruence).
      lia.
    + eapply set_data_aligned_padded_Success. exact H5.
  - apply bind_Done in H as (u1 & h6 & _ & H). discriminate H.
Qed.

Lemma copy_shares_shape_array_witness :
  exists ps,
    nth_error (tensors (store_after (pipevec_tensor_copy 0) empty_rows_heap)) 1
    = Some (Some {| array := None; shape := 0; padded_shape := ps |}).
Proof.
  refine (proj2 (proj2 (copy_shares_shape_array
                          empty_rows_heap _ 0 1
                          {| array := None; shape := 0; padded_shape := 4 |}
                          _ _))).
  - reflexivity.
  - vm_compute. reflexivity.
Defined.

(** ** Allocation failure *)

(** X14.  When [posix_memalign] refuses the request, [set_data] (the shape
    product matching the contents) fails with [PIPEVEC_ERROR_INTERNAL] and
    the store is as before: the tensor keeps its previous shape, padded
    shape and buffer.  The request is 32 bytes for each cell of the shape
    with its last dimension rounded up to a multiple of 8. *)
Theorem set_data_allocation_failure
        (h : heap) (t p : nat) (dims : list Z) (contents : list Float32.t) :
  nth_error (garrays h) p = Some dims ->
  zlen dims < UINT_MOD ->
  let product := plain_product dims mod SIZE_MOD in
  let last := nth (List.length dims - 1) dims 0 in
  dims <> [] -> last <> 0 ->
  product = zlen contents ->
  mem_limit h < size_mul 32 (size_mul (product / last) (apply_padding last 8)) ->
  pipevec_tensor_set_data t contents p h
  = Done (Failure (Some {| code := PIPEVEC_ERROR_INTERNAL;
                           message := "Unable to allocate memory: Cannot allocate memory" |}))
         h.
Proof.
  intros Hp Hu product last Hd Hl HP Hmem.
  assert (Hlast : zth dims (guint_sub (zlen dims) 1) = Some last).
  { unfold guint_sub.
    assert (0 < zlen dims) by (unfold zlen; destruct dims; [congruence | simpl; lia]).
    rewrite Z.mod_small by lia. rewrite zth_nth by lia.
    unfold last, zlen. do 2 f_equal. lia. }
  unfold pipevec_tensor_set_data.
  rewrite (bind_run _ _ _ _ _ (garray_read_run _ _ _ Hp)).
  rewrite (bind_run _ _ _ _ _ (array_size_t_product_run dims h)).
  fold product. replace (product =? zlen contents) with true
    by (symmetry; apply Z.eqb_eq; exact HP).
  cbn [negb].
  assert (Ha : pipevec_tensor_alloc_shape t p h
               = Done (Failure (Some {| code := PIPEVEC_ERROR_INTERNAL;
                                        message := "Unable to allocate memory: Cannot allocate memory" |}))
                      h).
  { unfold pipevec_tensor_alloc_shape.
    rewrite (bind_run _ _ _ _ _ (garray_read_run _ _ _ Hp)).
    rewrite (bind_run _ _ _ _ _ (array_size_t_product_run dims h)).
    rewrite Hlast. cbn [need]. unfold ret at 1, bind at 1.
    replace (last =? 0) with false by (symmetry; apply Z.eqb_neq; exact Hl).
    unfold posix_memalign at 1. unfold bind at 1.
    fold product. unfold SIZEOF_FLOAT8.
    replace (size_mul 32 (size_mul (product / last) (apply_padding last 8))
             <=? mem_limit h) with false
      by (symmetry; apply Z.leb_gt; exact Hmem).
    reflexivity. }
  rewrite (bind_run _ _ _ _ _ Ha). reflexivity.
Qed.

Lemma set_data_allocation_failure_witness :
  pipevec_tensor_set_data 0 (f32s [1; 2; 3; 4; 5; 6]) 0 small_memory_heap
  = Done (Failure (Some {| code := PIPEVEC_ERROR_INTERNAL;
                           message := "Unable to allocate memory: Cannot allocate memory" |}))
         small_memory_heap.
Proof.
  refine (set_data_allocation_failure small_memory_heap 0 0 [2; 3]
                                      (f32s [1; 2; 3; 4; 5; 6]) _ _ _ _ _ _).
  - reflexivity.
  - reflexivity.
  - discriminate.
  - vm_compute. discriminate.
  - reflexivity.
  - reflexivity.
Defined.

(** ** The inner product never stores a product *)

Lemma pre_true (h h' : heap) : True -> h = h' -> True.
Proof. auto. Qed.

Ltac ep := tp (@eq_refl heap) (@eq_trans heap) pre_true.

Lemma e_float_index_size (p : nat) (k : Z) :
  triple (fun _ => True) eq (float_index_size p k) (fun _ => True).
Proof. unfold float_index_size. ep. Qed.

Lemma e_garray_len (p : nat) :
  triple (fun _ => True) eq (garray_len p) (fun _ => True).
Proof. unfold garray_len. ep. Qed.

Lemma e_array_size_t_product (data : list Z) (len : Z) :
  triple (fun _ => True) eq (array_size_t_product data len) (fun _ => True).
Proof. ep. Qed.

(** X20.  Whenever [inner_product] returns a tensor, that tensor has no buffer:
    the loops ran no iteration that stores, so no product of the operands
    was computed. *)
Theorem inner_product_result_has_no_buffer
        (h h' : heap) (lhs rhs c : nat) :
  pipevec_tensor_inner_product_tensor lhs rhs h = Done (Success c) h' ->
  buffer_of c h' = Done None h'.
Proof.
  intros H. unfold pipevec_tensor_inner_product_tensor in H.
  apply bind_Done in H as (lp & h1 & H1 & H).
  apply get_priv_Done in H1 as [_ ->].
  apply bind_Done in H as (rp & h1 & H1 & H).
  apply get_priv_Done in H1 as [_ ->].
  apply bind_Done in H as (ls & h1 & H1 & H).
  apply garray_read_Done in H1 as [_ ->].
  apply bind_Done in H as (rs & h1 & H1 & H).
  apply garray_read_Done in H1 as [_ ->].
  destruct (negb (shape_subset_equal ls rs 2)).
  { apply bind_Done in H as (s1 & h1 & _ & H).
    apply bind_Done in H as (s2 & h2 & _ & H). discriminate H. }
  apply bind_Done in H as (l_last & h1 & H1 & H).
  apply need_Done in H1 as [_ ->].
  apply bind_Done in H as (r_prev & h1 & H1 & H).
  apply need_Done in H1 as [_ ->].
  destruct (negb (l_last =? r_prev)).
  { apply bind_Done in H as (s1 & h1 & _ & H).
    apply bind_Done in H as (s2 & h2 & _ & H). discriminate H. }
  apply bind_Done in H as (new_shape & h1 & _ & H).
  apply bind_Done in H as (u1 & h2 & _ & H).
  apply bind_Done in H as (u2 & h3 & _ & H).
  apply bind_Done in H as (new_tensor & h4 & _ & H).
  apply bind_Done in H as (r & ha & Ha & H).
  destruct r as [[] | e].
  2:{ apply bind_Done in H as (u3 & h5 & _ & H). discriminate H. }
  apply alloc_shape_null_buffer in Ha as [ps Hps].
  rewrite (bind_run _ _ _ _ _ (get_priv_run _ _ _ Hps)) in H.
  apply bind_Done in H as (nshape & h5 & H5 & H).
  apply garray_read_Done in H5 as [_ ->].
  apply bind_Done in H as (npadded & h5 & H5 & H).
  apply garray_read_Done in H5 as [_ ->].
  apply bind_Done in H as (lb & h5 & H5 & H).
  destruct (e_array_size_t_product _ _ _ _ _ I H5) as [<- _].
  apply bind_Done in H as (pp & h5 & H6 & H).
  destruct (e_array_size_t_product _ _ _ _ _ I H6) as [<- _].
  destruct (lb =? 0); [discriminate H |]. cbv zeta in H.
  apply bind_Done in H as (rows & h5 & H7 & H).
  destruct (e_float_index_size _ _ _ _ _ I H7) as [<- _].
  apply bind_Done in H as (columns & h5 & H8 & H).
  destruct (e_float_index_size _ _ _ _ _ I H8) as [<- _].
  apply bind_Done in H as (dot & h5 & H9 & H).
  destruct (e_float_index_size _ _ _ _ _ I H9) as [<- _].
  apply bind_Done in H as (row_length & h5 & H10 & H).
  destruct (e_float_index_size _ _ _ _ _ I H10) as [<- _].
  apply bind_Done in H as (lhs_plen & h5 & H11 & H).
  destruct (e_garray_len _ _ _ _ I H11) as [<- _].
  apply bind_Done in H as (lhs_row_length & h5 & H12 & H).
  destruct (e_float_index_size _ _ _ _ _ I H12) as [<- _].
  apply bind_Done in H as (rhs_plen & h5 & H13 & H).
  destruct (e_garray_len _ _ _ _ I H13) as [<- _].
  apply bind_Done in H as (rhs_row_length & h5 & H14 & H).
  destruct (e_float_index_size _ _ _ _ _ I H14) as [<- _].
  apply bind_Done in H as (u4 & h6 & Hloop & H).
  assert (Hres : c = new_tensor /\ h' = h6) by (inversion H; auto).
  destruct Hres as [-> ->]. clear H.
  assert (HQ : buffer_is_null new_tensor ha)
    by (eexists; split; [exact Hps | reflexivity]).
  unfold for_range in Hloop.
  apply (for_loop_unchanged (buffer_is_null new_tensor)) in Hloop;
    [| | exact HQ].
  - subst h6. unfold buffer_of.
    rewrite (bind_run _ _ _ _ _ (get_priv_run _ _ _ Hps)). reflexivity.
  - intros b hb ub hb' HQb Hb. cbv zeta in Hb. unfold for_range in Hb.
    apply (for_loop_unchanged (buffer_is_null new_tensor)) in Hb;
      [exact Hb | | exact HQb].
    intros i hi ui hi' HQi Hi. unfold for_range in Hi.
    apply (for_loop_blocked (buffer_is_null new_tensor)) in Hi as [_ Hi];
      [exact Hi | | exact HQi].
    intros j hj uj hj' (pj & Hpj & Haj) Hj. cbv zeta in Hj.
    apply bind_Done in Hj as (u5 & h7 & Hst & _).
    rewrite (array_store_null _ _ _ _ _ Hpj Haj) in Hst. discriminate Hst.
Qed.

Lemma inner_product_result_has_no_buffer_witness :
  buffer_of 2
    (store_after (pipevec_tensor_inner_product_tensor 0 1)
       (laid_out_heap [[1; 2; 3]; [4; 5; 6]] [[7; 8]; [9; 10]; [11; 12]]))
  = Done None
      (store_after (pipevec_tensor_inner_product_tensor 0 1)
         (laid_out_heap [[1; 2; 3]; [4; 5; 6]] [[7; 8]; [9; 10]; [11; 12]])).
Proof.
  refine (inner_product_result_has_no_buffer
            (laid_out_heap [[1; 2; 3]; [4; 5; 6]] [[7; 8]; [9; 10]; [11; 12]])
            _ 0 1 2 _).
  vm_compute. reflexivity.
Defined.

(** ** The earlier general statements at concrete inputs *)

Lemma apply_padding_multiple_witness :
  apply_padding 3 8 mod 8 = 0 /\ 3 <= apply_padding 3 8 < 3 + 8.
Proof.
  apply (apply_padding_multiple 3); [lia | reflexivity].
Defined.

Lemma set_data_stores_nothing_witness :
  ~ exists r h',
      pipevec_tensor_set_data 0 (f32s [1; 2; 3; 4; 5; 6]) 0
        (store_after g_object_new (caller_heap [[2; 3]]))
      = Done (Success r) h'.
Proof.
  intros (r & h' & H). revert H.
  apply (set_data_stores_nothing _ 0 0 [2; 3]).
  - reflexivity.
  - repeat constructor; lia.
  - reflexivity.
  - reflexivity.
  - discriminate.
Defined.

(** X7.  For a shape of rank at least 2, [set_data] reports
    [PIPEVEC_ERROR_BAD_SHAPE] exactly when the (wrapping) product of the
    shape differs from the number of contents, and then the store is left
    as it was. *)
Theorem set_data_bad_shape_iff
        (h : heap) (tensor shape_p : nat) (dims : list Z)
        (contents : list Float32.t) :
  nth_error (garrays h) shape_p = Some dims ->
  (2 <= List.length dims)%nat -> zlen dims < UINT_MOD ->
  let product := fold_left size_mul dims 1 in
  (product <> zlen contents ->
   pipevec_tensor_set_data tensor contents shape_p h
   = Done (Failure (Some {| code := PIPEVEC_ERROR_BAD_SHAPE;
                            message := ("Shape " ++ formatted dims
                                        ++ " has product " ++ fmt_zu product
                                        ++ " which does not match array length "
                                        ++ fmt_zu (zlen dims) ++ "i")%string |}))
          h)
  /\ (product = zlen contents ->
      forall g h',
        pipevec_tensor_set_data tensor contents shape_p h
        = Done (Failure (Some g)) h' ->
        code g <> PIPEVEC_ERROR_BAD_SHAPE).
Proof. exact (set_data_bad_shape_cases h tensor shape_p dims contents). Qed.

Lemma set_data_bad_shape_iff_witness :
  pipevec_tensor_set_data 0 (f32s [1; 2; 3; 4; 5]) 0
    (store_after g_object_new (caller_heap [[2; 3]]))
  = Done (Failure (Some {| code := PIPEVEC_ERROR_BAD_SHAPE;
                           message := ("Shape " ++ formatted [2; 3]
                                       ++ " has product 6 which does not match array length 2i")%string |}))
         (store_after g_object_new (caller_heap [[2; 3]])).
Proof.
  refine (proj1 (set_data_bad_shape_iff
                   (store_after g_object_new (caller_heap [[2; 3]]))
                   0 0 [2; 3] (f32s [1; 2; 3; 4; 5]) _ _ _) _).
  - reflexivity.
  - simpl. lia.
  - reflexivity.
  - vm_compute. discriminate.
Defined.

Lemma set_location_unranks_witness :
  exists location',
    set_location [0; 0] [2; 3] 4 (caller_heap []) = Done location' (caller_heap [])
    /\ nth 0 location' 0 = 1 /\ nth 1 location' 0 = 1.
Proof.
  destruct (set_location_unranks [0; 0] [2; 3] 4 (caller_heap []))
    as (loc & Hrun & _ & Hloc).
  - repeat constructor.
  - reflexivity.
  - lia.
  - reflexivity.
  - exists loc. split; [exact Hrun |].
    split; [apply (Hloc 0%nat) | apply (Hloc 1%nat)]; simpl; lia.
Defined.

Lemma inner_product_bad_shape_rank2_witness :
  pipevec_tensor_inner_product_tensor 0 1 empty_batches_heap
  = Done (Failure (Some {| code := PIPEVEC_ERROR_BAD_SHAPE;
                           message := (formatted [0; 2; 3] ++ " and "
                                       ++ formatted [5; 0; 3]
                                       ++ " must have the same leading shape")%string |}))
         empty_batches_heap.
Proof.
  refine (proj1 (inner_product_bad_shape_rank2
                   empty_batches_heap 0 1
                   {| array := None; shape := 0; padded_shape := 4 |}
                   {| array := None; shape := 1; padded_shape := 7 |}
                   [0; 2; 3] [5; 0; 3] _ _ _ _ _ _ _ _) _);
    try reflexivity; try (simpl; lia).
  vm_compute. discriminate.
Defined.

(** ** The callback and the element function are never applied *)

Lemma for_loop_ext_blocked (Q : heap -> Prop) (body1 body2 : Z -> M unit) :
  (forall i h1, Q h1 -> body1 i h1 = body2 i h1) ->
  (forall i h1 u h2, Q h1 -> body1 i h1 <> Done u h2) ->
  forall n i h, Q h -> for_loop n i body1 h = for_loop n i body2 h.
Proof.
  intros He Hb [| n] i h HQ; simpl; [reflexivity |].
  unfold bind. rewrite <- (He i h HQ).
  destruct (body1 i h) as [u h2 |] eqn:E; [| reflexivity].
  exfalso. exact (Hb i h u h2 HQ E).
Qed.

Lemma for_loop_ext (Q : heap -> Prop) (body1 body2 : Z -> M unit) :
  (forall i h1, Q h1 -> body1 i h1 = body2 i h1) ->
  (forall i h1 u h2, Q h1 -> body1 i h1 = Done u h2 -> Q h2) ->
  forall n i h, Q h -> for_loop n i body1 h = for_loop n i body2 h.
Proof.
  intros He Hp. induction n as [| n IH]; intros i h HQ; simpl; [reflexivity |].
  unfold bind. rewrite <- (He i h HQ).
  destruct (body1 i h) as [u h2 |] eqn:E; [| reflexivity].
  apply IH. eapply Hp; eassumption.
Qed.

Lemma for_fold_ext_blocked {S} (Q : heap -> Prop) (body1 body2 : Z -> S -> M S) :
  (forall i acc h1, Q h1 -> body1 i acc h1 = body2 i acc h1) ->
  (forall i acc h1 a h2, Q h1 -> body1 i acc h1 <> Done a h2) ->
  forall n i acc h, Q h -> for_fold n i acc body1 h = for_fold n i acc body2 h.
Proof.
  intros He Hb [| n] i acc h HQ; simpl; [reflexivity |].
  unfold bind. rewrite <- (He i acc h HQ).
  destruct (body1 i acc h) as [a h2 |] eqn:E; [| reflexivity].
  exfalso. exact (Hb i acc h a h2 HQ E).
Qed.

Lemma for_fold_blocked {S} (Q : heap -> Prop) (body : Z -> S -> M S) :
  (forall i acc h1 a h2, Q h1 -> body i acc h1 <> Done a h2) ->
  forall n i acc h a h', Q h -> for_fold n i acc body h = Done a h' ->
                         n = 0%nat /\ h' = h.
Proof.
  intros Hb [| n] i acc h a h' HQ H; simpl in H.
  - inversion H; auto.
  - apply bind_Done in H as (a1 & h1 & H1 & _).
    exfalso. eapply Hb; eassumption.
Qed.

Lemma for_fold_ext {S} (Q : heap -> Prop) (body1 body2 : Z -> S -> M S) :
  (forall i acc h1, Q h1 -> body1 i acc h1 = body2 i acc h1) ->
  (forall i acc h1 a h2, Q h1 -> body1 i acc h1 = Done a h2 -> Q h2) ->
  forall n i acc h, Q h -> for_fold n i acc body1 h = for_fold n i acc body2 h.
Proof.
  intros He Hp. induction n as [| n IH]; intros i acc h HQ; simpl;
    [reflexivity |].
  unfold bind. rewrite <- (He i acc h HQ).
  destruct (body1 i acc h) as [a h2 |] eqn:E; [| reflexivity].
  apply IH. eapply Hp; eassumption.
Qed.

Lemma copy_result_null (t c : nat) h h' :
  pipevec_tensor_copy t h = Done (Success c) h' -> buffer_is_null c h'.
Proof.
  intros H. unfold pipevec_tensor_copy in H.
  apply bind_Done in H as (new_tensor & h1 & _ & H).
  apply bind_Done in H as (priv & h2 & _ & H).
  apply bind_Done in H as (pd & h3 & _ & H).
  apply bind_Done in H as (n & h4 & _ & H).
  apply bind_Done in H as (r0 & h5 & H5 & H).
  destruct r0 as [[] | e].
  - assert (Hc : c = new_tensor /\ h' = h5) by (inversion H; auto).
    destruct Hc as [-> ->].
    apply set_data_aligned_padded_Success in H5 as [ps Hps].
    eexists. split; [exact Hps | reflexivity].
  - apply bind_Done in H as (u1 & h6 & _ & H). discriminate H.
Qed.

Lemma array_load_same t off h v h' : array_load t off h = Done v h' -> h' = h.
Proof.
  intros H.
  destruct (t_array_load (fun _ => True) eq (@eq_refl heap) (@eq_trans heap)
                         pre_true t off h v h' I H) as [-> _].
  reflexivity.
Qed.

Lemma array_load_null t off h :
  buffer_is_null t h -> array_load t off h = Crash NullDereference.
Proof.
  intros (priv & Ht & Ha). unfold array_load.
  rewrite (bind_run _ _ _ _ _ (get_priv_run _ _ _ Ht)). rewrite Ha.
  reflexivity.
Qed.

Lemma array_store_value_blind t off v w h :
  buffer_is_null t h -> array_store t off v h = array_store t off w h.
Proof.
  intros (priv & Ht & Ha).
  rewrite !(array_store_null _ _ _ _ _ Ht Ha). reflexivity.
Qed.

Lemma bind_ext {A B} (m : M A) (k1 k2 : A -> M B) h :
  (forall a h1, m h = Done a h1 -> k1 a h1 = k2 a h1) ->
  bind m k1 h = bind m k2 h.
Proof.
  intros Hk. unfold bind. destruct (m h) as [a h1 |] eqn:E; [| reflexivity].
  apply Hk. reflexivity.
Qed.

Lemma bind_ext_m {A B} (m1 m2 : M A) (k : A -> M B) h :
  m1 h = m2 h -> bind m1 k h = bind m2 k h.
Proof. intros Hm. unfold bind. rewrite Hm. reflexivity. Qed.

Lemma set_location_same loc sd i h l' h' :
  set_location loc sd i h = Done l' h' -> h' = h.
Proof.
  intros H.
  destruct (t_set_location (fun _ => True) eq (@eq_refl heap) (@eq_trans heap)
                           pre_true _ _ _ _ _ _ I H) as [-> _].
  reflexivity.
Qed.

(** X23.  The callback given to [pipevec_tensor_map] is never applied:
    whatever the store and the source tensor, [map] behaves the same (same
    result, same store, same crash) for any two callbacks.  The element
    it would pass is read through the [NULL] buffer of the copy. *)
Theorem map_never_calls_back
        (h : heap) (src : nat) (f g : PipevecTensorMapFunction) :
  pipevec_tensor_map src f h = pipevec_tensor_map src g h.
Proof.
  unfold pipevec_tensor_map.
  apply bind_ext. intros r h1 Ec. destruct r as [dst | e]; [| reflexivity].
  pose proof (copy_result_null _ _ _ _ Ec) as HQ.
  apply bind_ext. intros priv h2 E1. apply get_priv_Done in E1 as [_ ->].
  apply bind_ext. intros sd h2 E2. apply garray_read_Done in E2 as [_ ->].
  apply bind_ext. intros pd h2 E3. apply garray_read_Done in E3 as [_ ->].
  apply bind_ext. intros prod h2 E4.
  destruct (e_array_size_t_product _ _ _ _ _ I E4) as [<- _].
  apply bind_ext. intros last h2 E5. apply need_Done in E5 as [_ ->].
  destruct (last =? 0); [reflexivity |]. cbv zeta.
  apply bind_ext. intros isp h2 E6. apply need_Done in E6 as [_ ->].
  apply bind_ext_m.
  assert (Hinner : forall (k : PipevecTensorMapFunction) i j loc0 h3 a h4,
             buffer_is_null dst h3 ->
             (loc' <- set_location loc0 sd (size_add (size_mul i last) j) ;;
              v <- array_load dst (size_add (size_mul i isp) j) ;;
              array_store dst (size_add (size_mul i isp) j) (k v loc') ;;;
              ret loc') h3 <> Done a h4).
  { intros k i j loc0 h3 a h4 HQ3 Hb.
    apply bind_Done in Hb as (l' & h5 & Hl & Hb).
    apply set_location_same in Hl as ->.
    apply bind_Done in Hb as (v & h6 & Hv & _).
    rewrite (array_load_null _ _ _ HQ3) in Hv. discriminate Hv. }
  apply (for_fold_ext (buffer_is_null dst)); [| | exact HQ].
  - intros i loc h2 HQ2.
    apply (for_fold_ext_blocked (buffer_is_null dst)); [| | exact HQ2].
    + intros j loc0 h3 HQ3.
      apply bind_ext. intros l' h4 El. apply set_location_same in El as ->.
      apply bind_ext. intros v h4 Ev.
      rewrite (array_load_null _ _ _ HQ3) in Ev. discriminate Ev.
    + intros j loc0 h3 a h4 HQ3. apply Hinner. exact HQ3.
  - intros i loc h2 a h3 HQ2 Hb.
    apply (for_fold_blocked (buffer_is_null dst)) in Hb as [_ ->];
      [exact HQ2 | | exact HQ2].
    intros j loc0 h4 a0 h5 HQ4. apply Hinner. exact HQ4.
Qed.

(** X24.  What the element function returns is never stored: whatever the
    store and the operands, an elementwise operation behaves the same
    (same result, same store, same crash) for any two element functions,
    and a scalar operation behaves the same for any two element functions
    and any two scalars.  So addition, subtraction, product and quotient
    cannot be told apart. *)
Theorem element_function_never_matters
        (h : heap) (lhs rhs : nat) (s s' : Float32.t)
        (f g : PipevecTensorElementwiseFunc) :
  pipevec_tensor_do_elementwise_op lhs rhs f h
  = pipevec_tensor_do_elementwise_op lhs rhs g h
  /\ pipevec_tensor_do_scalar_op lhs s f h
     = pipevec_tensor_do_scalar_op lhs s' g h.
Proof.
  split.
  - unfold pipevec_tensor_do_elementwise_op.
    apply bind_ext. intros lp h1 E1. apply get_priv_Done in E1 as [_ ->].
    apply bind_ext. intros rp h1 E1. apply get_priv_Done in E1 as [_ ->].
    apply bind_ext. intros ls h1 E1. apply garray_read_Done in E1 as [_ ->].
    apply bind_ext. intros rs h1 E1. apply garray_read_Done in E1 as [_ ->].
    apply bind_ext. intros ck h1 _. destruct ck as [[] | e]; [| reflexivity].
    apply bind_ext. intros r h2 Ec. destruct r as [dst | e]; [| reflexivity].
    pose proof (copy_result_null _ _ _ _ Ec) as HQ.
    apply bind_ext. intros sd h3 E2. apply garray_read_Done in E2 as [_ ->].
    apply bind_ext. intros pd h3 E3. apply garray_read_Done in E3 as [_ ->].
    apply bind_ext. intros prod h3 E4.
    destruct (e_array_size_t_product _ _ _ _ _ I E4) as [<- _].
    apply bind_ext. intros last h3 E5. apply need_Done in E5 as [_ ->].
    destruct (last =? 0); [reflexivity |]. cbv zeta.
    apply bind_ext. intros isp h3 E6. apply need_Done in E6 as [_ ->].
    apply bind_ext_m. unfold for_range.
    assert (Hinner : forall (k : PipevecTensorElementwiseFunc) i j h3 u h4,
               buffer_is_null dst h3 ->
               (a <- array_load lhs (size_add (size_mul i isp) j) ;;
                b <- array_load rhs (size_add (size_mul i isp) j) ;;
                array_store dst (size_add (size_mul i isp) j) (k a b)) h3
               <> Done u h4).
    { intros k i j h3 u h4 (pq & Hq & Hqa) Hb.
      apply bind_Done in Hb as (a & h5 & Ha & Hb).
      apply array_load_same in Ha as ->.
      apply bind_Done in Hb as (b & h6 & Hb' & Hb).
      apply array_load_same in Hb' as ->.
      rewrite (array_store_null _ _ _ _ _ Hq Hqa) in Hb. discriminate Hb. }
    apply (for_loop_ext (buffer_is_null dst)); [| | exact HQ].
    + intros i h3 HQ3. cbv zeta.
      apply (for_loop_ext_blocked (buffer_is_null dst)); [| | exact HQ3].
      * intros j h4 HQ4. cbv zeta.
        apply bind_ext. intros a h5 Ha. apply array_load_same in Ha as ->.
        apply bind_ext. intros b h5 Hb. apply array_load_same in Hb as ->.
        apply array_store_value_blind. exact HQ4.
      * intros j h4 u h5 HQ4. apply Hinner. exact HQ4.
    + intros i h3 u h4 HQ3 Hb.
      apply (for_loop_blocked (buffer_is_null dst)) in Hb as [_ ->];
        [exact HQ3 | | exact HQ3].
      intros j h5 u0 h6 HQ5. apply Hinner. exact HQ5.
  - unfold pipevec_tensor_do_scalar_op.
    apply bind_ext. intros lp h1 E1. apply get_priv_Done in E1 as [_ ->].
    apply bind_ext. intros r h2 Ec. destruct r as [dst | e]; [| reflexivity].
    pose proof (copy_result_null _ _ _ _ Ec) as HQ.
    apply bind_ext. intros sd h3 E2. apply garray_read_Done in E2 as [_ ->].
    apply bind_ext. intros pd h3 E3. apply garray_read_Done in E3 as [_ ->].
    apply bind_ext. intros prod h3 E4.
    destruct (e_array_size_t_product _ _ _ _ _ I E4) as [<- _].
    apply bind_ext. intros last h3 E5. apply need_Done in E5 as [_ ->].
    destruct (last =? 0); [reflexivity |]. cbv zeta.
    apply bind_ext. intros isp h3 E6. apply need_Done in E6 as [_ ->].
    apply bind_ext_m. unfold for_range.
    assert (Hinner : forall (k : PipevecTensorElementwiseFunc) x i j h3 u h4,
               buffer_is_null dst h3 ->
               (a <- array_load lhs (size_add (size_mul i isp) j) ;;
                array_store dst (size_add (size_mul i isp) j) (k a x)) h3
               <> Done u h4).
    { intros k x i j h3 u h4 (pq & Hq & Hqa) Hb.
      apply bind_Done in Hb as (a & h5 & Ha & Hb).
      apply array_load_same in Ha as ->.
      rewrite (array_store_null _ _ _ _ _ Hq Hqa) in Hb. discriminate Hb. }
    apply (for_loop_ext (buffer_is_null dst)); [| | exact HQ].
    + intros i h3 HQ3. cbv zeta.
      apply (for_loop_ext_blocked (buffer_is_null dst)); [| | exact HQ3].
      * intros j h4 HQ4. cbv zeta.
        apply bind_ext. intros a h5 Ha. apply array_load_same in Ha as ->.
        apply array_store_value_blind. exact HQ4.
      * intros j h4 u h5 HQ4. apply Hinner. exact HQ4.
    + intros i h3 u h4 HQ3 Hb.
      apply (for_loop_blocked (buffer_is_null dst)) in Hb as [_ ->];
        [exact HQ3 | | exact HQ3].
      intros j h5 u0 h6 HQ5. apply Hinner. exact HQ5.
Qed.

(** ** The values of the contents are never stored *)

Lemma need_zth_same_length (c1 c2 : list Float32.t) (i : Z) :
  List.length c1 = List.length c2 ->
  (zth c1 i = None /\ zth c2 i = None)
  \/ (exists v1 v2, zth c1 i = Some v1 /\ zth c2 i = Some v2).
Proof.
  intros Hlen. unfold zth, zlen. rewrite Hlen.
  destruct ((i <? 0) || (Z.of_nat (List.length c2) <=? i)) eqn:E;
    [left; split; reflexivity |].
  right. apply Bool.orb_false_iff in E as [E1 E2].
  apply Z.ltb_ge in E1. apply Z.leb_gt in E2.
  assert (Hn : (Z.to_nat i < List.length c2)%nat) by lia.
  destruct (nth_error c1 (Z.to_nat i)) as [v1 |] eqn:N1;
    [| apply nth_error_None in N1; lia].
  destruct (nth_error c2 (Z.to_nat i)) as [v2 |] eqn:N2;
    [| apply nth_error_None in N2; lia].
  exists v1, v2. split; reflexivity.
Qed.

Lemma set_data_values_blind (h : heap) (t p : nat) (c1 c2 : list Float32.t) :
  List.length c1 = List.length c2 ->
  pipevec_tensor_set_data t c1 p h = pipevec_tensor_set_data t c2 p h.
Proof.
  intros Hlen.
  assert (Hz : zlen c1 = zlen c2) by (unfold zlen; congruence).
  unfold pipevec_tensor_set_data.
  apply bind_ext. intros sd h1 E1. apply garray_read_Done in E1 as [_ ->].
  apply bind_ext. intros prod h1 E2.
  destruct (e_array_size_t_product _ _ _ _ _ I E2) as [<- _].
  rewrite Hz. destruct (negb (prod =? zlen c2)); [reflexivity |].
  apply bind_ext. intros r ha Ea. destruct r as [[] | e]; [| reflexivity].
  apply alloc_shape_null_buffer in Ea as [ps Hps].
  assert (HQ : buffer_is_null t ha)
    by (eexists; split; [exact Hps | reflexivity]).
  apply bind_ext. intros last h2 E3. apply need_Done in E3 as [_ ->].
  destruct (last =? 0); [reflexivity |]. cbv zeta.
  apply bind_ext. intros priv h2 E4. apply get_priv_Done in E4 as [_ ->].
  apply bind_ext. intros isp h2 E5. apply last_as_float_size_Done in E5 as ->.
  apply bind_ext_m. unfold for_range.
  assert (Hrow : forall (c : list Float32.t) i j h3 u h4,
             buffer_is_null t h3 ->
             (v <- need (zth c (size_add (size_mul i last) j)) OutOfBounds ;;
              array_store t (size_add (size_mul i isp) j) v) h3
             <> Done u h4).
  { intros c i j h3 u h4 HQ3. apply store_blocked; [exact HQ3 |].
    intros v h8 Hv. apply need_Done in Hv as [_ ->]. reflexivity. }
  apply (for_loop_ext (buffer_is_null t)); [| | exact HQ].
  - intros i h3 HQ3. apply bind_ext_m.
    apply (for_loop_ext_blocked (buffer_is_null t)); [| | exact HQ3].
    + intros j h4 HQ4.
      destruct (need_zth_same_length c1 c2 (size_add (size_mul i last) j) Hlen)
        as [[-> ->] | (v1 & v2 & -> & ->)]; [reflexivity |].
      cbn [need]. unfold ret, bind.
      apply array_store_value_blind. exact HQ4.
    + intros j h4 u h5 HQ4. apply Hrow. exact HQ4.
  - intros i h3 u h4 HQ3 Hb.
    apply bind_Done in Hb as (u2 & h5 & Hin & Hpad).
    apply (for_loop_blocked (buffer_is_null t)) in Hin as [_ ->];
      [| intros j h6 u3 h7 HQ6; apply Hrow; exact HQ6 | exact HQ3].
    apply (for_loop_blocked (buffer_is_null t)) in Hpad as [_ ->];
      [exact HQ3 | | exact HQ3].
    intros j h6 u3 h7 (pq & Hq & Hqa) Hs.
    rewrite (array_store_null _ _ _ _ _ Hq Hqa) in Hs. discriminate Hs.
Qed.

(** X26.  [set_data] never stores a value of its contents: whatever the
    store, the tensor and the shape, it behaves the same (same result,
    same store, same crash) for any two contents of the same length.  So
    [reshape], which hands it the array [get_data] returned, behaves the
    same whatever the cells that were never written read as. *)
Theorem contents_values_never_matter
        (h : heap) (t p : nat) (c1 c2 : list Float32.t)
        (u1 u2 : Z -> Float32.t) :
  List.length c1 = List.length c2 ->
  pipevec_tensor_set_data t c1 p h = pipevec_tensor_set_data t c2 p h
  /\ pipevec_tensor_reshape u1 t p h = pipevec_tensor_reshape u2 t p h.
Proof.
  intros Hlen. split; [apply set_data_values_blind; exact Hlen |].
  unfold pipevec_tensor_reshape.
  apply bind_ext. intros v h1 Eg. apply get_data_Done_same in Eg as ->.
  apply set_data_values_blind. unfold read_cells.
  rewrite !read_cells_from_length. reflexivity.
Qed.

Lemma contents_values_never_matter_witness :
  pipevec_tensor_set_data 0 (f32s [1; 2; 3; 4; 5; 6]) 0
    (store_after g_object_new (caller_heap [[2; 3]]))
  = pipevec_tensor_set_data 0 (f32s [0; 0; 0; 0; 0; 0]) 0
      (store_after g_object_new (caller_heap [[2; 3]]))
  /\ pipevec_tensor_reshape (fun _ => Float32.zero) 0 0 wrapped_rows_heap
     = pipevec_tensor_reshape (fun k => Float32.of_Z (k + 1)) 0 0
                              wrapped_rows_heap.
Proof.
  split.
  - refine (proj1 (contents_values_never_matter
                     (store_after g_object_new (caller_heap [[2; 3]])) 0 0
                     (f32s [1; 2; 3; 4; 5; 6]) (f32s [0; 0; 0; 0; 0; 0])
                     (fun _ => Float32.zero) (fun _ => Float32.zero) _)).
    reflexivity.
  - refine (proj2 (contents_values_never_matter
                     wrapped_rows_heap 0 0 [] []
                     (fun _ => Float32.zero) (fun k => Float32.of_Z (k + 1)) _)).
    reflexivity.
Defined.
